(** * RealtimeEffectState: channel allocation, realtime lifecycle and
      latency accounting

    A shallow embedding of [src/effects/RealtimeEffectState.cpp].

    - [unsigned] values are integers in [0, 2^32) and [size_t] values are
      integers in [0, 2^64) (LP64); every arithmetic operation of the source
      on them is written with its wrap-around ([wrap32], [wrap64]).
    - Loops that the source does not bound take a [fuel : nat]; [None] means
      that the fuel ran out (or that the call has no defined behaviour: a
      null or out-of-bounds pointer was used).
    - The effect plugin and its processing instance are interfaces
      ([EffectInstanceFactory], [EffectInstance]); the state machine is
      verified for every implementation of them.
    - Calls into the plugin are recorded, in order, in a ghost field
      [calls] of the state, so that "the hook is invoked" can be stated. *)

From Stdlib Require Import ZArith Lia List Bool.
From stdpp Require Import base option list gmap strings.

Local Open Scope Z_scope.

(** ** Machine integers *)

Definition wrap32 (z : Z) : Z := z mod 2 ^ 32.
Definition wrap64 (z : Z) : Z := z mod 2 ^ 64.

(** ** The channel allocator *)

Module Allocator.
Section Allocator.
Context {St : Type}.

(** What the callback [f] of the source captures by reference is the state
    [St] it transforms; it answers [false] to stop the iteration. *)
Definition Callback : Type := Z -> Z -> St -> option (bool * St).

(** The [for] loop of [AllocateChannelsToProcessors], entered with the
    current [indx] and [ondx]. *)
Fixpoint AllocateChannelsToProcessors_from (fuel : nat)
    (chans numAudioIn numAudioOut : Z) (f : Callback)
    (indx ondx : Z) (s : St) : option St :=
  match fuel with
  | O => None
  | S fuel' =>
      if ondx <? chans then
        match f indx ondx s with
        | None => None
        | Some (false, s') => Some s'
        | Some (true, s') =>
            let indx := wrap32 (indx + numAudioIn) in
            let indx := indx mod chans in
            AllocateChannelsToProcessors_from fuel' chans numAudioIn
              numAudioOut f indx (wrap32 (ondx + numAudioOut)) s'
        end
      else Some s
  end.

Definition AllocateChannelsToProcessors (fuel : nat)
    (chans numAudioIn numAudioOut : Z) (f : Callback) (s : St) : option St :=
  AllocateChannelsToProcessors_from fuel chans numAudioIn numAudioOut
    f 0 0 s.

(** *** The offsets of the k-th invocation, as the loop computes them

    The output offset of the k-th invocation is [k * outputArity]; the input
    offset starts at 0 and advances by the input arity, reduced modulo the
    channel count.  Both are [unsigned] computations, as in the loop: these
    definitions are a closed form of the source, not the claim. *)
Definition outputOffset (numAudioOut : Z) (k : nat) : Z :=
  wrap32 (Z.of_nat k * numAudioOut).

Fixpoint inputOffset (chans numAudioIn : Z) (k : nat) : Z :=
  match k with
  | O => 0
  | S k' => wrap32 (inputOffset chans numAudioIn k' + numAudioIn) mod chans
  end.

(** Invocations [k], [k+1], ... of the callback, as long as the output offset
    is below [chans] and the callback has not answered [false]. *)
Fixpoint invocations_from (fuel : nat) (chans numAudioIn numAudioOut : Z)
    (f : Callback) (k : nat) (s : St) : option St :=
  match fuel with
  | O => None
  | S fuel' =>
      if outputOffset numAudioOut k <? chans then
        match f (inputOffset chans numAudioIn k)
                (outputOffset numAudioOut k) s with
        | None => None
        | Some (false, s') => Some s'
        | Some (true, s') =>
            invocations_from fuel' chans numAudioIn numAudioOut f (S k) s'
        end
      else Some s
  end.

(** Visiting a given finite list of offset pairs, stopping at the first
    [false]. *)
Fixpoint visit (f : Callback) (l : list (Z * Z)) (s : St) : option St :=
  match l with
  | [] => Some s
  | (indx, ondx) :: l' =>
      match f indx ondx s with
      | None => None
      | Some (false, s') => Some s'
      | Some (true, s') => visit f l' s'
      end
  end.

(** *** The traversal in the words of the claim

    "outputOffset takes the values 0, outputArity, 2*outputArity, ... while
    strictly less than chans, and inputOffset starts at 0 and after each
    invocation advances by inputArity reduced modulo chans; if any callback
    invocation returns false, iteration stops immediately".  The offsets
    are integers: nothing wraps. *)
Definition claimed_outputOffset (numAudioOut : Z) (k : nat) : Z :=
  Z.of_nat k * numAudioOut.

Fixpoint claimed_inputOffset (chans numAudioIn : Z) (k : nat) : Z :=
  match k with
  | O => 0
  | S k' => (claimed_inputOffset chans numAudioIn k' + numAudioIn) mod chans
  end.

Fixpoint claimed_invocations_from (fuel : nat)
    (chans numAudioIn numAudioOut : Z) (f : Callback) (k : nat) (s : St)
    : option St :=
  match fuel with
  | O => None
  | S fuel' =>
      if claimed_outputOffset numAudioOut k <? chans then
        match f (claimed_inputOffset chans numAudioIn k)
                (claimed_outputOffset numAudioOut k) s with
        | None => None
        | Some (false, s') => Some s'
        | Some (true, s') =>
            claimed_invocations_from fuel' chans numAudioIn numAudioOut f
              (S k) s'
        end
      else Some s
  end.

End Allocator.

(** Number of processors needed for [chans] channels. *)
Definition ceil_div (a b : Z) : Z := (a + b - 1) / b.

Definition offsets (chans numAudioIn numAudioOut : Z) : list (Z * Z) :=
  map (fun k => (inputOffset chans numAudioIn k, outputOffset numAudioOut k))
      (seq 0 (Z.to_nat (ceil_div chans numAudioOut))).

(** A callback that always succeeds and leaves its state alone. *)
Definition always {St : Type} : @Callback St := fun _ _ s => Some (true, s).

(** A callback built from a function that always returns. *)
Definition total {St : Type} (f : Z -> Z -> St -> bool * St) : @Callback St :=
  fun indx ondx s => Some (f indx ondx s).

(** Instrumentation: the same callback, which also notes the pair of offsets
    of each invocation. *)
Definition recording {St : Type} (f : @Callback St)
    : @Callback (list (Z * Z) * St) :=
  fun indx ondx '(seen, s) =>
    match f indx ondx s with
    | None => None
    | Some (ok, s') => Some (ok, (seen ++ [(indx, ondx)], s'))
    end.

(** The pairs of the claim, for an output arity of at least 1: there are
    ceil(chans / outputArity) output offsets below [chans]. *)
Definition claimed_offsets (chans numAudioIn numAudioOut : Z)
    : list (Z * Z) :=
  map (fun k => (claimed_inputOffset chans numAudioIn k,
                 claimed_outputOffset numAudioOut k))
      (seq 0 (Z.to_nat (ceil_div chans numAudioOut))).

(** Instrumentation: the same callback, which also notes each of its
    answers. *)
Definition answering {St : Type} (f : @Callback St)
    : @Callback (list bool * St) :=
  fun indx ondx '(answers, s) =>
    match f indx ondx s with
    | None => None
    | Some (ok, s') => Some (ok, (answers ++ [ok], s'))
    end.

End Allocator.
Import Allocator.

(** ** Audio buffers *)

(** A [float *]: null, or a position (counted in samples) in an allocated
    block. *)
Record Pointer := { block : nat; offset : Z }.
Abbreviation ptr := (option Pointer).

Definition advance (cnt : Z) (p : ptr) : ptr :=
  match p with
  | Some q => Some {| block := block q; offset := offset q + cnt |}
  | None => None
  end.

(** [first, first + n) of an array. *)
Definition slice {A} (l : list A) (first n : Z) : list A :=
  take (Z.to_nat n) (drop (Z.to_nat first) l).

(** [std::copy(src.begin(), src.end(), dst + pos)]. *)
Definition array_copy {A} (src dst : list A) (pos : Z) : list A :=
  take (Z.to_nat pos) dst ++ src
    ++ drop (Z.to_nat pos + length src)%nat dst.

(** [std::fill(a + first, a + last, v)]. *)
Definition array_fill {A} (a : list A) (first last : Z) (v : A) : list A :=
  take (Z.to_nat first) a ++ replicate (Z.to_nat (last - first)) v
    ++ drop (Z.to_nat last) a.

Definition sizeof_float : Z := 4.

(** ** Calls into the plugin (ghost) *)

Inductive Call :=
| CallCopySettingsContents
| CallMakeInstance
| CallSetBlockSize (size : Z)
| CallRealtimeInitialize (ok : bool)
| CallRealtimeAddProcessor (numChannels : Z) (ok : bool)
| CallRealtimeSuspend (ok : bool)
| CallRealtimeResume (ok : bool)
| CallRealtimeProcessStart (ok : bool)
| CallRealtimeProcess (processor cnt processed : Z)
| CallGetLatency (latency : Z)
| CallRealtimeFinalize (ok : bool).

Definition is_transition (c : Call) : bool :=
  match c with
  | CallRealtimeSuspend _ | CallRealtimeResume _ => true
  | _ => false
  end.

Definition is_add (c : Call) : bool :=
  match c with
  | CallRealtimeAddProcessor _ _ => true
  | _ => false
  end.

Definition is_accepted_add (c : Call) : bool :=
  match c with
  | CallRealtimeAddProcessor _ ok => ok
  | _ => false
  end.

Definition is_declined_add (c : Call) : bool :=
  match c with
  | CallRealtimeAddProcessor _ ok => negb ok
  | _ => false
  end.

(** The calls of an [AddTrack] traversal: accepted adds, and then at most
    one declined add. *)
Definition adds (numAudioIn : Z) (k : nat) (declined : bool) : list Call :=
  map (CallRealtimeAddProcessor numAudioIn)
      (replicate k true ++ (if declined then [false] else [])).

Definition is_latency_query (c : Call) : bool :=
  match c with
  | CallGetLatency _ => true
  | _ => false
  end.

Definition is_make (c : Call) : bool :=
  match c with
  | CallMakeInstance => true
  | _ => false
  end.

Definition is_initialize (c : Call) : bool :=
  match c with
  | CallRealtimeInitialize _ => true
  | _ => false
  end.

(** The processor and the frame count that a [RealtimeProcess] call asks
    for. *)
Definition request (c : Call) : option (Z * Z) :=
  match c with
  | CallRealtimeProcess processor cnt _ => Some (processor, cnt)
  | _ => None
  end.

(** Modelled from the spec: [limitSampleBufferSize] (SampleCount.h is not
    among the sources).  "Any amount covered by the outstanding latency
    budget is subtracted": the part of [bufferSize] that the budget [limit]
    covers, never negative. *)
Definition limitSampleBufferSize (bufferSize limit : Z) : Z :=
  Z.min bufferSize (Z.max 0 limit).

(** ** The double-buffer channel *)

(** Modelled from the spec: [MessageBuffer] (MessageBuffer.h is not among
    the sources), section 4.1: two storage cells, one of which is designated
    as current; [Write] fills the other cell and makes it current, [Read]
    hands the current cell to the reader.  Only what one thread sees is
    modelled. *)
Record MessageBuffer (Data : Type) := {
  cell0 : Data;
  cell1 : Data;
  current : bool
}.
Arguments cell0 {Data}.
Arguments cell1 {Data}.
Arguments current {Data}.

(** Modelled from the spec: [MessageBuffer::Write], "designates one of two
    storage cells as current and makes the new value visible to a subsequent
    Read"; the cell takes the value through its assignment operator. *)
Definition MessageBuffer_Write {Data Arg : Type}
    (assign : Data -> Arg -> Data) (arg : Arg) (b : MessageBuffer Data)
    : MessageBuffer Data :=
  if current b
  then {| cell0 := assign (cell0 b) arg; cell1 := cell1 b; current := false |}
  else {| cell0 := cell0 b; cell1 := assign (cell1 b) arg; current := true |}.

(** Modelled from the spec: [MessageBuffer::Read], "consumes the most
    recently completed write"; the reader is constructed from the cell. *)
Definition MessageBuffer_Read {Data Result : Type}
    (reader : Data -> Result) (b : MessageBuffer Data) : Result :=
  reader (if current b then cell1 b else cell0 b).

(** ** Data model *)

(** A track is known by its address. *)
Abbreviation Track := N.

Section Model.
(** The effect-specific content of settings, the remaining generic "extra"
    fields, the outputs object, the state of a processing instance, a sample
    and a sample rate are opaque to this code. *)
Context {Contents ExtraOther Outputs Inst Sample Rate : Type}.

(** Value of a default-constructed sample rate, as [mGroups[&track]] makes
    one for a track that was never added. *)
Context (zeroRate : Rate).

(** Modelled from the spec: [EffectSettings] and [EffectSettingsExtra]
    (EffectInterface.h is not among the sources): "an opaque value of
    effect-specific shape, plus an extra structured field that is generic
    across all effects, minimally [active: bool]".  The opaque value may be
    absent ([has_value]). *)
Record EffectSettingsExtra := { GetActive : bool; otherExtra : ExtraOther }.

Record EffectSettings := {
  value : option Contents;
  extra : EffectSettingsExtra
}.

Definition has_value (s : EffectSettings) : bool :=
  match value s with Some _ => true | None => false end.

(** Modelled from the spec: the revision counter (its type is declared in
    RealtimeEffectState.h, not among the sources) is "a strictly increasing
    revision id", an integer. *)
Record SettingsAndCounter := {
  settings : EffectSettings;
  counter : Z
}.

(** Modelled from the spec: [Response] (declared in RealtimeEffectState.h),
    the content of the slot from the worker: "{counter, outputs}". *)
Record Response := {
  response_counter : Z;
  pOutputs : option Outputs
}.

Record FromMainSlot := { mSettings : SettingsAndCounter }.
Record ToMainSlot := { mResponse : Response }.

Record AccessState := {
  mChannelFromMain : MessageBuffer FromMainSlot;
  mCounter : Z;
  mLastSettings : SettingsAndCounter;
  mChannelToMain : MessageBuffer ToMainSlot
}.

(** Modelled from the spec: the types of the members of
    [RealtimeEffectState] (RealtimeEffectState.h is not among the sources);
    the members are those that the functions of this file use.
    [mCurrentProcessor] is "a running processor index", [mGroups] holds per
    track "{firstProcessorIndex: integer, sampleRate: float}", [mLatency] is
    "an optional sample count".  [mPlugin] tells whether the factory pointer
    is set; [mwInstance] is what [mwInstance.lock()] yields: the state of
    the instance while somebody owns it, [None] once it has expired.
    [calls] is ghost. *)
Record RealtimeEffectState := {
  mPlugin : bool;
  mwInstance : option Inst;
  mMainSettings : SettingsAndCounter;
  mWorkerSettings : SettingsAndCounter;
  mOutputs : option Outputs;
  mMovedOutputs : option Outputs;
  mpAccessState : option AccessState;
  mCurrentProcessor : Z;
  mGroups : gmap Track (Z * Rate);
  mLatency : option Z;
  mLastActive : bool;
  mInitialized : bool;
  calls : list Call
}.

Definition set_mwInstance (v : option Inst) (st : RealtimeEffectState) :=
  {| mPlugin := mPlugin st; mwInstance := v;
     mMainSettings := mMainSettings st;
     mWorkerSettings := mWorkerSettings st; mOutputs := mOutputs st;
     mMovedOutputs := mMovedOutputs st; mpAccessState := mpAccessState st;
     mCurrentProcessor := mCurrentProcessor st; mGroups := mGroups st;
     mLatency := mLatency st; mLastActive := mLastActive st;
     mInitialized := mInitialized st; calls := calls st |}.

Definition set_mMainSettings (v : SettingsAndCounter)
    (st : RealtimeEffectState) :=
  {| mPlugin := mPlugin st; mwInstance := mwInstance st;
     mMainSettings := v;
     mWorkerSettings := mWorkerSettings st; mOutputs := mOutputs st;
     mMovedOutputs := mMovedOutputs st; mpAccessState := mpAccessState st;
     mCurrentProcessor := mCurrentProcessor st; mGroups := mGroups st;
     mLatency := mLatency st; mLastActive := mLastActive st;
     mInitialized := mInitialized st; calls := calls st |}.

Definition set_mWorkerSettings (v : SettingsAndCounter)
    (st : RealtimeEffectState) :=
  {| mPlugin := mPlugin st; mwInstance := mwInstance st;
     mMainSettings := mMainSettings st;
     mWorkerSettings := v; mOutputs := mOutputs st;
     mMovedOutputs := mMovedOutputs st; mpAccessState := mpAccessState st;
     mCurrentProcessor := mCurrentProcessor st; mGroups := mGroups st;
     mLatency := mLatency st; mLastActive := mLastActive st;
     mInitialized := mInitialized st; calls := calls st |}.

Definition set_mpAccessState (v : option AccessState)
    (st : RealtimeEffectState) :=
  {| mPlugin := mPlugin st; mwInstance := mwInstance st;
     mMainSettings := mMainSettings st;
     mWorkerSettings := mWorkerSettings st; mOutputs := mOutputs st;
     mMovedOutputs := mMovedOutputs st; mpAccessState := v;
     mCurrentProcessor := mCurrentProcessor st; mGroups := mGroups st;
     mLatency := mLatency st; mLastActive := mLastActive st;
     mInitialized := mInitialized st; calls := calls st |}.

Definition set_mCurrentProcessor (v : Z) (st : RealtimeEffectState) :=
  {| mPlugin := mPlugin st; mwInstance := mwInstance st;
     mMainSettings := mMainSettings st;
     mWorkerSettings := mWorkerSettings st; mOutputs := mOutputs st;
     mMovedOutputs := mMovedOutputs st; mpAccessState := mpAccessState st;
     mCurrentProcessor := v; mGroups := mGroups st;
     mLatency := mLatency st; mLastActive := mLastActive st;
     mInitialized := mInitialized st; calls := calls st |}.

Definition set_mGroups (v : gmap Track (Z * Rate))
    (st : RealtimeEffectState) :=
  {| mPlugin := mPlugin st; mwInstance := mwInstance st;
     mMainSettings := mMainSettings st;
     mWorkerSettings := mWorkerSettings st; mOutputs := mOutputs st;
     mMovedOutputs := mMovedOutputs st; mpAccessState := mpAccessState st;
     mCurrentProcessor := mCurrentProcessor st; mGroups := v;
     mLatency := mLatency st; mLastActive := mLastActive st;
     mInitialized := mInitialized st; calls := calls st |}.

Definition set_mLatency (v : option Z) (st : RealtimeEffectState) :=
  {| mPlugin := mPlugin st; mwInstance := mwInstance st;
     mMainSettings := mMainSettings st;
     mWorkerSettings := mWorkerSettings st; mOutputs := mOutputs st;
     mMovedOutputs := mMovedOutputs st; mpAccessState := mpAccessState st;
     mCurrentProcessor := mCurrentProcessor st; mGroups := mGroups st;
     mLatency := v; mLastActive := mLastActive st;
     mInitialized := mInitialized st; calls := calls st |}.

Definition set_mLastActive (v : bool) (st : RealtimeEffectState) :=
  {| mPlugin := mPlugin st; mwInstance := mwInstance st;
     mMainSettings := mMainSettings st;
     mWorkerSettings := mWorkerSettings st; mOutputs := mOutputs st;
     mMovedOutputs := mMovedOutputs st; mpAccessState := mpAccessState st;
     mCurrentProcessor := mCurrentProcessor st; mGroups := mGroups st;
     mLatency := mLatency st; mLastActive := v;
     mInitialized := mInitialized st; calls := calls st |}.

Definition set_mInitialized (v : bool) (st : RealtimeEffectState) :=
  {| mPlugin := mPlugin st; mwInstance := mwInstance st;
     mMainSettings := mMainSettings st;
     mWorkerSettings := mWorkerSettings st; mOutputs := mOutputs st;
     mMovedOutputs := mMovedOutputs st; mpAccessState := mpAccessState st;
     mCurrentProcessor := mCurrentProcessor st; mGroups := mGroups st;
     mLatency := mLatency st; mLastActive := mLastActive st;
     mInitialized := v; calls := calls st |}.

Definition set_calls (v : list Call) (st : RealtimeEffectState) :=
  {| mPlugin := mPlugin st; mwInstance := mwInstance st;
     mMainSettings := mMainSettings st;
     mWorkerSettings := mWorkerSettings st; mOutputs := mOutputs st;
     mMovedOutputs := mMovedOutputs st; mpAccessState := mpAccessState st;
     mCurrentProcessor := mCurrentProcessor st; mGroups := mGroups st;
     mLatency := mLatency st; mLastActive := mLastActive st;
     mInitialized := mInitialized st; calls := v |}.

Definition note (c : Call) (st : RealtimeEffectState) :=
  set_calls (calls st ++ [c]) st.

(** ** The plugin interfaces *)

(** Modelled from the spec: the interface [EffectInstanceFactory] of the
    plugin (EffectInterface.h is not among the sources), from the capability
    set of section 6: "copy settings content from one value into another",
    "construct a processing instance". *)
Class EffectInstanceFactory := {
  (** copy settings content from one value into another: source,
      destination, and the destination afterwards *)
  CopySettingsContents : EffectSettings -> EffectSettings -> EffectSettings;
  (** construct a processing instance (or fail) *)
  MakeInstance : option Inst
}.

(** The audio memory: the samples of each allocated block. *)
Abbreviation Memory := (gmap nat (list Sample)).

(** Modelled from the spec: the interface [EffectInstance] of a processing
    instance (its header is not among the sources), from the capability set
    of section 6; the operations are those that this file calls.  An
    operation takes the state of the instance and gives its next state with
    its answer; the queries leave the instance as it is. *)
Class EffectInstance := {
  GetAudioInCount : Inst -> Z;
  GetAudioOutCount : Inst -> Z;
  GetBlockSize : Inst -> Z;
  SetBlockSize : Z -> Inst -> Inst;
  RealtimeInitialize : EffectSettings -> Rate -> Inst -> bool * Inst;
  RealtimeAddProcessor :
    EffectSettings -> option Outputs -> Z -> Rate -> Inst -> bool * Inst;
  RealtimeSuspend : Inst -> bool * Inst;
  RealtimeResume : Inst -> bool * Inst;
  RealtimeProcessStart : EffectSettings -> Inst -> bool * Inst;
  (** processor index, settings, input pointers, output pointers, frame
      count; gives the frames produced *)
  RealtimeProcess :
    Z -> EffectSettings -> list ptr -> list ptr -> Z -> Inst -> Memory ->
    Z * (Inst * Memory);
  RealtimeFinalize : EffectSettings -> Inst -> bool * Inst;
  GetLatency : EffectSettings -> Rate -> Inst -> Z
}.

Context {factory : EffectInstanceFactory} {instance : EffectInstance}.

(** ** AccessState and the control-side handle *)

(** [FromMainSlot::operator=(SettingsAndCounter &&)]: the slot swaps the new
    content into place. *)
Definition FromMainSlot_assign (slot : FromMainSlot)
    (arg : SettingsAndCounter) : FromMainSlot :=
  {| mSettings := arg |}.

(** [FromMainSlot::Reader]: the worker's settings afterwards, and the calls
    made into the plugin. *)
Definition FromMainSlot_Reader (worker : SettingsAndCounter)
    (slot : FromMainSlot) : SettingsAndCounter * list Call :=
  if counter (mSettings slot) =? counter worker then (worker, [])
  else
    let copied :=
      CopySettingsContents (settings (mSettings slot)) (settings worker) in
    ({| settings := {| value := value copied;
                       extra := extra (settings (mSettings slot)) |};
        counter := counter (mSettings slot) |},
     [CallCopySettingsContents]).

Definition MainWrite (arg : SettingsAndCounter) (a : AccessState)
    : AccessState :=
  {| mChannelFromMain :=
       MessageBuffer_Write FromMainSlot_assign arg (mChannelFromMain a);
     mCounter := mCounter a;
     mLastSettings := mLastSettings a;
     mChannelToMain := mChannelToMain a |}.

(** [AccessState::WorkerRead], on the state [mState] it refers to. *)
Definition WorkerRead (a : AccessState) (st : RealtimeEffectState)
    : RealtimeEffectState :=
  let '(worker, made) :=
    MessageBuffer_Read (FromMainSlot_Reader (mWorkerSettings st))
      (mChannelFromMain a) in
  set_calls (calls st ++ made) (set_mWorkerSettings worker st).

(** What the worker finds in the channel from the main thread. *)
Definition pending (a : AccessState) : SettingsAndCounter :=
  MessageBuffer_Read mSettings (mChannelFromMain a).

(** The calls into the plugin made on the way from one state to a later
    one. *)
Definition made_since (before after : RealtimeEffectState) : list Call :=
  drop (length (calls before)) (calls after).

Definition GetAccessState (st : RealtimeEffectState) : option AccessState :=
  mpAccessState st.

Definition TestAccessState (st : RealtimeEffectState) : option AccessState :=
  mpAccessState st.

(** [Access::Set].  The handle holds a weak reference only; [mwState] is
    what [mwState.lock()] yields, [None] once the state is gone. *)
Definition Access_Set (mwState : option RealtimeEffectState)
    (newSettings : EffectSettings) : option RealtimeEffectState :=
  if negb (has_value newSettings) then mwState
  else
    match mwState with
    | Some pState =>
        match GetAccessState pState with
        | Some pAccessState =>
            let lastSettings :=
              {| settings := newSettings;
                 counter := counter (mLastSettings pAccessState) + 1 |} in
            let remembered :=
              {| mChannelFromMain := mChannelFromMain pAccessState;
                 mCounter := mCounter pAccessState;
                 mLastSettings := lastSettings;
                 mChannelToMain := mChannelToMain pAccessState |} in
            Some (set_mpAccessState
                    (Some (MainWrite lastSettings remembered)) pState)
        | None => Some pState
        end
    | None => None
    end.

(** ** The realtime lifecycle *)

Definition IsActive (st : RealtimeEffectState) : bool :=
  GetActive (extra (settings (mWorkerSettings st))).

(** [pInstance->op(...)] for an operation that answers [A]: the instance
    moves to its next state and the call is noted. *)
Definition invoke {A : Type} (op : Inst -> A * Inst) (what : A -> Call)
    (st : RealtimeEffectState) : option (A * RealtimeEffectState) :=
  match mwInstance st with
  | Some i =>
      let '(a, i') := op i in
      Some (a, note (what a) (set_mwInstance (Some i') st))
  | None => None
  end.

(** [EnsureInstance]; the answer tells whether the pointer returned is
    non-null (it then refers to the instance of [mwInstance]).  An instance
    that was made here has the local [pInstance] for its only owner: when
    the function returns null after that, the instance is destroyed and
    [mwInstance] has expired. *)
Definition EnsureInstance (sampleRate : Rate) (st : RealtimeEffectState)
    : bool * RealtimeEffectState :=
  if negb (mPlugin st) then (false, st)
  else if negb (mInitialized st) then
    let st := set_mWorkerSettings (mMainSettings st) st in
    let st := set_mLastActive (IsActive st) st in
    let recycled := bool_decide (is_Some (mwInstance st)) in
    let st :=
      match mwInstance st with
      | Some _ => st
      | None => note CallMakeInstance (set_mwInstance MakeInstance st)
      end in
    match mwInstance st with
    | None => (false, st)
    | Some i =>
        let st :=
          note (CallSetBlockSize 512)
               (set_mwInstance (Some (SetBlockSize 512 i)) st) in
        match invoke (RealtimeInitialize (settings (mMainSettings st))
                        sampleRate) CallRealtimeInitialize st with
        | Some (true, st) => (true, set_mInitialized true st)
        | Some (false, st) =>
            (false, if recycled then st else set_mwInstance None st)
        | None => (false, st)
        end
    end
  else
    match mwInstance st with
    | Some _ => (true, st)
    | None => (false, st)
    end.

Definition Initialize (sampleRate : Rate) (st : RealtimeEffectState)
    : bool * RealtimeEffectState :=
  if negb (mPlugin st) then (false, st)
  else
    let st := set_mCurrentProcessor 0 st in
    let st := set_mGroups ∅ st in
    let st := set_mLatency None st in
    EnsureInstance sampleRate st.

(** The callback of [AddTrack]: add a new processor. *)
Definition AddTrack_visit (numAudioIn : Z) (sampleRate : Rate)
    : @Callback RealtimeEffectState :=
  fun _ _ st =>
    match invoke (RealtimeAddProcessor (settings (mWorkerSettings st))
                    (mOutputs st) numAudioIn sampleRate)
                 (CallRealtimeAddProcessor numAudioIn) st with
    | Some (true, st) =>
        Some (true, set_mCurrentProcessor (mCurrentProcessor st + 1) st)
    | Some (false, st) => Some (false, st)
    | None => None
    end.

Definition AddTrack (fuel : nat) (track : Track) (chans : Z)
    (sampleRate : Rate) (st : RealtimeEffectState)
    : option (bool * RealtimeEffectState) :=
  let '(usable, st) := EnsureInstance sampleRate st in
  if negb usable then Some (false, st)
  else if negb (mPlugin st) then Some (false, st)
  else
    match mwInstance st with
    | None => None
    | Some pInstance =>
        let first := mCurrentProcessor st in
        let numAudioIn := GetAudioInCount pInstance in
        let numAudioOut := GetAudioOutCount pInstance in
        match AllocateChannelsToProcessors fuel chans numAudioIn numAudioOut
                (AddTrack_visit numAudioIn sampleRate) st with
        | None => None
        | Some st =>
            if first <? mCurrentProcessor st then
              Some (true,
                    set_mGroups (<[track := (first, sampleRate)]> (mGroups st))
                      st)
            else Some (false, st)
        end
    end.

(** The end of [ProcessStart], once the transition of activity is settled. *)
Definition ProcessStart_tail (active : bool) (st : RealtimeEffectState)
    : bool * RealtimeEffectState :=
  match mwInstance st with
  | None => (false, st)
  | Some _ =>
      if negb active then (false, st)
      else
        match invoke (RealtimeProcessStart (settings (mWorkerSettings st)))
                CallRealtimeProcessStart st with
        | Some r => r
        | None => (false, st)
        end
  end.

(** "Get state changes from the main thread": the first statement of
    [ProcessStart]. *)
Definition drain (st : RealtimeEffectState) : RealtimeEffectState :=
  match TestAccessState st with
  | Some pAccessState => WorkerRead pAccessState st
  | None => st
  end.

Definition ProcessStart (running : bool) (st : RealtimeEffectState)
    : bool * RealtimeEffectState :=
  let st := drain st in
  let active := IsActive st && running in
  if eqb active (mLastActive st) then ProcessStart_tail active st
  else
    match mwInstance st with
    | Some _ =>
        match (if active
               then invoke RealtimeResume CallRealtimeResume st
               else invoke RealtimeSuspend CallRealtimeSuspend st) with
        | Some (true, st) =>
            ProcessStart_tail active (set_mLastActive active st)
        | Some (false, st) => (false, st)
        | None => (false, st)
        end
    | None => ProcessStart_tail active (set_mLastActive active st)
    end.

Definition Finalize (st : RealtimeEffectState)
    : bool * RealtimeEffectState :=
  let st := set_mMainSettings (mWorkerSettings st) st in
  let st := set_mGroups ∅ st in
  let st := set_mCurrentProcessor 0 st in
  match invoke (RealtimeFinalize (settings (mMainSettings st)))
          CallRealtimeFinalize st with
  | None => (false, st)
  | Some (result, st) =>
      let st := set_mLatency None st in
      let st := set_mInitialized false st in
      (result, st)
  end.

(** ** Process *)

(** Reading and writing [n] samples at a pointer; [None] outside of the
    allocated block. *)
Definition load (m : Memory) (p : ptr) (n : Z) : option (list Sample) :=
  match p with
  | None => None
  | Some q =>
      match m !! block q with
      | None => None
      | Some data =>
          if (0 <=? offset q) && (0 <=? n)
             && (offset q + n <=? Z.of_nat (length data))
          then Some (slice data (offset q) n)
          else None
      end
  end.

Definition store (m : Memory) (p : ptr) (src : list Sample)
    : option Memory :=
  match p with
  | None => None
  | Some q =>
      match m !! block q with
      | None => None
      | Some data =>
          if (0 <=? offset q)
             && (offset q + Z.of_nat (length src) <=? Z.of_nat (length data))
          then Some (<[block q := array_copy src data (offset q)]> m)
          else None
      end
  end.

(** [memcpy(dst, src, nbytes)] between arrays of [float]. *)
Definition memcpy (dst src : ptr) (nbytes : Z) (m : Memory)
    : option Memory :=
  match load m src (nbytes / sizeof_float) with
  | Some data => store m dst data
  | None => None
  end.

(** The caller's part of the contract of [Process]: the first [chans]
    entries of both arrays point to [numSamples] allocated samples, and no
    output buffer shares its block with an input buffer or with another
    output buffer. *)
Definition buffers_allocated (m : Memory) (inbuf outbuf : list ptr)
    (chans : nat) (numSamples : Z) : Prop :=
  forall ii, (ii < chans)%nat ->
    exists src dst,
      inbuf !! ii = Some (Some src) /\ outbuf !! ii = Some (Some dst)
      /\ is_Some (load m (Some src) numSamples)
      /\ is_Some (load m (Some dst) numSamples).

Definition buffers_separate (inbuf outbuf : list ptr) (chans : nat) : Prop :=
  forall ii jj dst p, (ii < chans)%nat -> (jj < chans)%nat ->
    outbuf !! ii = Some (Some dst) ->
    (inbuf !! jj = Some (Some p) -> block dst <> block p)
    /\ (ii <> jj -> outbuf !! jj = Some (Some p) -> block dst <> block p).

(** The trivial processing: the loop over the channels [ii]. *)
Fixpoint copy_through (channels : list nat) (inbuf outbuf : list ptr)
    (numSamples : Z) (m : Memory) : option Memory :=
  match channels with
  | [] => Some m
  | ii :: rest =>
      match outbuf !! ii, inbuf !! ii with
      | Some dst, Some src =>
          match memcpy dst src (wrap64 (numSamples * sizeof_float)) m with
          | Some m => copy_through rest inbuf outbuf numSamples m
          | None => None
          end
      | _, _ => None
      end
  end.

(** What the callback of [Process] captures by reference. *)
Record ProcessFrame := {
  clientIn : list ptr;
  clientOut : list ptr;
  len : Z;
  processor : Z;
  this : RealtimeEffectState;
  memory : Memory
}.

(** "If there are too few input channels for what the processor requires,
    re-use input channels from the beginning": the [while] loop. *)
Fixpoint reuse_inputs (fuel : nat) (chans numAudioIn : Z)
    (inbuf : list ptr) (copied : Z) (client : list ptr)
    : option (list ptr) :=
  match fuel with
  | O => None
  | S fuel' =>
      let need := wrap32 (numAudioIn - copied) in
      if need =? 0 then Some client
      else
        let moreCopied := Z.min chans need in
        reuse_inputs fuel' chans numAudioIn inbuf
          (wrap32 (copied + moreCopied))
          (array_copy (slice inbuf 0 moreCopied) client copied)
  end.

(** The body of the inner loop: one block of [cnt] frames. *)
Definition process_block (ondx : Z) (rate : Rate) (cnt : Z)
    (fr : ProcessFrame) : option ProcessFrame :=
  let st := this fr in
  match mwInstance st with
  | None => None
  | Some i =>
      let '(processed, (i, m)) :=
        RealtimeProcess (processor fr) (settings (mWorkerSettings st))
          (clientIn fr) (clientOut fr) cnt i (memory fr) in
      let st :=
        note (CallRealtimeProcess (processor fr) cnt processed)
             (set_mwInstance (Some i) st) in
      let st :=
        match mLatency st with
        | Some _ => st
        | None =>
            let latency :=
              GetLatency (settings (mWorkerSettings st)) rate i in
            note (CallGetLatency latency) (set_mLatency (Some latency) st)
        end in
      let newIn := map (advance cnt) (clientIn fr) in
      let newOut := map (advance cnt) (clientOut fr) in
      let '(newLen, st) :=
        if ondx =? 0 then
          match mLatency st with
          | Some latency =>
              let len := wrap64 (len fr + processed) in
              let discard := limitSampleBufferSize len latency in
              (wrap64 (len - discard),
               set_mLatency (Some (latency - discard)) st)
          | None => (len fr, st)
          end
        else (len fr, st) in
      Some {| clientIn := newIn; clientOut := newOut; len := newLen;
              processor := processor fr; this := st; memory := m |}
  end.

(** Inner loop over blocks, entered with the current [block]. *)
Fixpoint process_blocks (fuel : nat) (ondx numSamples blockSize : Z)
    (rate : Rate) (block : Z) (fr : ProcessFrame) : option ProcessFrame :=
  match fuel with
  | O => None
  | S fuel' =>
      if block <? numSamples then
        let cnt := Z.min (wrap64 (numSamples - block)) blockSize in
        match process_block ondx rate cnt fr with
        | None => None
        | Some fr =>
            process_blocks fuel' ondx numSamples blockSize rate
              (wrap64 (block + blockSize)) fr
        end
      else Some fr
  end.

(** The callback of [Process]: one processor. *)
Definition Process_visit (fuel : nat) (chans numAudioIn numAudioOut : Z)
    (inbuf outbuf : list ptr) (numSamples : Z) (rate : Rate)
    : @Callback ProcessFrame :=
  fun indx ondx fr =>
    let copied := Z.min (wrap32 (chans - indx)) numAudioIn in
    let client := array_copy (slice inbuf indx copied) (clientIn fr) 0 in
    match reuse_inputs fuel chans numAudioIn inbuf copied client with
    | None => None
    | Some newIn =>
        let copied := Z.min (wrap32 (chans - ondx)) numAudioOut in
        let client := array_copy (slice outbuf ondx copied) (clientOut fr) 0 in
        let newOut :=
          if copied <? numAudioOut
          then array_fill client copied numAudioOut None
          else client in
        match mwInstance (this fr) with
        | None => None
        | Some pInstance =>
            let blockSize := GetBlockSize pInstance in
            match process_blocks fuel ondx numSamples blockSize rate 0
                    {| clientIn := newIn; clientOut := newOut;
                       len := len fr; processor := processor fr;
                       this := this fr; memory := memory fr |} with
            | None => None
            | Some fr =>
                Some (true,
                      {| clientIn := clientIn fr; clientOut := clientOut fr;
                         len := len fr; processor := processor fr + 1;
                         this := this fr; memory := memory fr |})
            end
        end
    end.

(** [mGroups[&track]]: the record of the track, made with default values
    when there is none. *)
Definition group_of (track : Track) (st : RealtimeEffectState) : Z * Rate :=
  match mGroups st !! track with
  | Some group => group
  | None => (0, zeroRate)
  end.

Definition touch_group (track : Track) (st : RealtimeEffectState)
    : RealtimeEffectState :=
  match mGroups st !! track with
  | Some _ => st
  | None => set_mGroups (<[track := (0, zeroRate)]> (mGroups st)) st
  end.

(** The frame in which the callback of [Process] starts. *)
Definition Process_frame (track : Track) (pInstance : Inst)
    (st : RealtimeEffectState) (m : Memory) : ProcessFrame :=
  {| clientIn := replicate (Z.to_nat (GetAudioInCount pInstance)) None;
     clientOut := replicate (Z.to_nat (GetAudioOutCount pInstance)) None;
     len := 0;
     processor := fst (group_of track st);
     this := touch_group track st;
     memory := m |}.

Definition Process (fuel : nat) (track : Track) (chans : Z)
    (inbuf outbuf : list ptr) (numSamples : Z)
    (st : RealtimeEffectState) (m : Memory)
    : option (Z * (RealtimeEffectState * Memory)) :=
  (* the instance, unless [!mPlugin || !pInstance || !mLastActive] *)
  match (if mPlugin st && mLastActive st then mwInstance st else None) with
  | None =>
      (* process trivially *)
      match copy_through (seq 0 (Z.to_nat chans)) inbuf outbuf numSamples m
      with
      | Some m => Some (0, (st, m))
      | None => None
      end
  | Some pInstance =>
      let numAudioIn := GetAudioInCount pInstance in
      let numAudioOut := GetAudioOutCount pInstance in
      match AllocateChannelsToProcessors fuel chans numAudioIn numAudioOut
              (Process_visit fuel chans numAudioIn numAudioOut inbuf outbuf
                 numSamples (snd (group_of track st)))
              (Process_frame track pInstance st m) with
      | None => None
      | Some fr => Some (wrap64 (numSamples - len fr), (this fr, memory fr))
      end
  end.

(** The state is usable and active: [Process] does not process
    trivially. *)
Definition engaged (st : RealtimeEffectState) : Prop :=
  mPlugin st = true /\ mLastActive st = true /\ is_Some (mwInstance st).


(** How often the latency was asked for. *)
Definition latency_queries (st : RealtimeEffectState) : nat :=
  length (filter is_latency_query (calls st)).



(** The arities and the block size that the instance declares are values
    of their types, and it has an output and a positive block size. *)
Definition well_sized : Prop :=
  forall i : Inst,
    0 <= GetAudioInCount i < 2 ^ 32
    /\ 1 <= GetAudioOutCount i < 2 ^ 32
    /\ 1 <= GetBlockSize i < 2 ^ 64.

(** A processing scope: [Process] called block after block. *)
Record ProcessCall := {
  call_track : Track;
  call_chans : Z;
  call_inbuf : list ptr;
  call_outbuf : list ptr;
  call_numSamples : Z
}.

Fixpoint Process_all (fuel : nat) (blocks : list ProcessCall)
    (st : RealtimeEffectState) (m : Memory)
    : option (list Z * (RealtimeEffectState * Memory)) :=
  match blocks with
  | [] => Some ([], (st, m))
  | c :: rest =>
      match Process fuel (call_track c) (call_chans c) (call_inbuf c)
              (call_outbuf c) (call_numSamples c) st m with
      | None => None
      | Some (discardable, (st, m)) =>
          match Process_all fuel rest st m with
          | None => None
          | Some (ds, w) => Some (discardable :: ds, w)
          end
      end
  end.








(** The allocator traversals of the two call sites, with the offsets they
    pass noted. *)
Definition AddTrack_traversal (fuel : nat) (chans : Z) (sampleRate : Rate)
    (pInstance : Inst) (st : RealtimeEffectState)
    : option (list (Z * Z) * RealtimeEffectState) :=
  let numAudioIn := GetAudioInCount pInstance in
  let numAudioOut := GetAudioOutCount pInstance in
  AllocateChannelsToProcessors fuel chans numAudioIn numAudioOut
    (recording (AddTrack_visit numAudioIn sampleRate)) ([], st).

Definition Process_traversal (fuel : nat) (track : Track) (chans : Z)
    (inbuf outbuf : list ptr) (numSamples : Z) (pInstance : Inst)
    (st : RealtimeEffectState) (m : Memory)
    : option (list (Z * Z) * ProcessFrame) :=
  let numAudioIn := GetAudioInCount pInstance in
  let numAudioOut := GetAudioOutCount pInstance in
  AllocateChannelsToProcessors fuel chans numAudioIn numAudioOut
    (recording (Process_visit fuel chans numAudioIn numAudioOut inbuf outbuf
                  numSamples (snd (group_of track st))))
    ([], Process_frame track pInstance st m).

End Model.

(** *** The buffers of one processor

    The two parts of the callback of [Process] that point the processor at
    its buffers, as [Process_visit] has them. *)

(** "Point at the correct input buffers", and the re-use of input channels
    from the beginning. *)
Definition client_inputs (fuel : nat) (chans numAudioIn : Z)
    (inbuf : list ptr) (indx : Z) (clientIn : list ptr)
    : option (list ptr) :=
  let copied := Z.min (wrap32 (chans - indx)) numAudioIn in
  reuse_inputs fuel chans numAudioIn inbuf copied
    (array_copy (slice inbuf indx copied) clientIn 0).

(** "Point at the correct output buffers", and "make determinate
    pointers". *)
Definition client_outputs (chans numAudioOut : Z) (outbuf : list ptr)
    (ondx : Z) (clientOut : list ptr) : list ptr :=
  let copied := Z.min (wrap32 (chans - ondx)) numAudioOut in
  let client := array_copy (slice outbuf ondx copied) clientOut 0 in
  if copied <? numAudioOut
  then array_fill client copied numAudioOut None
  else client.

(** *** The requests that [Process] makes *)

(** The frame counts of the blocks into which the inner loop cuts
    [numSamples] frames. *)
Definition chunks (numSamples blockSize : Z) : list Z :=
  map (fun b => Z.min (numSamples - Z.of_nat b * blockSize) blockSize)
      (seq 0 (Z.to_nat (ceil_div numSamples blockSize))).

(** The processors and frame counts of the [RealtimeProcess] calls among
    the calls made. *)
Definition requests (made : list Call) : list (Z * Z) := omap request made.

(** Processor after processor, from [first] on, each one asked for all the
    blocks in turn. *)
Definition expected_requests (first : Z) (processors : nat)
    (numSamples blockSize : Z) : list (Z * Z) :=
  flat_map (fun k => map (fun cnt => (first + Z.of_nat k, cnt))
                         (chunks numSamples blockSize))
           (seq 0 processors).

(** ** A plugin to run the model on

    An implementation of the interfaces that produces every frame it is
    asked for and leaves the audio alone.  Its configuration gives its
    arities, block size and latency and tells whether its suspend, resume
    and finalize hooks succeed; the state of an instance is the number of
    processors it will still accept. *)
Module Toy.

Record Config := {
  audioIn : Z;
  audioOut : Z;
  blockSize : Z;
  latency : Z;
  hooksSucceed : bool
}.

Abbreviation Inst := nat.

Definition accept (i : Inst) : bool * Inst :=
  match i with
  | O => (false, O)
  | S n => (true, n)
  end.

Definition instance (cfg : Config)
    : @EffectInstance unit unit unit Inst Z Z :=
  {| GetAudioInCount := fun _ => audioIn cfg;
     GetAudioOutCount := fun _ => audioOut cfg;
     GetBlockSize := fun _ => blockSize cfg;
     SetBlockSize := fun _ i => i;
     RealtimeInitialize := fun _ _ i => (true, i);
     RealtimeAddProcessor := fun _ _ _ _ i => accept i;
     RealtimeSuspend := fun i => (hooksSucceed cfg, i);
     RealtimeResume := fun i => (hooksSucceed cfg, i);
     RealtimeProcessStart := fun _ i => (true, i);
     RealtimeProcess := fun _ _ _ _ cnt i m => (cnt, (i, m));
     RealtimeFinalize := fun _ i => (hooksSucceed cfg, i);
     GetLatency := fun _ _ _ => latency cfg |}.

Definition factory : @EffectInstanceFactory unit unit Inst :=
  {| CopySettingsContents := fun src dst =>
       {| value := value src; extra := extra dst |};
     MakeInstance := None |}.

Definition State : Type := @RealtimeEffectState unit unit unit Inst Z.

Definition someSettings (active : bool) (revision : Z)
    : @SettingsAndCounter unit unit :=
  {| settings := {| value := Some tt;
                    extra := {| GetActive := active; otherExtra := tt |} |};
     counter := revision |}.

Definition noSettings : @EffectSettings unit unit :=
  {| value := None; extra := {| GetActive := true; otherExtra := tt |} |}.

(** One input, one output, blocks of 512 frames. *)
Definition mono (delay : Z) (hooks : bool) : Config :=
  {| audioIn := 1; audioOut := 1; blockSize := 512; latency := delay;
     hooksSucceed := hooks |}.

(** Two inputs, one output. *)
Definition mixer : Config :=
  {| audioIn := 2; audioOut := 1; blockSize := 512; latency := 0;
     hooksSucceed := true |}.

(** The access state after [Initialize] with the given settings, and after
    the main thread wrote a later revision. *)
Definition access (last : @SettingsAndCounter unit unit)
    : @AccessState unit unit unit :=
  {| mChannelFromMain :=
       {| cell0 := {| mSettings := someSettings true 0 |};
          cell1 := {| mSettings := last |};
          current := true |};
     mCounter := 0;
     mLastSettings := last;
     mChannelToMain :=
       {| cell0 := {| mResponse := {| response_counter := 0;
                                      pOutputs := None |} |};
          cell1 := {| mResponse := {| response_counter := 0;
                                      pOutputs := None |} |};
          current := true |} |}.

(** A state bound to the plugin, in the middle of a processing scope. *)
Definition playing (i : option Inst) (lastActive : bool)
    (delay : option Z) (a : option (@AccessState unit unit unit)) : State :=
  {| mPlugin := true; mwInstance := i;
     mMainSettings := someSettings true 0;
     mWorkerSettings := someSettings true 0;
     mOutputs := None; mMovedOutputs := None; mpAccessState := a;
     mCurrentProcessor := 0; mGroups := ∅; mLatency := delay;
     mLastActive := lastActive; mInitialized := true; calls := [] |}.

(** Pointers to the start of [n] blocks, from block [first] on. *)
Definition buffers (first n : nat) : list ptr :=
  map (fun b => Some {| block := b; offset := 0 |}) (seq first n).

(** Two input blocks of three samples, and two output blocks. *)
Definition audio : gmap nat (list Z) :=
  <[0%nat := [1; 2; 3]]> (<[1%nat := [4; 5; 6]]>
    (<[2%nat := [0; 0; 0]]> (<[3%nat := [0; 0; 0]]> ∅))).

(** Two blocks on track 7, of two channels: one frame, then three. *)
Definition twoBlocks : list ProcessCall :=
  [ {| call_track := 7%N; call_chans := 2; call_inbuf := buffers 0 2;
       call_outbuf := buffers 2 2; call_numSamples := 1 |};
    {| call_track := 7%N; call_chans := 2; call_inbuf := buffers 0 2;
       call_outbuf := buffers 2 2; call_numSamples := 3 |} ].



End Toy.

(** ** The rest of the file: identification, the way back from the worker,
      the control-side handle, the end of a block, persistence *)

(** [PluginID] and [wxString]: character strings. *)
Abbreviation PluginID := string.

(** Modelled from the spec: [MessageBuffer::Write] when the assignment of
    the cell consumes the value written (it is handed over as an rvalue):
    the other cell takes the value and becomes current; what is left of the
    value is given back. *)
Definition MessageBuffer_Write_moving {Data Arg : Type}
    (assign : Data -> Arg -> Data * Arg) (arg : Arg) (b : MessageBuffer Data)
    : MessageBuffer Data * Arg :=
  if current b
  then let '(d, arg) := assign (cell0 b) arg in
       ({| cell0 := d; cell1 := cell1 b; current := false |}, arg)
  else let '(d, arg) := assign (cell1 b) arg in
       ({| cell0 := cell0 b; cell1 := d; current := true |}, arg).

(** Modelled from the spec: [MessageBuffer::Read] when the reader consumes
    the current cell (it is handed over as an rvalue): the cell stays
    current, with what the reader left of it. *)
Definition MessageBuffer_Read_moving {Data Result : Type}
    (reader : Data -> Result * Data) (b : MessageBuffer Data)
    : Result * MessageBuffer Data :=
  if current b
  then let '(r, d) := reader (cell1 b) in
       (r, {| cell0 := cell0 b; cell1 := d; current := true |})
  else let '(r, d) := reader (cell0 b) in
       (r, {| cell0 := d; cell1 := cell1 b; current := false |}).

Section Exchange.
Context {Contents ExtraOther Outputs Inst Sample Rate : Type}.

Abbreviation State :=
  (@RealtimeEffectState Contents ExtraOther Outputs Inst Rate).
Abbreviation Settings := (@EffectSettings Contents ExtraOther).
Abbreviation Revision := (@SettingsAndCounter Contents ExtraOther).
Abbreviation Access := (@AccessState Contents ExtraOther Outputs).

(** A default-constructed [EffectSettingsExtra], as the empty settings that
    [Access::Get] hands out hold one. *)
Context (defaultExtra : @EffectSettingsExtra ExtraOther).

Definition set_mPlugin (v : bool) (st : State) : State :=
  {| mPlugin := v; mwInstance := mwInstance st;
     mMainSettings := mMainSettings st;
     mWorkerSettings := mWorkerSettings st; mOutputs := mOutputs st;
     mMovedOutputs := mMovedOutputs st; mpAccessState := mpAccessState st;
     mCurrentProcessor := mCurrentProcessor st; mGroups := mGroups st;
     mLatency := mLatency st; mLastActive := mLastActive st;
     mInitialized := mInitialized st; calls := calls st |}.

Definition set_mOutputs (v : option Outputs) (st : State) : State :=
  {| mPlugin := mPlugin st; mwInstance := mwInstance st;
     mMainSettings := mMainSettings st;
     mWorkerSettings := mWorkerSettings st; mOutputs := v;
     mMovedOutputs := mMovedOutputs st; mpAccessState := mpAccessState st;
     mCurrentProcessor := mCurrentProcessor st; mGroups := mGroups st;
     mLatency := mLatency st; mLastActive := mLastActive st;
     mInitialized := mInitialized st; calls := calls st |}.

Definition set_mMovedOutputs (v : option Outputs) (st : State) : State :=
  {| mPlugin := mPlugin st; mwInstance := mwInstance st;
     mMainSettings := mMainSettings st;
     mWorkerSettings := mWorkerSettings st; mOutputs := mOutputs st;
     mMovedOutputs := v; mpAccessState := mpAccessState st;
     mCurrentProcessor := mCurrentProcessor st; mGroups := mGroups st;
     mLatency := mLatency st; mLastActive := mLastActive st;
     mInitialized := mInitialized st; calls := calls st |}.

(** [EffectSettingsExtra::SetActive]. *)
Definition SetActive (active : bool) (e : @EffectSettingsExtra ExtraOther)
    : @EffectSettingsExtra ExtraOther :=
  {| GetActive := active; otherExtra := otherExtra e |}.

(** Modelled from the spec: the outputs object of the plugin
    (EffectInterface.h is not among the sources), section 6: "clone an
    outputs object"; the slot from the worker is "read [by merging] outputs
    into the control-held output copy", which is the member [Assign]: it
    updates the object from another one, handed over as an rvalue. *)
Class EffectOutputs := {
  Clone : Outputs -> Outputs;
  (** the source, the destination; gives the destination afterwards and what
      is left of the source *)
  Assign : Outputs -> Outputs -> Outputs * Outputs
}.

(** Modelled from the spec: the remaining capabilities of the plugin that
    this file uses (section 6): "construct default settings", "construct an
    outputs object" (an effect may have none), its version string, and the
    "generic key/value settings loader" and saver.  The parameters saved are
    the entries, name and value, in the order in which [GetFirstEntry] and
    [GetNextEntry] enumerate them; the loader is given the text from which
    the [CommandParameters] are made. *)
Class EffectSettingsManager := {
  MakeSettings : Settings;
  MakeOutputs : option Outputs;
  GetVersion : string;
  SaveSettings : Settings -> bool * list (string * string);
  LoadSettings : string -> Settings -> Settings
}.

(** Modelled from the spec: "plugin discovery" is an external collaborator.
    [EffectFactory::Call] tells whether an identifier resolves to the plugin
    (the one that the interfaces above describe); [PluginManager::GetID]
    gives the identifier of the plugin. *)
Class PluginRegistry := {
  EffectFactory_Call : PluginID -> bool;
  PluginManager_GetID : PluginID
}.

(** Modelled from the spec: the end-of-block hook of the instance,
    "realtime-process-end(settings) -> bool". *)
Class EffectInstanceEnd := {
  RealtimeProcessEnd : Settings -> Inst -> bool * Inst
}.

Context {factory : @EffectInstanceFactory Contents ExtraOther Inst}.
Context {instance :
  @EffectInstance Contents ExtraOther Outputs Inst Sample Rate}.
Context {outputs : EffectOutputs} {manager : EffectSettingsManager}.
Context {registry : PluginRegistry} {ending : EffectInstanceEnd}.

(** *** AccessState *)

(** [AccessState::Initialize], on the members [a] of the object.  The
    settings are passed by reference: their counter is reset.  [None]: the
    assertion of the precondition fails. *)
Definition AccessState_Initialize (arg : Revision)
    (pOutputs : option Outputs) (a : Access) : option (Revision * Access) :=
  if negb (has_value (settings arg)) then None
  else
    let arg := {| settings := settings arg; counter := 0 |} in
    let seed : @ToMainSlot Outputs :=
      {| mResponse := {| response_counter := 0;
                         pOutputs := Clone <$> pOutputs |} |} in
    let replace {Data : Type} (_ new : Data) := new in
    let toMain :=
      MessageBuffer_Write replace seed
        (MessageBuffer_Write replace seed (mChannelToMain a)) in
    let fromMain :=
      MessageBuffer_Write replace {| mSettings := arg |}
        (MessageBuffer_Write replace {| mSettings := arg |}
           (mChannelFromMain a)) in
    Some (arg,
          {| mChannelFromMain := fromMain; mCounter := mCounter a;
             mLastSettings := arg; mChannelToMain := toMain |}).

(** [ToMainSlot::Reader]: the main thread's outputs and the counter
    afterwards, and what is left of the slot. *)
Definition ToMainSlot_Reader (pMoved : option Outputs)
    (slot : @ToMainSlot Outputs)
    : (option Outputs * Z) * @ToMainSlot Outputs :=
  match pMoved, pOutputs (mResponse slot) with
  | Some dst, Some src =>
      let '(dst, src) := Assign src dst in
      ((Some dst, response_counter (mResponse slot)),
       {| mResponse :=
            {| response_counter := response_counter (mResponse slot);
               pOutputs := Some src |} |})
  | _, _ => ((pMoved, response_counter (mResponse slot)), slot)
  end.

(** [ToMainSlot::operator=(CounterAndOutputs &&)]: the slot afterwards, and
    what is left of the worker's outputs. *)
Definition ToMainSlot_assign (slot : @ToMainSlot Outputs)
    (arg : Z * option Outputs) : @ToMainSlot Outputs * (Z * option Outputs) :=
  match pOutputs (mResponse slot), snd arg with
  | Some dst, Some src =>
      let '(dst, src) := Assign src dst in
      ({| mResponse := {| response_counter := fst arg;
                          pOutputs := Some dst |} |},
       (fst arg, Some src))
  | _, _ =>
      ({| mResponse := {| response_counter := fst arg;
                          pOutputs := pOutputs (mResponse slot) |} |}, arg)
  end.

(** [AccessState::MainRead], on the state [mState] that the object [a]
    refers to (and is a member of). *)
Definition MainRead (a : Access) (st : State) : State :=
  let '((moved, counter), toMain) :=
    MessageBuffer_Read_moving (ToMainSlot_Reader (mMovedOutputs st))
      (mChannelToMain a) in
  set_mpAccessState
    (Some {| mChannelFromMain := mChannelFromMain a; mCounter := counter;
             mLastSettings := mLastSettings a; mChannelToMain := toMain |})
    (set_mMovedOutputs moved st).

(** [AccessState::WorkerWrite]. *)
Definition WorkerWrite (a : Access) (st : State) : State :=
  let '(toMain, (_, produced)) :=
    MessageBuffer_Write_moving ToMainSlot_assign
      (counter (mWorkerSettings st), mOutputs st) (mChannelToMain a) in
  set_mpAccessState
    (Some {| mChannelFromMain := mChannelFromMain a; mCounter := mCounter a;
             mLastSettings := mLastSettings a; mChannelToMain := toMain |})
    (set_mOutputs produced st).

(** What the main thread finds in the channel from the worker. *)
Definition echoed (a : Access) : Z :=
  MessageBuffer_Read (fun slot => response_counter (mResponse slot))
    (mChannelToMain a).

(** *** The control-side handle *)

(** [Access::FlushAttempt]: whether the worker has echoed the last write.
    [None]: the assertion of the precondition fails. *)
Definition FlushAttempt (a : Access) (st : State) : option (bool * State) :=
  if negb (mInitialized st) then None
  else
    let st := MainRead a st in
    match GetAccessState st with
    | Some a => Some (mCounter a =? counter (mLastSettings a), st)
    | None => None
    end.

(** The settings without a value that [Access::Get] hands out when there is
    nothing else. *)
Definition empty : Settings := {| value := None; extra := defaultExtra |}.

(** [Access::Get]; [mwState] is what [mwState.lock()] yields. *)
Definition Access_Get (mwState : option State)
    : Settings * option State :=
  match mwState with
  | Some pState =>
      match GetAccessState pState with
      | Some pAccessState =>
          let pState :=
            if mInitialized pState then
              match FlushAttempt pAccessState pState with
              | Some (_, st) => st
              | None => pState
              end
            else pState in
          match GetAccessState pState with
          | Some pAccessState =>
              (settings (mLastSettings pAccessState), Some pState)
          | None => (empty, Some pState)
          end
      | None => (empty, Some pState)
      end
  | None => (empty, None)
  end.

(** The loop of [Access::Flush].  While the main thread sleeps, the audio
    thread goes on: [audio n] is what it does to the state during the n-th
    sleep. *)
Fixpoint Flush_wait (fuel : nat) (audio : nat -> State -> State) (n : nat)
    (st : State) : option State :=
  match fuel with
  | O => None
  | S fuel' =>
      match GetAccessState st with
      | None => None
      | Some pAccessState =>
          match FlushAttempt pAccessState st with
          | None => None
          | Some (true, st) => Some st
          | Some (false, st) => Flush_wait fuel' audio (S n) (audio n st)
          end
      end
  end.

(** Modelled from the spec: [mMainSettings.Set] (declared in a header that
    is not among the sources) "publishes the last-known settings as the
    confirmed settings": an assignment. *)
Definition mMainSettings_Set (v : Revision) (st : State) : State :=
  set_mMainSettings v st.

(** [Access::Flush]; [None]: the fuel ran out while waiting. *)
Definition Access_Flush (fuel : nat) (audio : nat -> State -> State)
    (mwState : option State) : option (option State) :=
  match mwState with
  | Some pState =>
      match GetAccessState pState with
      | Some _ =>
          match (if mInitialized pState
                 then Flush_wait fuel audio 0 pState
                 else Some pState) with
          | None => None
          | Some pState =>
              match GetAccessState pState with
              | Some pAccessState =>
                  Some (Some (mMainSettings_Set (mLastSettings pAccessState)
                                pState))
              | None => None
              end
          end
      | None => Some (Some pState)
      end
  | None => Some None
  end.

(** *** Identification and construction *)

(** [GetEffect]; [mID], which it only reads, is passed. *)
Definition GetEffect (mID : PluginID) (st : State) : State :=
  if mPlugin st then st
  else if EffectFactory_Call mID then
    let wasActive := GetActive (extra (settings (mMainSettings st))) in
    let made := MakeSettings in
    let main :=
      {| settings := {| value := value made;
                        extra := SetActive wasActive (extra made) |};
         counter := 0 |} in
    set_mMovedOutputs MakeOutputs
      (set_mOutputs MakeOutputs
         (set_mMainSettings main (set_mPlugin true st)))
  else st.

(** [GetInstance]; the answer tells whether the pointer returned is
    non-null. *)
Definition GetInstance (st : State) : bool * State :=
  match mwInstance st with
  | Some _ => (true, st)
  | None =>
      if mPlugin st then
        let st := note CallMakeInstance (set_mwInstance MakeInstance st) in
        (bool_decide (is_Some (mwInstance st)), st)
      else (false, st)
  end.

Definition IsEnabled (st : State) : bool :=
  GetActive (extra (settings (mMainSettings st))).

(** [GetAccess].  [raw] holds the members of the new AccessState as their
    default initialization leaves them ([mCounter] has no initializer); the
    answer tells whether the handle made refers to the state, rather than
    being a dummy. *)
Definition GetAccess (mID : PluginID) (raw : Access) (st : State)
    : option (bool * State) :=
  let st := GetEffect mID st in
  if negb (mPlugin st) || negb (has_value (settings (mMainSettings st)))
  then Some (false, st)
  else
    match GetAccessState st with
    | Some _ => Some (true, st)
    | None =>
        match AccessState_Initialize (mMainSettings st) (mMovedOutputs st)
                raw with
        | Some (main, a) =>
            Some (true, set_mpAccessState (Some a) (set_mMainSettings main st))
        | None => None
        end
    end.

(** *** The end of a block *)

(** [ProcessEnd]: the answer, the answer of the end-of-block hook when it was
    invoked (ghost), and the state. *)
Definition ProcessEnd (st : State) : bool * option bool * State :=
  let '(result, hook, st) :=
    match mwInstance st with
    | Some pInstance =>
        if IsActive st && mLastActive st then
          let '(ok, i) :=
            RealtimeProcessEnd (settings (mWorkerSettings st)) pInstance in
          (ok, Some ok, set_mwInstance (Some i) st)
        else (false, None, st)
    | None => (false, None, st)
    end in
  match TestAccessState st with
  | Some pAccessState => (result, hook, WorkerWrite pAccessState st)
  | None => (result, hook, st)
  end.

(** What the audio thread does for one block without tracks. *)
Definition audio_block (running : bool) (st : State) : State :=
  snd (ProcessEnd (snd (ProcessStart running st))).

(** The members that the hooks of the instance leave alone. *)
Definition same_exchange (st st' : State) : Prop :=
  mpAccessState st' = mpAccessState st
  /\ mWorkerSettings st' = mWorkerSettings st
  /\ mMainSettings st' = mMainSettings st
  /\ mInitialized st' = mInitialized st
  /\ mPlugin st' = mPlugin st
  /\ mOutputs st' = mOutputs st
  /\ mMovedOutputs st' = mMovedOutputs st.

(** The AccessState is in order: the last-known settings have a value (the
    invariant that the source documents) and they are what the channel to
    the worker holds. *)
Definition in_order (a : Access) : Prop :=
  has_value (settings (mLastSettings a)) = true
  /\ pending a = mLastSettings a.

(** Both cells of the channel from the worker hold an outputs object, as
    [AccessState::Initialize] leaves them when the state has one. *)
Definition slots_hold_outputs (a : Access) : Prop :=
  is_Some (pOutputs (mResponse (cell0 (mChannelToMain a))))
  /\ is_Some (pOutputs (mResponse (cell1 (mChannelToMain a)))).

(** An initialized state whose instance has expired. *)
Definition expired (st : State) : Prop :=
  mInitialized st = true /\ mwInstance st = None.

(** *** The operations of the two threads

    The calls that the main thread makes through a handle that refers to
    the state, and the calls of the realtime lifecycle, one after the
    other. *)
Context (zeroRate : Rate).

Abbreviation Memory := (gmap nat (list Sample)).

Inductive Operation :=
| DoGetAccess (mID : PluginID) (raw : Access)
| DoSet (newSettings : Settings)
| DoGet
| DoFlush (fuel : nat) (running : nat -> bool)
| DoInitialize (sampleRate : Rate)
| DoAddTrack (fuel : nat) (track : Track) (chans : Z) (sampleRate : Rate)
| DoProcessStart (running : bool)
| DoProcess (fuel : nat) (track : Track) (chans : Z)
    (inbuf outbuf : list ptr) (numSamples : Z)
| DoProcessEnd
| DoFinalize.

(** [None]: the call does not return, or has no defined behaviour. *)
Definition perform (op : Operation) (w : State * Memory)
    : option (State * Memory) :=
  let '(st, m) := w in
  match op with
  | DoGetAccess mID raw =>
      match GetAccess mID raw st with
      | Some (_, st) => Some (st, m)
      | None => None
      end
  | DoSet newSettings =>
      match Access_Set (Some st) newSettings with
      | Some st => Some (st, m)
      | None => None
      end
  | DoGet =>
      match snd (Access_Get (Some st)) with
      | Some st => Some (st, m)
      | None => None
      end
  | DoFlush fuel running =>
      match Access_Flush fuel (fun n => audio_block (running n)) (Some st)
      with
      | Some (Some st) => Some (st, m)
      | _ => None
      end
  | DoInitialize sampleRate => Some (snd (Initialize sampleRate st), m)
  | DoAddTrack fuel track chans sampleRate =>
      match AddTrack fuel track chans sampleRate st with
      | Some (_, st) => Some (st, m)
      | None => None
      end
  | DoProcessStart running => Some (snd (ProcessStart running st), m)
  | DoProcess fuel track chans inbuf outbuf numSamples =>
      match Process zeroRate fuel track chans inbuf outbuf numSamples st m
      with
      | Some (_, w) => Some w
      | None => None
      end
  | DoProcessEnd => Some (snd (ProcessEnd st), m)
  | DoFinalize => Some (snd (Finalize st), m)
  end.

Fixpoint perform_all (ops : list Operation) (w : State * Memory)
    : option (State * Memory) :=
  match ops with
  | [] => Some w
  | op :: ops =>
      match perform op w with
      | Some w => perform_all ops w
      | None => None
      end
  end.

(** The AccessState, if there is one, keeps what the main thread put into
    it; none is made. *)
Definition access_kept (st st' : State) : Prop :=
  match mpAccessState st with
  | Some a =>
      exists a',
        mpAccessState st' = Some a'
        /\ mLastSettings a' = mLastSettings a
        /\ mChannelFromMain a' = mChannelFromMain a
  | None => mpAccessState st' = None
  end.

(** The operations that neither read the channel from the main thread nor
    publish settings. *)
Definition quiet (op : Operation) : bool :=
  match op with
  | DoInitialize _ | DoAddTrack _ _ _ _ | DoProcess _ _ _ _ _ _
  | DoProcessEnd | DoSet _ | DoGet => true
  | _ => false
  end.

End Exchange.

(** ** Identification and persistence *)

(** [wxString::empty]. *)
Definition is_empty (s : string) : bool :=
  match s with
  | EmptyString => true
  | _ => false
  end.

(** Modelled from the spec: the view of the value of an attribute that the
    external reader hands over (its class is declared in a header that is
    not among the sources): the value as a string, for the attributes [id],
    [name] and [value], and as a boolean, for [active]. *)
Record XMLAttributeValueView := { ToWString : string; Get_bool : bool }.

Abbreviation AttributesList := (list (string * XMLAttributeValueView)).

(** Modelled from the spec: the external serializer; what is written to it
    is the sequence of the calls made, a boolean or a string being written
    as the value of an attribute. *)
Inductive XMLWrite :=
| StartTag (name : string)
| WriteAttr_bool (name : string) (value : bool)
| WriteAttr_string (name : string) (value : string)
| EndTag (name : string).

Definition XMLTag : string := "effect".
Definition idAttribute : string := "id".
Definition versionAttribute : string := "version".
Definition parametersAttribute : string := "parameters".
Definition parameterAttribute : string := "parameter".
Definition nameAttribute : string := "name".
Definition valueAttribute : string := "value".
Definition activeAttribute : string := "active".

(** The double quote character. *)
Definition dquote : string := String (Ascii.ascii_of_nat 34) EmptyString.

(** [wxString::Format] with the format of [HandleXMLTag]: the name and the
    value joined by an equals sign, between double quotes, and a space. *)
Definition Format (n v : string) : string :=
  dquote +:+ n +:+ "=" +:+ v +:+ dquote +:+ " ".

(** Modelled from the spec: [CommandParameters::Read] with an empty default,
    on the entries in the order of their enumeration. *)
Fixpoint CommandParameters_Read (cmdParms : list (string * string))
    (name : string) : string :=
  match cmdParms with
  | [] => EmptyString
  | (n, v) :: rest =>
      if String.eqb n name then v else CommandParameters_Read rest name
  end.

Section Persistence.
Context {Contents ExtraOther Outputs Inst Rate : Type}.
Context {manager : @EffectSettingsManager Contents ExtraOther Outputs}.
Context {registry : PluginRegistry}.

Abbreviation State :=
  (@RealtimeEffectState Contents ExtraOther Outputs Inst Rate).

(** The object with the two members that identification and persistence use
    besides those of [RealtimeEffectState]. *)
Record Identified := {
  mID : PluginID;
  mParameters : string;
  members : State
}.

(** [SetID]; [None]: the assertion fails ("set mID to non-empty at most
    once"). *)
Definition SetID (id : PluginID) (s : Identified) : option Identified :=
  let empty := is_empty id in
  if is_empty (mID s) && negb empty then
    Some {| mID := id; mParameters := mParameters s;
            members := GetEffect id (members s) |}
  else if empty then Some s
  else None.

(** One attribute of the tag [effect]. *)
Definition effect_attribute (s : Identified)
    (a : string * XMLAttributeValueView) : option Identified :=
  let '(attr, view) := a in
  if String.eqb attr idAttribute then SetID (ToWString view) s
  else if String.eqb attr versionAttribute then Some s
  else if String.eqb attr activeAttribute then
    let st := members s in
    let main := mMainSettings st in
    Some {| mID := mID s; mParameters := mParameters s;
            members :=
              set_mMainSettings
                {| settings :=
                     {| value := value (settings main);
                        extra := SetActive (Get_bool view)
                                   (extra (settings main)) |};
                   counter := counter main |} st |}
  else Some s.

Fixpoint effect_attributes (attrs : AttributesList) (s : Identified)
    : option Identified :=
  match attrs with
  | [] => Some s
  | a :: attrs =>
      match effect_attribute s a with
      | Some s => effect_attributes attrs s
      | None => None
      end
  end.

(** One attribute of the tag [parameter]: the name and the value so far,
    and afterwards. *)
Definition parameter_attribute (nv : string * string)
    (a : string * XMLAttributeValueView) : string * string :=
  let '(attr, view) := a in
  if String.eqb attr nameAttribute then (ToWString view, snd nv)
  else if String.eqb attr valueAttribute then (fst nv, ToWString view)
  else nv.

(** [HandleXMLTag]; [None]: an assertion of [SetID] fails. *)
Definition HandleXMLTag (tag : string) (attrs : AttributesList)
    (s : Identified) : option (bool * Identified) :=
  if String.eqb tag XMLTag then
    let s := {| mID := EmptyString; mParameters := EmptyString;
                members := set_mPlugin false (members s) |} in
    match effect_attributes attrs s with
    | Some s => Some (true, s)
    | None => None
    end
  else if String.eqb tag parametersAttribute then Some (true, s)
  else if String.eqb tag parameterAttribute then
    let '(n, v) :=
      foldl parameter_attribute (EmptyString, EmptyString) attrs in
    Some (true, {| mID := mID s;
                   mParameters := mParameters s +:+ Format n v;
                   members := members s |})
  else Some (false, s).

Definition HandleXMLEndTag (tag : string) (s : Identified) : Identified :=
  if String.eqb tag XMLTag then
    let st := members s in
    let main := mMainSettings st in
    let st :=
      if mPlugin st && negb (is_empty (mParameters s)) then
        set_mMainSettings
          {| settings := LoadSettings (mParameters s) (settings main);
             counter := counter main |} st
      else st in
    {| mID := mID s; mParameters := EmptyString; members := st |}
  else s.

(** [WriteXML]: what is written to [xmlFile] is added to what it holds. *)
Definition WriteXML (s : Identified) (xmlFile : list XMLWrite)
    : list XMLWrite :=
  let st := members s in
  if negb (mPlugin st) then xmlFile
  else
    let active := GetActive (extra (settings (mMainSettings st))) in
    let '(saved, cmdParms) := SaveSettings (settings (mMainSettings st)) in
    xmlFile
    ++ [StartTag XMLTag; WriteAttr_bool activeAttribute active;
        WriteAttr_string idAttribute PluginManager_GetID;
        WriteAttr_string versionAttribute GetVersion]
    ++ (if saved then
          [StartTag parametersAttribute]
          ++ flat_map
               (fun entry =>
                  [StartTag parameterAttribute;
                   WriteAttr_string nameAttribute (fst entry);
                   WriteAttr_string valueAttribute
                     (CommandParameters_Read cmdParms (fst entry));
                   EndTag parameterAttribute]) cmdParms
          ++ [EndTag parametersAttribute]
        else [])
    ++ [EndTag XMLTag].

(** *** Reading back what was written

    Modelled from the spec: the tags are "consumed/produced by an external
    serializer" and "later replayed": the reader hands each tag that was
    started, with the attributes written to it, to [HandleXMLTag], and each
    tag that was ended to [HandleXMLEndTag], in the order of the writing (the
    state handles its child tags itself: [HandleXMLChild] answers [this]).
    How a written value is viewed by the reader is given by [view_of_bool]
    and [view_of_string]. *)
Context (view_of_bool : bool -> XMLAttributeValueView).
Context (view_of_string : string -> XMLAttributeValueView).

(** The tag that was started and its attributes so far, if any, is handed
    over. *)
Definition hand_over (started : option (string * AttributesList))
    (s : Identified) : option Identified :=
  match started with
  | Some (tag, attrs) =>
      match HandleXMLTag tag attrs s with
      | Some (_, s) => Some s
      | None => None
      end
  | None => Some s
  end.

Fixpoint replay (written : list XMLWrite)
    (started : option (string * AttributesList)) (s : Identified)
    : option Identified :=
  match written with
  | [] => hand_over started s
  | StartTag name :: written =>
      match hand_over started s with
      | Some s => replay written (Some (name, [])) s
      | None => None
      end
  | WriteAttr_bool name value :: written =>
      match started with
      | Some (tag, attrs) =>
          replay written (Some (tag, attrs ++ [(name, view_of_bool value)])) s
      | None => None
      end
  | WriteAttr_string name value :: written =>
      match started with
      | Some (tag, attrs) =>
          replay written
            (Some (tag, attrs ++ [(name, view_of_string value)])) s
      | None => None
      end
  | EndTag name :: written =>
      match hand_over started s with
      | Some s => replay written None (HandleXMLEndTag name s)
      | None => None
      end
  end.

(** What the attributes of a tag [effect] say: the identifiers that are not
    empty, and the last active flag. *)
Definition identifiers (attrs : AttributesList) : list PluginID :=
  filter (fun id => is_empty id = false)
    (map (fun a => ToWString (snd a))
       (filter (fun a => fst a = idAttribute) attrs)).

Definition last_active (attrs : AttributesList) : option bool :=
  last (map (fun a => Get_bool (snd a))
          (filter (fun a => fst a = activeAttribute) attrs)).

(** The identifiers that count: the one that the object has, if any, and
    those of the attributes. *)
Definition all_identifiers (s : Identified) (attrs : AttributesList)
    : list PluginID :=
  (if is_empty (mID s) then [] else [mID s]) ++ identifiers attrs.

(** The last string that the attributes give for a key, if any. *)
Definition last_string (key : string) (attrs : AttributesList)
    : option string :=
  last (map (fun a => ToWString (snd a))
          (filter (fun a => fst a = key) attrs)).

(** The text that [HandleXMLTag] gathers from the tags [parameter] of the
    entries, one after the other. *)
Definition gathered (cmdParms : list (string * string)) : string :=
  foldl (fun text entry =>
           text +:+ Format (fst entry)
                      (CommandParameters_Read cmdParms (fst entry)))
        EmptyString cmdParms.

(** The tags that were started, in their order. *)
Definition started_tags (written : list XMLWrite) : list string :=
  omap (fun w => match w with StartTag name => Some name | _ => None end)
       written.

(** The tags well nested: the tags that are open, innermost first. *)
Fixpoint well_nested (written : list XMLWrite) (open : list string) : bool :=
  match written with
  | [] => match open with [] => true | _ => false end
  | StartTag name :: written => well_nested written (name :: open)
  | WriteAttr_bool _ _ :: written | WriteAttr_string _ _ :: written =>
      well_nested written open
  | EndTag name :: written =>
      match open with
      | top :: open => String.eqb top name && well_nested written open
      | [] => false
      end
  end.

End Persistence.

(** ** The toy plugin, with the rest of its interfaces

    The toy plugin has no outputs worth the name; the meter has: its outputs
    object is the level it metered. *)
Module Meter.

(** Outputs of the toy plugin. *)
Definition noOutputs : @EffectOutputs unit :=
  {| Clone := fun o => o; Assign := fun src dst => (src, dst) |}.

(** The level metered: assignment from an rvalue takes the level of the
    source and leaves the source with the old level of the destination. *)
Definition levels : @EffectOutputs Z :=
  {| Clone := fun o => o; Assign := fun src dst => (src, dst) |}.

Definition manager : @EffectSettingsManager unit unit unit :=
  {| MakeSettings := settings (Toy.someSettings true 0);
     MakeOutputs := Some tt;
     GetVersion := "1.0";
     SaveSettings := fun _ => (true, [("gain", "3")]);
     LoadSettings := fun _ s => s |}.

(** One plugin is registered, under the identifier "toy". *)
Definition registry : PluginRegistry :=
  {| EffectFactory_Call := fun id => String.eqb id "toy";
     PluginManager_GetID := "toy" |}.

Definition ending : @EffectInstanceEnd unit unit Toy.Inst :=
  {| RealtimeProcessEnd := fun _ i => (true, i) |}.

Definition defaultExtra : @EffectSettingsExtra unit :=
  {| GetActive := true; otherExtra := tt |}.

(** A factory that makes instances accepting two processors. *)
Definition factory : @EffectInstanceFactory unit unit Toy.Inst :=
  {| CopySettingsContents := fun src dst =>
       {| value := value src; extra := extra dst |};
     MakeInstance := Some 2%nat |}.

(** A plugin that declares blocks of no frames. *)
Definition stuck : Toy.Config :=
  {| Toy.audioIn := 1; Toy.audioOut := 1; Toy.blockSize := 0;
     Toy.latency := 0; Toy.hooksSucceed := true |}.

(** A state bound to the plugin, before any processing scope. *)
Definition idle (a : option (@AccessState unit unit unit)) : Toy.State :=
  {| mPlugin := true; mwInstance := None;
     mMainSettings := Toy.someSettings true 0;
     mWorkerSettings := Toy.someSettings true 0;
     mOutputs := None; mMovedOutputs := None; mpAccessState := a;
     mCurrentProcessor := 0; mGroups := ∅; mLatency := None;
     mLastActive := false; mInitialized := false; calls := [] |}.

(** The access state of a meter whose two slots hold the level 0. *)
Definition metering : @AccessState unit unit Z :=
  {| mChannelFromMain :=
       {| cell0 := {| mSettings := Toy.someSettings true 0 |};
          cell1 := {| mSettings := Toy.someSettings true 0 |};
          current := true |};
     mCounter := 0;
     mLastSettings := Toy.someSettings true 0;
     mChannelToMain :=
       {| cell0 := {| mResponse := {| response_counter := 0;
                                      pOutputs := Some 0 |} |};
          cell1 := {| mResponse := {| response_counter := 0;
                                      pOutputs := Some 0 |} |};
          current := true |} |}.

(** A meter in the middle of a processing scope: the worker metered the
    level [produced]; the main thread knows the level [moved]. *)
Definition metered (produced moved : Z)
    : @RealtimeEffectState unit unit Z Toy.Inst Z :=
  {| mPlugin := true; mwInstance := Some 2%nat;
     mMainSettings := Toy.someSettings true 0;
     mWorkerSettings := Toy.someSettings true 0;
     mOutputs := Some produced; mMovedOutputs := Some moved;
     mpAccessState := Some metering;
     mCurrentProcessor := 0; mGroups := ∅; mLatency := None;
     mLastActive := true; mInitialized := true; calls := [] |}.

(** Attribute values as the XML reader hands them over. *)
Definition view_of_bool (b : bool) : XMLAttributeValueView :=
  {| ToWString := if b then "1" else "0"; Get_bool := b |}.

Definition view_of_string (x : string) : XMLAttributeValueView :=
  {| ToWString := x; Get_bool := false |}.

End Meter.

(** * Properties *)

(** ** Machine integers *)

Lemma wrap32_small z : 0 <= z < 2 ^ 32 -> wrap32 z = z.
Proof. intros H. unfold wrap32. now apply Z.mod_small. Qed.

Lemma wrap64_small z : 0 <= z < 2 ^ 64 -> wrap64 z = z.
Proof. intros H. unfold wrap64. now apply Z.mod_small. Qed.

Lemma wrap32_range z : 0 <= wrap32 z < 2 ^ 32.
Proof. unfold wrap32. apply Z.mod_pos_bound. lia. Qed.

Lemma ceil_div_bounds a b :
  0 <= a -> 1 <= b ->
  0 <= ceil_div a b /\ a <= ceil_div a b * b < a + b.
Proof.
  intros Ha Hb. unfold ceil_div.
  pose proof (Z.div_mod (a + b - 1) b ltac:(lia)) as Hdm.
  pose proof (Z.mod_pos_bound (a + b - 1) b ltac:(lia)) as Hm.
  split; [apply Z.div_pos; lia | nia].
Qed.

Lemma ceil_div_le a b : 0 <= a -> 1 <= b -> ceil_div a b <= a.
Proof.
  intros Ha Hb. destruct (ceil_div_bounds a b Ha Hb) as [H0 H1]. nia.
Qed.

(** ** The channel allocator *)

Section AllocatorFacts.
Context {St : Type}.
Implicit Types (f : @Callback St) (s : St).

Lemma outputOffset_succ numAudioOut k :
  wrap32 (outputOffset numAudioOut k + numAudioOut)
  = outputOffset numAudioOut (S k).
Proof.
  unfold outputOffset, wrap32. rewrite Z.add_mod_idemp_l by lia.
  f_equal. lia.
Qed.

Lemma alloc_from_invocations f chans numAudioIn numAudioOut fuel :
  forall k s,
    AllocateChannelsToProcessors_from fuel chans numAudioIn numAudioOut f
      (inputOffset chans numAudioIn k) (outputOffset numAudioOut k) s
    = invocations_from fuel chans numAudioIn numAudioOut f k s.
Proof.
  induction fuel as [|fuel IH]; intros k s; simpl; [reflexivity|].
  destruct (outputOffset numAudioOut k <? chans); [|reflexivity].
  destruct (f _ _ s) as [[[] s']|]; try reflexivity.
  rewrite outputOffset_succ. apply (IH (S k)).
Qed.

End AllocatorFacts.

Section AllocatorTermination.
Context {St : Type}.
Implicit Types (f : @Callback St) (s : St).

(** Within the range in which the output offset cannot wrap, the offsets
    visited are those of the list [offsets]. *)
Lemma invocations_visit f chans numAudioIn numAudioOut :
  0 <= chans -> 1 <= numAudioOut -> chans + numAudioOut <= 2 ^ 32 ->
  forall n k fuel s,
    (k + n = Z.to_nat (ceil_div chans numAudioOut))%nat ->
    (n < fuel)%nat ->
    invocations_from fuel chans numAudioIn numAudioOut f k s
    = visit f
        (map (fun k => (inputOffset chans numAudioIn k,
                        outputOffset numAudioOut k)) (seq k n)) s.
Proof.
  intros Hc Ho Hw.
  destruct (ceil_div_bounds chans numAudioOut Hc Ho) as [Hn0 Hn].
  induction n as [|n IH]; intros k fuel s Hk Hfuel;
    (destruct fuel as [|fuel]; [lia|]); simpl.
  - assert (Hoff : outputOffset numAudioOut k
                   = ceil_div chans numAudioOut * numAudioOut).
    { unfold outputOffset. rewrite wrap32_small; nia. }
    rewrite Hoff.
    destruct (Z.ltb_spec (ceil_div chans numAudioOut * numAudioOut) chans);
      [lia | reflexivity].
  - assert (Hoff : outputOffset numAudioOut k = Z.of_nat k * numAudioOut).
    { unfold outputOffset. rewrite wrap32_small; nia. }
    rewrite Hoff at 1.
    destruct (Z.ltb_spec (Z.of_nat k * numAudioOut) chans) as [_|Hge];
      [|nia].
    destruct (f _ _ s) as [[[] s']|]; try reflexivity.
    apply IH; lia.
Qed.

Lemma alloc_visit f fuel chans numAudioIn numAudioOut s :
  0 <= chans -> 1 <= numAudioOut -> chans + numAudioOut <= 2 ^ 32 ->
  (Z.to_nat (ceil_div chans numAudioOut) < fuel)%nat ->
  AllocateChannelsToProcessors fuel chans numAudioIn numAudioOut f s
  = visit f (offsets chans numAudioIn numAudioOut) s.
Proof.
  intros Hc Ho Hw Hfuel. unfold AllocateChannelsToProcessors.
  rewrite (alloc_from_invocations f chans numAudioIn numAudioOut fuel 0%nat).
  apply invocations_visit; auto.
Qed.

(** As long as nothing wraps, the offsets are those of the integers: the
    k-th output offset is k * outputArity and the k-th input offset is
    k * inputArity modulo chans. *)
Lemma offsets_without_wrap chans numAudioIn numAudioOut k :
  1 <= chans -> 0 <= numAudioIn -> chans + numAudioIn <= 2 ^ 32 ->
  0 <= Z.of_nat k * numAudioOut < 2 ^ 32 ->
  outputOffset numAudioOut k = Z.of_nat k * numAudioOut
  /\ inputOffset chans numAudioIn k = (Z.of_nat k * numAudioIn) mod chans.
Proof.
  intros Hc Hin Hw Hk. split; [now apply wrap32_small|]. clear Hk.
  induction k as [|k IH]; [reflexivity|]. cbn [inputOffset]. rewrite IH.
  pose proof (Z.mod_pos_bound (Z.of_nat k * numAudioIn) chans ltac:(lia)).
  rewrite wrap32_small by lia. rewrite Z.add_mod_idemp_l by lia.
  f_equal. lia.
Qed.

(** The offsets of the claim, in closed form and in range. *)
Lemma claimed_inputOffset_closed chans numAudioIn k :
  1 <= chans ->
  claimed_inputOffset chans numAudioIn k
  = (Z.of_nat k * numAudioIn) mod chans.
Proof.
  intros Hc. induction k as [|k IH]; [reflexivity|].
  cbn [claimed_inputOffset]. rewrite IH.
  rewrite Z.add_mod_idemp_l by lia. f_equal. lia.
Qed.

Lemma claimed_inputOffset_range chans numAudioIn k :
  1 <= chans -> 0 <= claimed_inputOffset chans numAudioIn k < chans.
Proof.
  intros Hc. destruct k as [|k]; cbn [claimed_inputOffset]; [lia|].
  apply Z.mod_pos_bound. lia.
Qed.

(** As long as neither offset can wrap, the loop of the source is the
    traversal of the claim. *)
Lemma alloc_from_claimed f chans numAudioIn numAudioOut fuel :
  0 <= numAudioIn -> 0 <= numAudioOut ->
  chans + numAudioIn <= 2 ^ 32 -> chans + numAudioOut <= 2 ^ 32 ->
  forall k s,
    AllocateChannelsToProcessors_from fuel chans numAudioIn numAudioOut f
      (claimed_inputOffset chans numAudioIn k)
      (claimed_outputOffset numAudioOut k) s
    = claimed_invocations_from fuel chans numAudioIn numAudioOut f k s.
Proof.
  intros Hin Hout Hwin Hwout.
  induction fuel as [|fuel IH]; intros k s; simpl; [reflexivity|].
  destruct (Z.ltb_spec (claimed_outputOffset numAudioOut k) chans)
    as [Hlt|]; [|reflexivity].
  destruct (f _ _ s) as [[[] s']|]; try reflexivity.
  unfold claimed_outputOffset in Hlt.
  assert (Hc : 1 <= chans) by nia.
  pose proof (claimed_inputOffset_range chans numAudioIn k Hc).
  rewrite (wrap32_small (claimed_inputOffset chans numAudioIn k
                         + numAudioIn)) by lia.
  replace (wrap32 (claimed_outputOffset numAudioOut k + numAudioOut))
    with (claimed_outputOffset numAudioOut (S k)).
  - apply (IH (S k)).
  - unfold claimed_outputOffset. rewrite wrap32_small; nia.
Qed.

Lemma offsets_claimed chans numAudioIn numAudioOut :
  0 <= chans -> 0 <= numAudioIn -> 1 <= numAudioOut ->
  chans + numAudioIn <= 2 ^ 32 -> chans + numAudioOut <= 2 ^ 32 ->
  offsets chans numAudioIn numAudioOut
  = claimed_offsets chans numAudioIn numAudioOut.
Proof.
  intros Hc Hin Hout Hwin Hwout. unfold offsets, claimed_offsets.
  destruct (ceil_div_bounds chans numAudioOut Hc Hout) as [Hn0 Hn].
  apply map_ext_in. intros k Hk. apply in_seq in Hk.
  assert (Hc1 : 1 <= chans) by nia.
  destruct (offsets_without_wrap chans numAudioIn numAudioOut k)
    as [-> ->]; try lia; [nia|].
  now rewrite claimed_inputOffset_closed.
Qed.

(** The answers noted along a list of pairs: every answer but the last is
    [true]; when the last one is [true] too, the whole list was visited. *)
Lemma visit_answers f l :
  forall seen answers s seen' answers' s',
    visit (recording (answering f)) l (seen, (answers, s))
    = Some (seen', (answers', s')) ->
    exists visited,
      seen' = seen ++ visited /\ visited `prefix_of` l
      /\ (answers' = answers ++ replicate (length visited) true
          /\ visited = l
          \/ exists n : nat,
               length visited = S n
               /\ answers' = answers ++ replicate n true ++ [false]).
Proof.
  induction l as [|[indx ondx] l IH]; intros seen answers s seen' answers' s';
    simpl.
  - intros [= <- <- <-]. exists []. rewrite !app_nil_r.
    split; [reflexivity|]. split; [apply prefix_nil|]. now left.
  - destruct (f indx ondx s) as [[[] s1]|]; [| |discriminate].
    + intros H. destruct (IH _ _ _ _ _ _ H) as [visited [-> [Hp Hans]]].
      exists ((indx, ondx) :: visited).
      split; [now rewrite <- app_assoc|].
      split; [now apply prefix_cons|].
      destruct Hans as [[-> ->]|[n [Hlen ->]]].
      * left. split; [|reflexivity]. now rewrite <- app_assoc.
      * right. exists (S n). split; [simpl; lia|].
        now rewrite <- app_assoc.
    + intros [= <- <- <-]. exists [(indx, ondx)].
      split; [reflexivity|]. split; [now exists l|].
      right. exists 0%nat. now split.
Qed.


Lemma length_offsets chans numAudioIn numAudioOut :
  0 <= chans -> 1 <= numAudioOut ->
  Z.of_nat (length (offsets chans numAudioIn numAudioOut))
  = ceil_div chans numAudioOut.
Proof.
  intros Hc Ho. unfold offsets. rewrite length_map, length_seq.
  pose proof (ceil_div_bounds chans numAudioOut Hc Ho). lia.
Qed.

Lemma visit_total (g : Z -> Z -> St -> bool * St) l :
  forall s, exists s', visit (total g) l s = Some s'.
Proof.
  induction l as [|[indx ondx] l IH]; intros s; simpl; [eauto|].
  unfold total at 1. destruct (g indx ondx s) as [[] s']; eauto.
Qed.

(** As long as the callback answers [true], every pair is noted. *)
Lemma visit_recording_true f l :
  (forall indx ondx s, exists s', f indx ondx s = Some (true, s')) ->
  forall seen s,
    exists s', visit (recording f) l (seen, s) = Some (seen ++ l, s').
Proof.
  intros Hf. induction l as [|[indx ondx] l IH]; intros seen s; simpl.
  - exists s. now rewrite app_nil_r.
  - destruct (Hf indx ondx s) as [s' ->].
    destruct (IH (seen ++ [(indx, ondx)]) s') as [s'' ->].
    exists s''. now rewrite <- app_assoc.
Qed.

(** What is noted is a prefix of the list visited, and noting changes
    nothing else. *)
Lemma visit_recording f l :
  forall seen s seen' s',
    visit (recording f) l (seen, s) = Some (seen', s') ->
    visit f l s = Some s' /\
    exists visited, seen' = seen ++ visited /\ visited `prefix_of` l.
Proof.
  induction l as [|[indx ondx] l IH]; intros seen s seen' s'; simpl.
  - intros [= <- <-]. split; [reflexivity|].
    exists []. split; [now rewrite app_nil_r | apply prefix_nil].
  - destruct (f indx ondx s) as [[[] s1]|]; [| |discriminate].
    + intros H. destruct (IH _ _ _ _ H) as [Hv [visited [-> Hp]]].
      split; [exact Hv|]. exists ((indx, ondx) :: visited).
      split; [now rewrite <- app_assoc | now apply prefix_cons].
    + intros [= <- <-]. split; [reflexivity|].
      exists [(indx, ondx)]. split; [reflexivity|].
      exists l. reflexivity.
Qed.


Lemma visit_recording_invariant f (P : St -> Prop) (Q : Z * Z -> Prop) l :
  (forall indx ondx s, Q (indx, ondx) -> P s ->
     exists s', f indx ondx s = Some (true, s') /\ P s') ->
  Forall Q l ->
  forall seen s, P s ->
    exists s', visit (recording f) l (seen, s) = Some (seen ++ l, s') /\ P s'.
Proof.
  intros Hf. induction 1 as [|[indx ondx] l Hq Hl IH]; intros seen s Hs;
    simpl.
  - exists s. now rewrite app_nil_r.
  - destruct (Hf indx ondx s Hq Hs) as [s1 [-> Hs1]].
    destruct (IH (seen ++ [(indx, ondx)]) s1 Hs1) as [s2 [-> Hs2]].
    exists s2. now rewrite <- app_assoc.
Qed.

(** With output arity 0 the output offset never advances. *)
Lemma alloc_from_zero_arity chans numAudioIn fuel :
  0 < chans ->
  forall indx s,
    AllocateChannelsToProcessors_from fuel chans numAudioIn 0 always indx 0 s
    = None.
Proof.
  intros Hc. induction fuel as [|fuel IH]; intros indx s; simpl;
    [reflexivity|].
  destruct (Z.ltb_spec 0 chans); [|lia]. apply IH.
Qed.

(** With 2^32 - 1 channels and output arity 2 the output offset wraps from
    2^32 - 2 to 0 and stays below the channel count for ever. *)
Lemma alloc_from_wrapping numAudioIn fuel :
  forall indx ondx s,
    0 <= ondx < 2 ^ 32 -> ondx mod 2 = 0 ->
    AllocateChannelsToProcessors_from fuel 4294967295 numAudioIn 2 always
      indx ondx s = None.
Proof.
  induction fuel as [|fuel IH]; intros indx ondx s Hr He; simpl;
    [reflexivity|].
  assert (Hlt : ondx < 4294967295).
  { pose proof (Z.div_mod ondx 2 ltac:(lia)). lia. }
  destruct (Z.ltb_spec ondx 4294967295); [|lia].
  apply IH; [apply wrap32_range|].
  unfold wrap32.
  destruct (Z.eq_dec ondx 4294967294) as [->|Hne]; [reflexivity|].
  rewrite (Z.mod_small (ondx + 2) (2 ^ 32)) by lia.
  rewrite <- Z.add_mod_idemp_l by lia. rewrite He. reflexivity.
Qed.

End AllocatorTermination.

(** C2 (amended). For every channel count and all arities for which
    neither offset can wrap (chans + inputArity <= 2^32 and
    chans + outputArity <= 2^32), the allocator is the traversal of the
    claim, whatever the callback and the fuel: it invokes its callback on
    the pairs in which the output offset takes the values 0, outputArity,
    2*outputArity, ... while it is below chans, and the input offset starts
    at 0 and advances after each invocation by the input arity, reduced
    modulo chans (it is (k * inputArity) mod chans at the k-th invocation);
    the first invocation that answers false ends the iteration.  In the
    trace of a call that returns, the pairs passed are a prefix of the pairs
    of the claim, every answer but the last one was true, and the prefix is
    the whole list unless the last answer was false. *)
Theorem alloc_follows_offsets_unless_wrapping {St : Type}
    (f : @Callback St) fuel chans numAudioIn numAudioOut (s : St) :
  0 <= chans -> 0 <= numAudioIn -> 0 <= numAudioOut ->
  chans + numAudioIn <= 2 ^ 32 -> chans + numAudioOut <= 2 ^ 32 ->
  AllocateChannelsToProcessors fuel chans numAudioIn numAudioOut f s
  = claimed_invocations_from fuel chans numAudioIn numAudioOut f 0%nat s
  /\ (forall k : nat, 1 <= chans ->
        claimed_inputOffset chans numAudioIn k
        = (Z.of_nat k * numAudioIn) mod chans)
  /\ (1 <= numAudioOut ->
      (Z.to_nat (ceil_div chans numAudioOut) < fuel)%nat ->
      forall seen answers s',
        AllocateChannelsToProcessors fuel chans numAudioIn numAudioOut
          (recording (answering f)) ([], ([], s))
        = Some (seen, (answers, s')) ->
        seen `prefix_of` claimed_offsets chans numAudioIn numAudioOut
        /\ (answers = replicate (length seen) true
            /\ seen = claimed_offsets chans numAudioIn numAudioOut
            \/ exists n : nat,
                 length seen = S n
                 /\ answers = replicate n true ++ [false])).
Proof.
  intros Hc Hin Hout Hwin Hwout. split; [|split].
  - unfold AllocateChannelsToProcessors.
    apply (alloc_from_claimed f chans numAudioIn numAudioOut fuel
             Hin Hout Hwin Hwout 0%nat).
  - intros k Hc1. now apply claimed_inputOffset_closed.
  - intros Hout1 Hfuel seen answers s' Hrun.
    rewrite alloc_visit in Hrun by assumption.
    rewrite offsets_claimed in Hrun by assumption.
    destruct (visit_answers f _ _ _ _ _ _ _ Hrun)
      as [visited [-> [Hp Hans]]].
    simpl. split; [exact Hp|]. exact Hans.
Qed.

(** C10, as stated, fails: with output arity 2 (at least 1) and 2^32 - 1
    channels the allocator does not terminate, whatever the fuel. *)
Lemma alloc_arity_two_never_returns :
  1 <= 2 /\
  ~ exists fuel : nat,
      is_Some (AllocateChannelsToProcessors fuel 4294967295 1 2
                 (@always unit) tt).
Proof.
  split; [lia|]. intros [fuel [s' H]].
  unfold AllocateChannelsToProcessors in H.
  rewrite alloc_from_wrapping in H; [discriminate | lia | reflexivity].
Qed.

(** C10 (amended). The allocator terminates for every channel count when the
    output arity is at least 1 and the output offset cannot wrap (chans +
    outputArity <= 2^32): any fuel above ceil(chans/outputArity) is enough,
    and when the callback never answers false it is invoked exactly
    ceil(chans/outputArity) times.  With output arity 0 and chans > 0 (and a
    callback that never answers false) it does not terminate. *)
Theorem alloc_terminates_unless_offset_stalls :
  (forall (St : Type) (g : Z -> Z -> St -> bool * St) (s : St)
          (chans numAudioIn numAudioOut : Z) (fuel : nat),
      0 <= chans -> 1 <= numAudioOut -> chans + numAudioOut <= 2 ^ 32 ->
      (Z.to_nat (ceil_div chans numAudioOut) < fuel)%nat ->
      (exists s',
          AllocateChannelsToProcessors fuel chans numAudioIn numAudioOut
            (total g) s = Some s') /\
      ((forall indx ondx s, fst (g indx ondx s) = true) ->
       exists seen s',
         AllocateChannelsToProcessors fuel chans numAudioIn numAudioOut
           (recording (total g)) ([], s) = Some (seen, s') /\
         Z.of_nat (length seen) = ceil_div chans numAudioOut)) /\
  (forall (St : Type) (s : St) (chans numAudioIn : Z) (fuel : nat),
      0 < chans ->
      AllocateChannelsToProcessors fuel chans numAudioIn 0 always s = None).
Proof.
  split.
  - intros St g s chans numAudioIn numAudioOut fuel Hc Ho Hw Hfuel. split.
    + rewrite alloc_visit by assumption. apply visit_total.
    + intros Htrue. rewrite alloc_visit by assumption.
      destruct (visit_recording_true (total g)
                  (offsets chans numAudioIn numAudioOut)) with (seen := @nil (Z * Z)) (s := s)
        as [s' Hs'].
      { intros indx ondx s0. unfold total. specialize (Htrue indx ondx s0).
        destruct (g indx ondx s0) as [b s1]. simpl in Htrue. subst b.
        eauto. }
      exists (offsets chans numAudioIn numAudioOut), s'. split; [exact Hs'|].
      now apply length_offsets.
  - intros St s chans numAudioIn fuel Hc.
    now apply alloc_from_zero_arity.
Qed.

Lemma alloc_terminates_unless_offset_stalls_witness :
  (exists s',
      AllocateChannelsToProcessors 4 3 2 1
        (total (fun _ _ (s : unit) => (true, s))) tt = Some s') /\
  AllocateChannelsToProcessors 7 3 2 0 always tt = None.
Proof.
  split.
  - apply (proj1 alloc_terminates_unless_offset_stalls unit
             (fun _ _ s => (true, s)) tt 3 2 1 4%nat);
      [lia | lia | lia | vm_compute; lia].
  - apply (proj2 alloc_terminates_unless_offset_stalls unit tt 3 2 7%nat).
    lia.
Defined.

(** C2, as stated, fails: with three channels and an input arity of
    2^32 - 2 (a value of [unsigned]) the sum 2 + (2^32 - 2) wraps to 0, and
    the third invocation gets the input offset 0, where the input offset of
    the claim, advanced by the input arity and reduced modulo 3, is 1. *)
Lemma alloc_input_offset_wraps :
  AllocateChannelsToProcessors 4 3 4294967294 1 (recording always) ([], tt)
  = Some ([(0, 0); (2, 1); (0, 2)], tt)
  /\ claimed_invocations_from 4 3 4294967294 1 (recording always) 0%nat
       ([], tt)
     = Some ([(0, 0); (2, 1); (1, 2)], tt).
Proof. split; vm_compute; reflexivity. Qed.

(** Three channels, two inputs and one output per processor, and a callback
    that declines at its second invocation. *)
Lemma alloc_follows_offsets_unless_wrapping_witness :
  AllocateChannelsToProcessors 4 3 2 1
    (total (fun _ ondx (s : unit) => (ondx <? 1, s))) tt
  = claimed_invocations_from 4 3 2 1
      (total (fun _ ondx (s : unit) => (ondx <? 1, s))) 0%nat tt
  /\ claimed_inputOffset 3 2 2 = 1
  /\ [(0, 0); (2, 1)] `prefix_of` claimed_offsets 3 2 1.
Proof.
  destruct (alloc_follows_offsets_unless_wrapping
              (total (fun _ ondx (s : unit) => (ondx <? 1, s))) 4 3 2 1 tt)
    as [Hrun [Hclosed Htrace]]; try lia.
  split; [exact Hrun|]. split; [exact (Hclosed 2%nat ltac:(lia))|].
  destruct (Htrace ltac:(lia) ltac:(vm_compute; lia)
              [(0, 0); (2, 1)] [true; false] tt eq_refl) as [Hprefix _].
  exact Hprefix.
Defined.

(** ** Settings exchange and lifecycle *)

Section LifecycleFacts.
Context {Contents ExtraOther Outputs Inst Sample Rate : Type}.
Context {factory : @EffectInstanceFactory Contents ExtraOther Inst}.
Context {instance : @EffectInstance Contents ExtraOther Outputs Inst Sample Rate}.

Abbreviation State := (@RealtimeEffectState Contents ExtraOther Outputs Inst Rate).
Abbreviation Access := (@AccessState Contents ExtraOther Outputs).

Implicit Types (st : State) (a : Access) (i : Inst).

Lemma made_since_app st st' made :
  calls st' = calls st ++ made -> made_since st st' = made.
Proof. intros H. unfold made_since. rewrite H. apply drop_app_length. Qed.

Lemma pending_MessageBuffer_Write
    (b : MessageBuffer (@FromMainSlot Contents ExtraOther)) arg :
  MessageBuffer_Read mSettings (MessageBuffer_Write FromMainSlot_assign arg b)
  = arg.
Proof. unfold MessageBuffer_Read, MessageBuffer_Write. now destruct (current b). Qed.

(** C4. [Set] of a settings object without a value is a no-op: the state,
    hence the last-known settings, the revision counter and the channel to
    the worker, is unchanged.  [Set] of an object with a value, through a
    live weak reference (to a state that has its AccessState: [GetAccess]
    makes a handle with a reference only after it emplaced the AccessState),
    makes the new settings the last-known ones, increases the revision
    counter by exactly 1 and writes a copy of the updated settings and
    counter into the channel, whose current cell then holds a value equal to
    the last-known copy; nothing else changes, and the last-known settings
    have a value afterwards. *)
Theorem Access_Set_remembers_and_writes st a
    (newSettings : @EffectSettings Contents ExtraOther) :
  mpAccessState st = Some a ->
  (has_value newSettings = false ->
   forall mwState : option State,
     Access_Set mwState newSettings = mwState) /\
  (has_value newSettings = true ->
   exists a',
     Access_Set (Some st) newSettings = Some (set_mpAccessState (Some a') st)
     /\ settings (mLastSettings a') = newSettings
     /\ counter (mLastSettings a') = counter (mLastSettings a) + 1
     /\ mChannelFromMain a'
        = MessageBuffer_Write FromMainSlot_assign (mLastSettings a')
            (mChannelFromMain a)
     /\ pending a' = mLastSettings a'
     /\ mCounter a' = mCounter a
     /\ mChannelToMain a' = mChannelToMain a
     /\ has_value (settings (mLastSettings a')) = true).
Proof.
  intros Ha. split.
  - intros Hv mwState. unfold Access_Set. now rewrite Hv.
  - intros Hv. unfold Access_Set, GetAccessState. rewrite Hv, Ha. simpl.
    eexists. split; [reflexivity|]. simpl.
    repeat split; try assumption.
    unfold pending. simpl. apply pending_MessageBuffer_Write.
Qed.

Lemma WorkerRead_unfold a st :
  WorkerRead a st
  = set_calls (calls st ++ snd (FromMainSlot_Reader (mWorkerSettings st)
                                  {| mSettings := pending a |}))
      (set_mWorkerSettings
         (fst (FromMainSlot_Reader (mWorkerSettings st)
                 {| mSettings := pending a |})) st).
Proof.
  unfold WorkerRead, pending, MessageBuffer_Read.
  destruct (current (mChannelFromMain a));
    [destruct (cell1 (mChannelFromMain a)) | destruct (cell0 (mChannelFromMain a))];
    simpl; now destruct (FromMainSlot_Reader _ _).
Qed.

(** C5. When the counter in the slot equals the counter of the worker,
    [WorkerRead] leaves the state as it is (the working settings, content
    and counter, are unchanged and the copy routine of the plugin is not
    called); when they differ, it copies the counter forward, takes the
    content from the copy routine of the plugin and assigns the extra field
    verbatim, calling the copy routine once.  Reading twice is reading
    once. *)
Theorem WorkerRead_copies_once a st :
  (counter (pending a) = counter (mWorkerSettings st) ->
   WorkerRead a st = st) /\
  (counter (pending a) <> counter (mWorkerSettings st) ->
   WorkerRead a st
   = set_calls (calls st ++ [CallCopySettingsContents])
       (set_mWorkerSettings
          {| settings :=
               {| value :=
                    value (CopySettingsContents (settings (pending a))
                             (settings (mWorkerSettings st)));
                  extra := extra (settings (pending a)) |};
             counter := counter (pending a) |} st)) /\
  WorkerRead a (WorkerRead a st) = WorkerRead a st.
Proof.
  assert (Hsame : forall st0,
             counter (pending a) = counter (mWorkerSettings st0) ->
             WorkerRead a st0 = st0).
  { intros st0 He. rewrite WorkerRead_unfold. unfold FromMainSlot_Reader.
    simpl. rewrite He, Z.eqb_refl. simpl. rewrite app_nil_r.
    now destruct st0. }
  split; [apply Hsame|]. split.
  - intros Hne. rewrite WorkerRead_unfold. unfold FromMainSlot_Reader.
    simpl. destruct (Z.eqb_spec (counter (pending a))
                       (counter (mWorkerSettings st))); [contradiction|].
    reflexivity.
  - apply Hsame. rewrite WorkerRead_unfold. unfold FromMainSlot_Reader.
    simpl. destruct (Z.eqb_spec (counter (pending a))
                       (counter (mWorkerSettings st))) as [He|Hne];
      simpl; [exact He | reflexivity].
Qed.

Lemma drain_keeps st :
  mwInstance (drain st) = mwInstance st
  /\ mLastActive (drain st) = mLastActive st
  /\ exists made, calls (drain st) = calls st ++ made
                  /\ filter is_transition made = [].
Proof.
  unfold drain, TestAccessState. destruct (mpAccessState st) as [a|].
  - rewrite WorkerRead_unfold. simpl. repeat split.
    eexists. split; [reflexivity|].
    unfold FromMainSlot_Reader. now destruct (_ =? _).
  - repeat split. exists []. now rewrite app_nil_r.
Qed.

(** The tail of [ProcessStart] calls no transition hook. *)
Lemma ProcessStart_tail_keeps active st :
  mLastActive (snd (ProcessStart_tail active st)) = mLastActive st
  /\ exists made,
       calls (snd (ProcessStart_tail active st)) = calls st ++ made
       /\ filter is_transition made = [].
Proof.
  unfold ProcessStart_tail, invoke.
  destruct (mwInstance st) as [i|]; simpl;
    [|split; [reflexivity | exists []; now rewrite app_nil_r]].
  destruct active; simpl;
    [|split; [reflexivity | exists []; now rewrite app_nil_r]].
  destruct (RealtimeProcessStart _ i) as [ok i']. simpl.
  split; [reflexivity|]. now exists [CallRealtimeProcessStart ok].
Qed.

(** A [ProcessStart] call on a state whose instance is alive, with [active]
    the activity computed from the worker's settings (after the channel was
    drained) and [running]. *)
Lemma ProcessStart_with_instance running st i :
  mwInstance st = Some i ->
  let active := IsActive (drain st) && running in
  let hook := if active then RealtimeResume i else RealtimeSuspend i in
  let result := fst (ProcessStart running st) in
  let st' := snd (ProcessStart running st) in
  let hooks := filter is_transition (made_since st st') in
  (hooks <> [] <-> active <> mLastActive st)
  /\ (active <> mLastActive st ->
      hooks = [if active then CallRealtimeResume (fst hook)
               else CallRealtimeSuspend (fst hook)]
      /\ (fst hook = false ->
          result = false /\ mLastActive st' = mLastActive st)
      /\ (fst hook = true -> mLastActive st' = active))
  /\ (active = mLastActive st -> mLastActive st' = mLastActive st).
Proof.
  intros Hi active hook result st' hooks.
  destruct (drain_keeps st) as [Hinst [Hlast [made0 [Hcalls Hnone]]]].
  rewrite Hi in Hinst.
  assert (Hcases :
    (active = mLastActive st /\ hooks = [] /\ mLastActive st' = mLastActive st)
    \/ (active <> mLastActive st
        /\ hooks = [if active then CallRealtimeResume (fst hook)
                    else CallRealtimeSuspend (fst hook)]
        /\ (fst hook = false ->
            result = false /\ mLastActive st' = mLastActive st)
        /\ (fst hook = true -> mLastActive st' = active))).
  { subst hooks result st'. unfold ProcessStart. fold active.
    rewrite Hlast, Hinst.
    destruct (eqb_spec active (mLastActive st)) as [He|Hne].
    - left. split; [exact He|].
      destruct (ProcessStart_tail_keeps active (drain st))
        as [Hl [made1 [Hc Hn]]].
      split; [|congruence].
      rewrite (made_since_app st _ (made0 ++ made1)).
      + rewrite filter_app, Hnone, Hn. reflexivity.
      + rewrite Hc, Hcalls. now rewrite app_assoc.
    - right. split; [exact Hne|]. subst hook.
      unfold invoke. rewrite Hinst.
      destruct active.
      + destruct (RealtimeResume i) as [[] i'] eqn:Hhook; simpl.
        * match goal with |- context [ProcessStart_tail true ?s] =>
            destruct (ProcessStart_tail_keeps true s)
              as [Hl [made1 [Hc Hn]]] end.
          split; [|split; [discriminate | intros _; now rewrite Hl]].
          rewrite (made_since_app st _
                     (made0 ++ [CallRealtimeResume true] ++ made1)).
          -- rewrite !filter_app, Hnone, Hn. reflexivity.
          -- rewrite Hc. simpl. rewrite Hcalls.
             now rewrite <- !app_assoc.
        * split; [|split; [intros _; split; [reflexivity | exact Hlast]
                          | discriminate]].
          rewrite (made_since_app st _ (made0 ++ [CallRealtimeResume false])).
          -- rewrite filter_app, Hnone. reflexivity.
          -- simpl. rewrite Hcalls. now rewrite <- app_assoc.
      + destruct (RealtimeSuspend i) as [[] i'] eqn:Hhook; simpl.
        * split; [|split; [discriminate | reflexivity]].
          rewrite (made_since_app st _ (made0 ++ [CallRealtimeSuspend true])).
          -- rewrite filter_app, Hnone. reflexivity.
          -- simpl. rewrite Hcalls. now rewrite <- app_assoc.
        * split; [|split; [intros _; split; [reflexivity | exact Hlast]
                          | discriminate]].
          rewrite (made_since_app st _ (made0 ++ [CallRealtimeSuspend false])).
          -- rewrite filter_app, Hnone. reflexivity.
          -- simpl. rewrite Hcalls. now rewrite <- app_assoc. }
  destruct Hcases as [[He [Hh Hl]]|[Hne [Hh Hrest]]].
  - split; [rewrite Hh; split; [congruence | intros Hd; contradiction]|].
    split; [intros Hd; contradiction | intros _; exact Hl].
  - split; [rewrite Hh; split; [intros _; exact Hne | destruct active; discriminate]|].
    split; [intros _; split; [exact Hh | exact Hrest] | intros He; contradiction].
Qed.

(** With an expired instance there is no hook to invoke: the recorded
    activity follows the computed one. *)
Lemma ProcessStart_without_instance running st :
  mwInstance st = None ->
  fst (ProcessStart running st) = false
  /\ mLastActive (snd (ProcessStart running st))
     = IsActive (drain st) && running
  /\ filter is_transition (made_since st (snd (ProcessStart running st)))
     = [].
Proof.
  intros Hi.
  destruct (drain_keeps st) as [Hinst [Hlast [made0 [Hcalls Hnone]]]].
  rewrite Hi in Hinst. unfold ProcessStart.
  rewrite Hinst.
  assert (Hb : forall active s, mwInstance s = None ->
                 ProcessStart_tail active s = (false, s)).
  { intros active s Hs. unfold ProcessStart_tail. now rewrite Hs. }
  destruct (eqb_spec (IsActive (drain st) && running)
              (mLastActive (drain st))) as [He|Hne].
  - rewrite Hb by exact Hinst. simpl. split; [reflexivity|].
    split; [now rewrite He|].
    now rewrite (made_since_app st _ made0).
  - rewrite Hb by exact Hinst. simpl. split; [reflexivity|].
    split; [reflexivity|].
    now rewrite (made_since_app st _ made0).
Qed.

(** C7 (amended). In every [ProcessStart] call, with [active] the activity
    computed from the worker's settings (after the channel was drained) and
    [running]: the suspend or resume hook of the instance is invoked if and
    only if an instance is alive and [active] differs from the recorded
    activity, and then once (resume to become active, suspend otherwise); if
    the hook fails, [ProcessStart] returns false and the recorded activity
    stays as it was; if it succeeds, the recorded activity becomes [active].
    With no live instance no hook is invoked, [ProcessStart] returns false
    and the recorded activity becomes [active]. *)
Theorem ProcessStart_transition running st :
  let active := IsActive (drain st) && running in
  let result := fst (ProcessStart running st) in
  let st' := snd (ProcessStart running st) in
  let hooks := filter is_transition (made_since st st') in
  (hooks <> [] <-> is_Some (mwInstance st) /\ active <> mLastActive st)
  /\ (forall i, mwInstance st = Some i -> active <> mLastActive st ->
        let hook := if active then RealtimeResume i else RealtimeSuspend i in
        hooks = [if active then CallRealtimeResume (fst hook)
                 else CallRealtimeSuspend (fst hook)]
        /\ (fst hook = false ->
            result = false /\ mLastActive st' = mLastActive st)
        /\ (fst hook = true -> mLastActive st' = active))
  /\ (mwInstance st = None -> result = false /\ mLastActive st' = active)
  /\ (active = mLastActive st -> mLastActive st' = mLastActive st).
Proof.
  intros active result st' hooks.
  destruct (mwInstance st) as [i|] eqn:Hi.
  - destruct (ProcessStart_with_instance running st i Hi)
      as [Hiff [Hdiffers Hsame]].
    fold active result st' hooks in Hiff, Hdiffers, Hsame.
    split; [|split; [|split]].
    + rewrite Hiff. split; [intros H; split; [eauto | exact H] | intros [_ H]; exact H].
    + intros j [= <-]. exact Hdiffers.
    + discriminate.
    + exact Hsame.
  - destruct (ProcessStart_without_instance running st Hi)
      as [Hresult [Hlast Hnone]].
    fold active result st' hooks in Hresult, Hlast, Hnone.
    split; [|split; [|split]].
    + rewrite Hnone. split; [intros H; now contradiction H|].
      intros [[j Hj] _]. discriminate.
    + discriminate.
    + intros _. split; [exact Hresult | exact Hlast].
    + intros He. rewrite Hlast. exact He.
Qed.

(** C9 (amended). Every [Finalize] call overwrites the control-side
    settings with the worker's last working settings, clears the per-track
    group map and resets the processor index to zero.  When an instance is
    alive, its realtime-finalize hook is invoked (once, with the control-side
    settings) and, whether it succeeds or fails, the latency and the
    initialized flag are cleared; the answer of the hook is the return
    value.  With no live instance no hook is invoked and [Finalize] returns
    false. *)
Theorem Finalize_resets st :
  let result := fst (Finalize st) in
  let st' := snd (Finalize st) in
  mMainSettings st' = mWorkerSettings st
  /\ mGroups st' = ∅
  /\ mCurrentProcessor st' = 0
  /\ (forall i, mwInstance st = Some i ->
        let hook := RealtimeFinalize (settings (mWorkerSettings st)) i in
        made_since st st' = [CallRealtimeFinalize (fst hook)]
        /\ result = fst hook
        /\ mwInstance st' = Some (snd hook)
        /\ mLatency st' = None
        /\ mInitialized st' = false)
  /\ (mwInstance st = None -> result = false /\ made_since st st' = []).
Proof.
  unfold Finalize, invoke. simpl.
  destruct (mwInstance st) as [i|] eqn:Hi; simpl.
  - destruct (RealtimeFinalize (settings (mWorkerSettings st)) i)
      as [ok i'] eqn:Hhook. simpl.
    do 3 (split; [reflexivity|]). split; [|discriminate].
    intros j [= <-]. rewrite Hhook. simpl.
    split; [apply (made_since_app st); reflexivity|]. now repeat split.
  - do 3 (split; [reflexivity|]). split; [discriminate|].
    intros _. split; [reflexivity|].
    apply (made_since_app st). simpl. now rewrite app_nil_r.
Qed.

(** *** AddTrack *)

Ltac keeps made :=
  simpl; split; [reflexivity|]; split; [reflexivity|];
  split;
  [ exists made; split;
    [simpl; rewrite <- ?app_assoc, ?app_nil_r; reflexivity | reflexivity]
  | first [discriminate | intros _; split; [eauto | assumption]] ].

Lemma EnsureInstance_keeps (sampleRate : Rate) st :
  let usable := fst (EnsureInstance sampleRate st) in
  let st1 := snd (EnsureInstance sampleRate st) in
  mCurrentProcessor st1 = mCurrentProcessor st
  /\ mGroups st1 = mGroups st
  /\ (exists made, calls st1 = calls st ++ made /\ filter is_add made = [])
  /\ (usable = true -> is_Some (mwInstance st1) /\ mPlugin st1 = true).
Proof.
  unfold EnsureInstance.
  destruct (mPlugin st) eqn:Hp; simpl; [|keeps (@nil Call)].
  destruct (mInitialized st) eqn:Hini; simpl.
  { destruct (mwInstance st) eqn:Hi; keeps (@nil Call). }
  destruct (mwInstance st) as [i|] eqn:Hi; simpl; rewrite ?Hi.
  - unfold invoke. simpl.
    match goal with |- context [RealtimeInitialize ?s ?r ?j] =>
      destruct (RealtimeInitialize s r j) as [[] i'] eqn:Hinit end.
    + keeps [CallSetBlockSize 512; CallRealtimeInitialize true].
    + keeps [CallSetBlockSize 512; CallRealtimeInitialize false].
  - destruct MakeInstance as [i|] eqn:Hmake; simpl.
    + unfold invoke. simpl.
      match goal with |- context [RealtimeInitialize ?s ?r ?j] =>
        destruct (RealtimeInitialize s r j) as [[] i'] eqn:Hinit end.
      * keeps [CallMakeInstance; CallSetBlockSize 512;
               CallRealtimeInitialize true].
      * keeps [CallMakeInstance; CallSetBlockSize 512;
               CallRealtimeInitialize false].
    + keeps [CallMakeInstance].
Qed.

Lemma EnsureInstance_keeps_latency (sampleRate : Rate) st :
  mLatency (snd (EnsureInstance sampleRate st)) = mLatency st.
Proof.
  unfold EnsureInstance.
  destruct (mPlugin st); simpl; [|reflexivity].
  destruct (mInitialized st); simpl; [now destruct (mwInstance st)|].
  destruct (mwInstance st) as [i|] eqn:Hi; simpl; rewrite ?Hi.
  - unfold invoke. simpl.
    match goal with |- context [RealtimeInitialize ?s ?r ?j] =>
      now destruct (RealtimeInitialize s r j) as [[] i'] end.
  - destruct MakeInstance as [i|]; simpl; [|reflexivity].
    unfold invoke. simpl.
    match goal with |- context [RealtimeInitialize ?s ?r ?j] =>
      now destruct (RealtimeInitialize s r j) as [[] i'] end.
Qed.

(** [Initialize] opens a scope: with a bound plugin, the latency is not
    known, no group is recorded and the processor index is zero. *)
Lemma Initialize_opens_scope (sampleRate : Rate) st :
  mPlugin st = true ->
  let st' := snd (Initialize sampleRate st) in
  mLatency st' = None /\ mGroups st' = ∅ /\ mCurrentProcessor st' = 0.
Proof.
  intros Hp. unfold Initialize. rewrite Hp. simpl.
  match goal with |- context [EnsureInstance sampleRate ?s] =>
    destruct (EnsureInstance_keeps sampleRate s) as [Hcp [Hg _]];
    pose proof (EnsureInstance_keeps_latency sampleRate s) as Hl end.
  simpl in *. auto.
Qed.


Lemma adds_accepted numAudioIn k declined :
  length (filter is_accepted_add (adds numAudioIn k declined)) = k.
Proof.
  unfold adds. induction k as [|k IH]; simpl.
  - now destruct declined.
  - now rewrite IH.
Qed.

Lemma adds_head_declined numAudioIn k declined n :
  head (adds numAudioIn k declined)
  = Some (CallRealtimeAddProcessor n false) -> k = 0%nat.
Proof. destruct k; [reflexivity|]. unfold adds. simpl. discriminate. Qed.

Lemma no_add_no_accepted (l : list Call) :
  filter is_add l = [] -> filter is_accepted_add l = [].
Proof.
  induction l as [|c l IH]; [reflexivity|].
  destruct c; simpl; try discriminate; auto.
Qed.

Lemma filter_is_add_adds numAudioIn k declined :
  filter is_add (adds numAudioIn k declined) = adds numAudioIn k declined.
Proof.
  unfold adds.
  induction (replicate k true ++ (if declined then [false] else []))
    as [|b l IH]; [reflexivity|].
  rewrite map_cons, filter_cons. simpl. now rewrite IH.
Qed.

Lemma visit_AddTrack numAudioIn (sampleRate : Rate) l :
  forall st, is_Some (mwInstance st) ->
    exists st' k declined,
      visit (AddTrack_visit numAudioIn sampleRate) l st = Some st'
      /\ is_Some (mwInstance st')
      /\ mCurrentProcessor st' = mCurrentProcessor st + Z.of_nat k
      /\ mGroups st' = mGroups st
      /\ calls st' = calls st ++ adds numAudioIn k declined
      /\ (k <= length l)%nat
      /\ (declined = false -> k = length l).
Proof.
  induction l as [|[indx ondx] l IH]; intros st [i Hi]; simpl.
  - exists st, 0%nat, false. unfold adds. simpl.
    rewrite app_nil_r, Z.add_0_r. eauto 10.
  - unfold AddTrack_visit at 1. unfold invoke. rewrite Hi.
    destruct (RealtimeAddProcessor _ _ numAudioIn sampleRate i)
      as [[] i'] eqn:Hadd.
    + match goal with |- context [visit _ l ?s] =>
        destruct (IH s) as [st' [k [d [Hv [Hs [Hcp [Hg [Hc [Hk Hd]]]]]]]]] end;
        [simpl; eauto|].
      exists st', (S k), d. simpl in *.
      split; [exact Hv|]. split; [exact Hs|].
      split; [lia|]. split; [exact Hg|].
      split; [rewrite Hc, <- app_assoc; reflexivity|].
      split; [lia | intros Hf; f_equal; auto].
    + eexists _, 0%nat, true. split; [reflexivity|]. simpl.
      rewrite Z.add_0_r. split; [eauto|]. repeat split; [lia | discriminate].
Qed.

(** C8 (amended). An [AddTrack] call (given enough fuel, within the range in
    which the allocator terminates) returns, and it succeeds and records the
    group {firstIndex, sampleRate} of the track exactly when at least one
    route was added; the processor index then stands at its value on entry
    plus the number of routes added.  When it fails, in particular when the
    first add is declined, the processor index is left at its value on entry
    and no group is recorded. *)
Theorem AddTrack_keeps_routes_added fuel (track : Track) chans
    (sampleRate : Rate) st :
  0 <= chans ->
  (forall i, 1 <= GetAudioOutCount i /\ chans + GetAudioOutCount i <= 2 ^ 32) ->
  (Z.to_nat chans < fuel)%nat ->
  exists result st',
    AddTrack fuel track chans sampleRate st = Some (result, st')
    /\ let made := made_since st st' in
       let added := Z.of_nat (length (filter is_accepted_add made)) in
       mCurrentProcessor st' = mCurrentProcessor st + added
       /\ (result = true <-> 0 < added)
       /\ (result = true ->
           mGroups st'
           = <[track := (mCurrentProcessor st, sampleRate)]> (mGroups st))
       /\ (result = false ->
           mCurrentProcessor st' = mCurrentProcessor st
           /\ mGroups st' = mGroups st)
       /\ (forall n,
             head (filter is_add made)
             = Some (CallRealtimeAddProcessor n false) ->
             result = false).
Proof.
  intros Hc Hout Hfuel. unfold AddTrack.
  destruct (EnsureInstance_keeps sampleRate st)
    as [Hcp [Hg [[made0 [Hcalls Hnone]] Husable]]].
  destruct (EnsureInstance sampleRate st) as [usable st1]. simpl in *.
  assert (Hfailed : forall st2 : State,
            mCurrentProcessor st2 = mCurrentProcessor st ->
            mGroups st2 = mGroups st ->
            calls st2 = calls st ++ made0 ->
            exists result st',
              Some (false, st2) = Some (result, st')
              /\ let made := made_since st st' in
                 let added :=
                   Z.of_nat (length (filter is_accepted_add made)) in
                 mCurrentProcessor st' = mCurrentProcessor st + added
                 /\ (result = true <-> 0 < added)
                 /\ (result = true ->
                     mGroups st'
                     = <[track := (mCurrentProcessor st, sampleRate)]>
                         (mGroups st))
                 /\ (result = false ->
                     mCurrentProcessor st' = mCurrentProcessor st
                     /\ mGroups st' = mGroups st)
                 /\ (forall n,
                       head (filter is_add made)
                       = Some (CallRealtimeAddProcessor n false) ->
                       result = false)).
  { intros st2 H1 H2 H3. exists false, st2. split; [reflexivity|]. simpl.
    rewrite (made_since_app st st2 made0 H3).
    rewrite (no_add_no_accepted _ Hnone). simpl.
    split; [lia|]. split; [split; [discriminate | lia]|].
    split; [discriminate|]. split; [auto | reflexivity]. }
  destruct usable; simpl; [|now apply Hfailed].
  destruct (Husable eq_refl) as [[i Hi] Hp]. rewrite Hp, Hi. simpl.
  destruct (Hout i) as [Ho Hw].
  rewrite alloc_visit; try assumption.
  2:{ pose proof (ceil_div_le chans (GetAudioOutCount i) Hc Ho).
      pose proof (ceil_div_bounds chans (GetAudioOutCount i) Hc Ho). lia. }
  destruct (visit_AddTrack (GetAudioInCount i) sampleRate
              (offsets chans (GetAudioInCount i) (GetAudioOutCount i)) st1)
    as [st2 [k [d [Hv [Hs [Hcp2 [Hg2 [Hc2 [Hk Hd]]]]]]]]]; [eauto|].
  rewrite Hv.
  assert (Hmade : forall st' : State,
            calls st' = calls st2 ->
            made_since st st' = made0 ++ adds (GetAudioInCount i) k d).
  { intros st' H. apply made_since_app.
    rewrite H, Hc2, Hcalls. now rewrite app_assoc. }
  assert (Hacc : forall st' : State,
            calls st' = calls st2 ->
            length (filter is_accepted_add (made_since st st')) = k).
  { intros st' H. rewrite (Hmade st' H), filter_app.
    rewrite (no_add_no_accepted _ Hnone). simpl. apply adds_accepted. }
  assert (Hhead : forall (st' : State) n,
            calls st' = calls st2 ->
            head (filter is_add (made_since st st'))
            = Some (CallRealtimeAddProcessor n false) -> k = 0%nat).
  { intros st' n H. rewrite (Hmade st' H), filter_app, Hnone. simpl.
    rewrite filter_is_add_adds. apply adds_head_declined. }
  destruct (Z.ltb_spec (mCurrentProcessor st1) (mCurrentProcessor st2))
    as [Hlt|Hge].
  - eexists true, _. split; [reflexivity|]. cbv zeta.
    rewrite Hacc by reflexivity. simpl mCurrentProcessor. simpl mGroups.
    split; [lia|]. split; [split; [lia | reflexivity]|].
    split; [intros _; now rewrite Hg2, Hg, Hcp|].
    split; [discriminate|].
    intros n Hn. apply Hhead in Hn; [lia | reflexivity].
  - exists false, st2. split; [reflexivity|]. cbv zeta.
    rewrite Hacc by reflexivity.
    split; [lia|]. split; [split; [discriminate | lia]|].
    split; [discriminate|]. split; [|reflexivity].
    intros _. split; [lia | congruence].
Qed.

End LifecycleFacts.

(** *** The lifecycle on the toy plugin *)

Lemma Access_Set_remembers_and_writes_witness :
  Access_Set (Some (Toy.playing (Some 2%nat) true None
                      (Some (Toy.access (Toy.someSettings true 3)))))
    Toy.noSettings
  = Some (Toy.playing (Some 2%nat) true None
            (Some (Toy.access (Toy.someSettings true 3))))
  /\ exists a',
       Access_Set (Some (Toy.playing (Some 2%nat) true None
                           (Some (Toy.access (Toy.someSettings true 3)))))
         (settings (Toy.someSettings false 0))
       = Some (Toy.playing (Some 2%nat) true None (Some a'))
       /\ mLastSettings a' = Toy.someSettings false 4
       /\ pending a' = Toy.someSettings false 4.
Proof.
  destruct (Access_Set_remembers_and_writes
              (Toy.playing (Some 2%nat) true None
                 (Some (Toy.access (Toy.someSettings true 3))))
              (Toy.access (Toy.someSettings true 3))
              Toy.noSettings eq_refl) as [Hno _].
  destruct (Access_Set_remembers_and_writes
              (Toy.playing (Some 2%nat) true None
                 (Some (Toy.access (Toy.someSettings true 3))))
              (Toy.access (Toy.someSettings true 3))
              (settings (Toy.someSettings false 0)) eq_refl) as [_ Hyes].
  split; [apply Hno; reflexivity|].
  destruct (Hyes eq_refl) as [a' [Hset [Hs [Hc [_ [Hp _]]]]]].
  exists a'. split; [exact Hset|].
  assert (Hlast : mLastSettings a' = Toy.someSettings false 4).
  { destruct (mLastSettings a') as [s c]. simpl in *. subst. reflexivity. }
  split; [exact Hlast | now rewrite Hp].
Defined.

Lemma WorkerRead_copies_once_witness :
  WorkerRead (factory := Toy.factory)
    (Toy.access (Toy.someSettings true 0))
    (Toy.playing (Some 2%nat) true None None)
  = Toy.playing (Some 2%nat) true None None
  /\ mWorkerSettings
       (WorkerRead (factory := Toy.factory)
          (Toy.access (Toy.someSettings false 3))
          (Toy.playing (Some 2%nat) true None None))
     = Toy.someSettings false 3.
Proof.
  split.
  - apply (proj1 (WorkerRead_copies_once (factory := Toy.factory)
                    (Toy.access (Toy.someSettings true 0))
                    (Toy.playing (Some 2%nat) true None None))).
    reflexivity.
  - rewrite (proj1 (proj2 (WorkerRead_copies_once (factory := Toy.factory)
                    (Toy.access (Toy.someSettings false 3))
                    (Toy.playing (Some 2%nat) true None None))));
      [reflexivity | discriminate].
Defined.

(** C7, as stated, fails: the computed activity differs from the recorded
    one, but the instance has expired; no hook is invoked and the recorded
    activity follows the computed one. *)
Lemma ProcessStart_without_instance_calls_no_hook :
  let st := Toy.playing None false None None in
  let st' :=
    snd (ProcessStart (factory := Toy.factory)
           (instance := Toy.instance (Toy.mono 0 true)) true st) in
  IsActive (drain (factory := Toy.factory) st) && true <> mLastActive st
  /\ filter is_transition (made_since st st') = []
  /\ mLastActive st' = true.
Proof. repeat split. discriminate. Qed.

(** A resume hook that fails: the block is skipped and the state still
    records that the effect is not active. *)
Lemma ProcessStart_transition_witness :
  fst (ProcessStart (factory := Toy.factory)
         (instance := Toy.instance (Toy.mono 0 false)) true
         (Toy.playing (Some 2%nat) false None None)) = false
  /\ mLastActive
       (snd (ProcessStart (factory := Toy.factory)
               (instance := Toy.instance (Toy.mono 0 false)) true
               (Toy.playing (Some 2%nat) false None None))) = false.
Proof.
  destruct (ProcessStart_transition (factory := Toy.factory)
              (instance := Toy.instance (Toy.mono 0 false)) true
              (Toy.playing (Some 2%nat) false None None))
    as [_ [Hdiffers _]].
  destruct (Hdiffers 2%nat eq_refl ltac:(discriminate)) as [_ [Hfails _]].
  exact (Hfails eq_refl).
Defined.

(** C9, as stated, fails: [Finalize] on an initialized state whose instance
    has expired leaves the initialized flag and the latency as they were. *)
Lemma Finalize_without_instance_stays_initialized :
  let st := Toy.playing None true (Some 5) None in
  let st' := snd (Finalize (instance := Toy.instance (Toy.mono 5 true)) st) in
  mInitialized st = true /\ mInitialized st' = true
  /\ mLatency st' = Some 5.
Proof. repeat split. Qed.

Lemma Finalize_resets_witness :
  mLatency
    (snd (Finalize (instance := Toy.instance (Toy.mono 5 false))
            (Toy.playing (Some 2%nat) true (Some 5) None))) = None
  /\ fst (Finalize (instance := Toy.instance (Toy.mono 5 false))
            (Toy.playing None true (Some 5) None)) = false.
Proof.
  destruct (Finalize_resets (instance := Toy.instance (Toy.mono 5 false))
              (Toy.playing (Some 2%nat) true (Some 5) None))
    as [_ [_ [_ [Halive _]]]].
  destruct (Finalize_resets (instance := Toy.instance (Toy.mono 5 false))
              (Toy.playing None true (Some 5) None))
    as [_ [_ [_ [_ Hdead]]]].
  split.
  - destruct (Halive 2%nat eq_refl) as [_ [_ [_ [Hl _]]]]. exact Hl.
  - destruct (Hdead eq_refl) as [Hr _]. exact Hr.
Defined.

(** C8, as stated, fails: the instance accepts one processor and declines
    the second; [AddTrack] succeeds, the processor index has moved and the
    group of the track is recorded. *)
Lemma AddTrack_partly_declined_succeeds :
  let st := Toy.playing (Some 1%nat) true None None in
  exists st',
    AddTrack (factory := Toy.factory)
      (instance := Toy.instance (Toy.mono 0 true)) 5 7%N 2 44100 st
    = Some (true, st')
    /\ made_since st st'
       = [CallRealtimeAddProcessor 1 true; CallRealtimeAddProcessor 1 false]
    /\ mCurrentProcessor st = 0 /\ mCurrentProcessor st' = 1
    /\ mGroups st !! 7%N = None
    /\ mGroups st' !! 7%N = Some (0, 44100).
Proof. eexists. repeat split. Qed.

Lemma AddTrack_keeps_routes_added_witness :
  exists result st',
    AddTrack (factory := Toy.factory)
      (instance := Toy.instance (Toy.mono 0 true)) 5 7%N 2 44100
      (Toy.playing (Some 0%nat) true None None) = Some (result, st')
    /\ (result = false -> mCurrentProcessor st' = 0 /\ mGroups st' = ∅).
Proof.
  destruct (AddTrack_keeps_routes_added (factory := Toy.factory)
              (instance := Toy.instance (Toy.mono 0 true)) 5 7%N 2 44100
              (Toy.playing (Some 0%nat) true None None))
    as [result [st' [Hrun [_ [_ [_ [Hfail _]]]]]]].
  - lia.
  - intros i. simpl. lia.
  - simpl. lia.
  - exists result, st'. split; [exact Hrun | exact Hfail].
Defined.

(** ** Process *)

Section MemoryFacts.
Context {Sample : Type}.
Implicit Types (m : gmap nat (list Sample)) (q : Pointer).

Lemma load_inv m q n data :
  load m (Some q) n = Some data ->
  exists whole,
    m !! block q = Some whole /\ 0 <= offset q /\ 0 <= n
    /\ offset q + n <= Z.of_nat (length whole)
    /\ data = slice whole (offset q) n.
Proof.
  unfold load. destruct (m !! block q) as [whole|]; [|discriminate].
  destruct (Z.leb_spec 0 (offset q)); [|discriminate].
  destruct (Z.leb_spec 0 n); [|discriminate].
  destruct (Z.leb_spec (offset q + n) (Z.of_nat (length whole)));
    [|discriminate].
  simpl. intros [= <-]. eauto 10.
Qed.

Lemma load_length m q n data :
  load m (Some q) n = Some data -> length data = Z.to_nat n.
Proof.
  intros H. destruct (load_inv _ _ _ _ H) as [whole [_ [H0 [Hn [Hb ->]]]]].
  unfold slice. rewrite length_take, length_drop. lia.
Qed.

Lemma store_inv m q src m' :
  store m (Some q) src = Some m' ->
  exists whole,
    m !! block q = Some whole /\ 0 <= offset q
    /\ offset q + Z.of_nat (length src) <= Z.of_nat (length whole)
    /\ m' = <[block q := array_copy src whole (offset q)]> m.
Proof.
  unfold store. destruct (m !! block q) as [whole|]; [|discriminate].
  destruct (Z.leb_spec 0 (offset q)); [|discriminate].
  destruct (Z.leb_spec (offset q + Z.of_nat (length src))
              (Z.of_nat (length whole))); [|discriminate].
  simpl. intros [= <-]. eauto 10.
Qed.

Lemma store_defined m q src n :
  is_Some (load m (Some q) n) -> length src = Z.to_nat n ->
  is_Some (store m (Some q) src).
Proof.
  intros [data H] Hlen.
  destruct (load_inv _ _ _ _ H) as [whole [Hw [H0 [Hn [Hb _]]]]].
  unfold store. rewrite Hw.
  destruct (Z.leb_spec 0 (offset q)); [|lia].
  destruct (Z.leb_spec (offset q + Z.of_nat (length src))
              (Z.of_nat (length whole))); [|lia].
  simpl. eauto.
Qed.

Lemma length_array_copy (src whole : list Sample) pos :
  0 <= pos -> pos + Z.of_nat (length src) <= Z.of_nat (length whole) ->
  length (array_copy src whole pos) = length whole.
Proof.
  intros H0 Hb. unfold array_copy.
  rewrite !length_app, length_take, length_drop. lia.
Qed.

Lemma slice_array_copy (src whole : list Sample) pos :
  0 <= pos -> pos + Z.of_nat (length src) <= Z.of_nat (length whole) ->
  slice (array_copy src whole pos) pos (Z.of_nat (length src)) = src.
Proof.
  intros H0 Hb. unfold slice, array_copy.
  rewrite drop_app_length' by (rewrite length_take; lia).
  rewrite Nat2Z.id. apply take_app_length.
Qed.

Lemma store_load m q src m' :
  store m (Some q) src = Some m' ->
  load m' (Some q) (Z.of_nat (length src)) = Some src.
Proof.
  intros H. destruct (store_inv _ _ _ _ H) as [whole [Hw [H0 [Hb ->]]]].
  unfold load. rewrite lookup_insert_eq.
  rewrite length_array_copy by assumption.
  destruct (Z.leb_spec 0 (offset q)); [|lia].
  destruct (Z.leb_spec 0 (Z.of_nat (length src))); [|lia].
  destruct (Z.leb_spec (offset q + Z.of_nat (length src))
              (Z.of_nat (length whole))); [|lia].
  simpl. f_equal. now apply slice_array_copy.
Qed.

Lemma store_other m q src m' q' n :
  store m (Some q) src = Some m' -> block q' <> block q ->
  load m' (Some q') n = load m (Some q') n.
Proof.
  intros H Hne. destruct (store_inv _ _ _ _ H) as [whole [_ [_ [_ ->]]]].
  unfold load. now rewrite lookup_insert_ne by congruence.
Qed.

(** [memcpy] of [n] floats between separate buffers. *)
Lemma memcpy_floats m dst src n data :
  n * sizeof_float < 2 ^ 64 ->
  load m (Some src) n = Some data ->
  is_Some (load m (Some dst) n) ->
  exists m',
    memcpy (Some dst) (Some src) (wrap64 (n * sizeof_float)) m = Some m'
    /\ load m' (Some dst) n = Some data
    /\ forall q k, block q <> block dst ->
         load m' (Some q) k = load m (Some q) k.
Proof.
  intros Hfit Hsrc Hdst.
  destruct (load_inv _ _ _ _ Hsrc) as [_ [_ [_ [Hn _]]]].
  pose proof (load_length _ _ _ _ Hsrc) as Hlen.
  unfold memcpy, sizeof_float in *.
  rewrite wrap64_small by lia. rewrite Z.div_mul by lia. rewrite Hsrc.
  destruct (store_defined m dst data n Hdst Hlen) as [m' Hm'].
  exists m'. split; [exact Hm'|]. split.
  - rewrite <- (store_load _ _ _ _ Hm'). f_equal. lia.
  - intros q k Hne. now apply (store_other _ _ _ _ _ _ Hm').
Qed.

Lemma copy_through_spec (inbuf outbuf : list ptr) chans numSamples m0 :
  numSamples * sizeof_float < 2 ^ 64 ->
  buffers_separate inbuf outbuf chans ->
  forall channels m,
    NoDup channels ->
    (forall ii, ii ∈ channels -> (ii < chans)%nat) ->
    (forall ii, ii ∈ channels ->
       exists src dst,
         inbuf !! ii = Some (Some src) /\ outbuf !! ii = Some (Some dst)
         /\ is_Some (load m0 (Some src) numSamples)
         /\ load m (Some src) numSamples = load m0 (Some src) numSamples
         /\ is_Some (load m (Some dst) numSamples)) ->
    exists m',
      copy_through channels inbuf outbuf numSamples m = Some m'
      /\ (forall ii src dst, ii ∈ channels ->
            inbuf !! ii = Some (Some src) -> outbuf !! ii = Some (Some dst) ->
            load m' (Some dst) numSamples = load m0 (Some src) numSamples)
      /\ (forall q k,
            (forall ii dst, ii ∈ channels ->
               outbuf !! ii = Some (Some dst) -> block q <> block dst) ->
            load m' (Some q) k = load m (Some q) k).
Proof.
  intros Hfit Hsep.
  induction channels as [|ii rest IH]; intros m Hnd Hlt Hbuf;
    cbn [copy_through].
  - exists m. split; [reflexivity|]. split; [|reflexivity].
    intros ii src dst Hin. now apply elem_of_nil in Hin.
  - destruct (Hbuf ii ltac:(left)) as [src [dst [Hi [Ho [Hs0 [Hs Hd]]]]]].
    rewrite Ho, Hi. destruct Hs0 as [data Hdata]. rewrite Hdata in Hs.
    destruct (memcpy_floats m dst src numSamples data Hfit Hs Hd)
      as [m1 [Hcopy [Hdst Hframe]]].
    rewrite Hcopy.
    apply NoDup_cons in Hnd. destruct Hnd as [Hnotin Hnd].
    assert (Hii : (ii < chans)%nat) by (apply Hlt; left).
    destruct (IH m1 Hnd) as [m' [Hrun [Hout Hrest]]].
    { intros jj Hjj. apply Hlt. now right. }
    { intros jj Hjj.
      destruct (Hbuf jj ltac:(now right)) as [s [d [Hji [Hjo [Hj0 [Hjs Hjd]]]]]].
      assert (Hjlt : (jj < chans)%nat) by (apply Hlt; now right).
      assert (Hne : ii <> jj) by (intros ->; contradiction).
      destruct (Hsep ii jj dst s Hii Hjlt Ho) as [Hin _].
      destruct (Hsep ii jj dst d Hii Hjlt Ho) as [_ Hother].
      exists s, d. split; [exact Hji|]. split; [exact Hjo|].
      split; [exact Hj0|]. split.
      - rewrite Hframe; [exact Hjs|]. intros E. apply (Hin Hji). congruence.
      - rewrite Hframe; [exact Hjd|]. intros E.
        apply (Hother Hne Hjo). congruence. }
    exists m'. split; [exact Hrun|]. split.
    + intros jj s d Hjj Hji Hjo.
      apply elem_of_cons in Hjj. destruct Hjj as [->|Hjj].
      * rewrite Hi in Hji. rewrite Ho in Hjo.
        injection Hji as <-. injection Hjo as <-.
        rewrite Hrest; [now rewrite Hdst|].
        intros kk dk Hkk Hko.
        assert (Hklt : (kk < chans)%nat) by (apply Hlt; now right).
        assert (Hne : ii <> kk) by (intros ->; contradiction).
        destruct (Hsep ii kk dst dk Hii Hklt Ho) as [_ Hother].
        now apply Hother.
      * now apply (Hout jj s d).
    + intros q k Hq. rewrite Hrest.
      * apply Hframe. apply (Hq ii dst); [left | exact Ho].
      * intros kk dk Hkk Hko. apply (Hq kk dk); [now right | exact Hko].
Qed.

End MemoryFacts.

Section ProcessFacts.
Context {Contents ExtraOther Outputs Inst Sample Rate : Type}.
Context (zeroRate : Rate).
Context {instance : @EffectInstance Contents ExtraOther Outputs Inst Sample Rate}.

Abbreviation State := (@RealtimeEffectState Contents ExtraOther Outputs Inst Rate).
Abbreviation Frame :=
  (@ProcessFrame Contents ExtraOther Outputs Inst Sample Rate).

Implicit Types (st : State) (fr : Frame) (i : Inst)
  (m : gmap nat (list Sample)).

(** C6. A [Process] call made while the state has no bound plugin, no live
    instance, or a false recorded activity flag returns 0 discardable
    samples, leaves the state as it is, and leaves in each of the [chans]
    output buffers the [numSamples] samples of the corresponding input
    buffer (which it does not change), for every channel count and block
    length; the caller provides, for each channel, allocated buffers of
    [numSamples] samples, the output buffers apart from each other and from
    the input buffers. *)
Theorem Process_passes_through fuel (track : Track) chans
    (inbuf outbuf : list ptr) numSamples st m :
  mPlugin st = false \/ mwInstance st = None \/ mLastActive st = false ->
  numSamples * sizeof_float < 2 ^ 64 ->
  buffers_allocated m inbuf outbuf (Z.to_nat chans) numSamples ->
  buffers_separate inbuf outbuf (Z.to_nat chans) ->
  exists m',
    Process zeroRate fuel track chans inbuf outbuf numSamples st m
    = Some (0, (st, m'))
    /\ forall ii src dst, (ii < Z.to_nat chans)%nat ->
         inbuf !! ii = Some (Some src) -> outbuf !! ii = Some (Some dst) ->
         load m' (Some dst) numSamples = load m (Some src) numSamples
         /\ load m' (Some src) numSamples = load m (Some src) numSamples.
Proof.
  intros Hidle Hfit Halloc Hsep. unfold Process.
  assert (Hnone : (if mPlugin st && mLastActive st then mwInstance st
                   else None) = None).
  { destruct Hidle as [->|[->| ->]]; [reflexivity | |].
    - now destruct (_ && _).
    - now rewrite andb_false_r. }
  rewrite Hnone.
  destruct (copy_through_spec inbuf outbuf (Z.to_nat chans) numSamples m
              Hfit Hsep (seq 0 (Z.to_nat chans)) m) as [m' [Hrun [Hout Hrest]]].
  - apply NoDup_seq.
  - intros ii Hin. apply elem_of_seq in Hin. lia.
  - intros ii Hin. apply elem_of_seq in Hin.
    destruct (Halloc ii ltac:(lia)) as [src [dst [Hi [Ho [Hs Hd]]]]].
    exists src, dst. auto 10.
  - rewrite Hrun. exists m'. split; [reflexivity|].
    intros ii src dst Hlt Hi Ho. split.
    + apply (Hout ii); [apply elem_of_seq; lia | exact Hi | exact Ho].
    + apply Hrest. intros kk dk Hkk Hko. apply elem_of_seq in Hkk.
      destruct (Hsep kk ii dk src ltac:(lia) Hlt Hko) as [Hin _].
      intros E. apply (Hin Hi). congruence.
Qed.

(** *** The loops of the active path *)

Lemma reuse_inputs_returns chans numAudioIn (inbuf : list ptr) :
  1 <= chans -> numAudioIn < 2 ^ 32 ->
  forall fuel copied client,
    0 <= copied <= numAudioIn ->
    (Z.to_nat (numAudioIn - copied) < fuel)%nat ->
    is_Some (reuse_inputs fuel chans numAudioIn inbuf copied client).
Proof.
  intros Hc Hin. induction fuel as [|fuel IH]; intros copied client Hr Hfuel;
    [lia|]. simpl.
  rewrite (wrap32_small (numAudioIn - copied)) by lia.
  destruct (Z.eqb_spec (numAudioIn - copied) 0); [eauto|].
  apply IH; rewrite wrap32_small by lia; lia.
Qed.

(** One block, whatever the instance does. *)
Lemma process_block_spec ondx (rate : Rate) cnt fr :
  engaged (this fr) ->
  exists fr' i processed i' m' latency,
    process_block ondx rate cnt fr = Some fr'
    /\ mwInstance (this fr) = Some i
    /\ RealtimeProcess (processor fr)
         (settings (mWorkerSettings (this fr))) (clientIn fr) (clientOut fr)
         cnt i (memory fr) = (processed, (i', m'))
    /\ latency
       = match mLatency (this fr) with
         | Some known => known
         | None =>
             GetLatency (settings (mWorkerSettings (this fr))) rate i'
         end
    /\ engaged (this fr')
    /\ mLatency (this fr')
       = Some (if ondx =? 0
               then latency
                    - limitSampleBufferSize (wrap64 (len fr + processed))
                        latency
               else latency)
    /\ len fr'
       = (if ondx =? 0
          then wrap64 (wrap64 (len fr + processed)
                       - limitSampleBufferSize (wrap64 (len fr + processed))
                           latency)
          else len fr)
    /\ latency_queries (this fr')
       = (latency_queries (this fr)
          + match mLatency (this fr) with Some _ => 0 | None => 1 end)%nat.
Proof.
  intros [Hp [Ha [i Hi]]]. unfold process_block. rewrite Hi.
  destruct (RealtimeProcess _ _ _ _ cnt i (memory fr))
    as [processed [i' m']] eqn:Hrun.
  unfold latency_queries.
  destruct (mLatency (this fr)) as [known|] eqn:Hl; simpl; rewrite Hl; simpl;
    destruct (ondx =? 0); simpl; rewrite ?Hl; simpl;
    (eexists _, i, processed, i', m', _;
     split; [reflexivity|]; split; [reflexivity|]; split; [exact Hrun|];
     split; [reflexivity|]; simpl; rewrite ?Hl;
     split; [unfold engaged; simpl; eauto|];
     split; [reflexivity|]; split; [reflexivity|];
     rewrite ?filter_app, ?length_app; simpl; lia).
Qed.

(** The inner loop keeps what each of its blocks keeps. *)
Lemma process_blocks_invariant (P : Z -> Frame -> Prop) ondx numSamples
    blockSize (rate : Rate) :
  0 <= numSamples <= 2 ^ 63 -> 1 <= blockSize < 2 ^ 64 ->
  (forall block fr, 0 <= block < numSamples -> P block fr ->
     exists fr',
       process_block ondx rate (Z.min (numSamples - block) blockSize) fr
       = Some fr' /\ P (block + blockSize) fr') ->
  forall fuel block fr,
    (Z.to_nat (numSamples - block) < fuel)%nat ->
    0 <= block -> block = 0 \/ blockSize <= block ->
    P block fr ->
    exists fr' block',
      process_blocks fuel ondx numSamples blockSize rate block fr = Some fr'
      /\ numSamples <= block' /\ block <= block' /\ P block' fr'.
Proof.
  intros Hn Hb Hstep.
  induction fuel as [|fuel IH]; intros block fr Hfuel H0 Hmul HP; [lia|].
  simpl. destruct (Z.ltb_spec block numSamples) as [Hlt|Hge].
  - rewrite (wrap64_small (numSamples - block)) by lia.
    destruct (Hstep block fr ltac:(lia) HP) as [fr1 [-> HP1]].
    rewrite (wrap64_small (block + blockSize)) by lia.
    destruct (IH (block + blockSize) fr1) as [fr' [block' [Hrun [H1 [H2 H3]]]]];
      try lia; try assumption.
    exists fr', block'. repeat split; try assumption; lia.
  - exists fr, block. repeat split; try assumption; lia.
Qed.

(** One processor keeps what each of its blocks keeps. *)
Lemma Process_visit_invariant (P : Z -> Z -> State -> Prop) fuel chans
    numAudioIn numAudioOut (inbuf outbuf : list ptr) numSamples
    (rate : Rate) ondx :
  well_sized -> 1 <= chans -> 0 <= numAudioIn < 2 ^ 32 ->
  0 <= numSamples <= 2 ^ 63 ->
  (Z.to_nat numAudioIn < fuel)%nat -> (Z.to_nat numSamples < fuel)%nat ->
  (forall block l st, P block l st -> engaged st) ->
  (forall blockSize block fr,
     1 <= blockSize -> 0 <= block < numSamples ->
     P block (len fr) (this fr) ->
     exists fr',
       process_block ondx rate (Z.min (numSamples - block) blockSize) fr
       = Some fr' /\ P (block + blockSize) (len fr') (this fr')) ->
  forall indx fr,
    P 0 (len fr) (this fr) ->
    exists fr' block',
      Process_visit fuel chans numAudioIn numAudioOut inbuf outbuf
        numSamples rate indx ondx fr = Some (true, fr')
      /\ numSamples <= block' /\ 0 <= block'
      /\ P block' (len fr') (this fr').
Proof.
  intros Hsized Hc Hin Hn Hfin Hfn Heng Hstep indx fr HP.
  unfold Process_visit.
  match goal with |- context [reuse_inputs fuel chans numAudioIn inbuf ?c ?l] =>
    destruct (reuse_inputs_returns chans numAudioIn inbuf Hc (proj2 Hin)
                fuel c l) as [newIn ->] end.
  { pose proof (wrap32_range (chans - indx)). lia. }
  { pose proof (wrap32_range (chans - indx)). lia. }
  destruct (Heng _ _ _ HP) as [_ [_ [i Hi]]]. rewrite Hi.
  destruct (Hsized i) as [_ [_ Hbs]].
  match goal with |- context [process_blocks _ _ _ _ _ _ ?f] =>
    destruct (process_blocks_invariant
                (fun block fr => P block (len fr) (this fr))
                ondx numSamples (GetBlockSize i) rate Hn Hbs
                (fun block fr => Hstep (GetBlockSize i) block fr (proj1 Hbs))
                fuel 0 f) as [fr1 [block' [-> [H1 [H2 H3]]]]] end;
    [lia | lia | now left | exact HP |].
  eexists _, block'. split; [reflexivity|]. simpl. auto.
Qed.

Lemma touch_group_keeps (track : Track) st :
  mPlugin (touch_group zeroRate track st) = mPlugin st
  /\ mLastActive (touch_group zeroRate track st) = mLastActive st
  /\ mwInstance (touch_group zeroRate track st) = mwInstance st
  /\ mLatency (touch_group zeroRate track st) = mLatency st
  /\ calls (touch_group zeroRate track st) = calls st.
Proof. unfold touch_group. now destruct (mGroups st !! track). Qed.


(** *** Latency accounting *)

Section LatencyAccounting.
(** The plugin reports the latency [L], and each [RealtimeProcess] call
    produces exactly the frames it is asked for. *)
Variable L : Z.
Hypothesis L_nonneg : 0 <= L.
Hypothesis sized : well_sized.
Hypothesis reports : forall s (r : Rate) i, GetLatency s r i = L.
Hypothesis produces :
  forall processor s (ins outs : list ptr) cnt i m,
    fst (RealtimeProcess processor s ins outs cnt i m) = cnt.









End LatencyAccounting.

(** *** The traversals of the two call sites *)

Lemma filter_declined_adds numAudioIn k declined :
  filter is_declined_add (adds numAudioIn k declined) = [] ->
  declined = false.
Proof.
  unfold adds. induction k as [|k IH]; simpl; [|exact IH].
  now destruct declined.
Qed.

Lemma visit_recording_AddTrack numAudioIn (sampleRate : Rate) l :
  forall seen st, is_Some (mwInstance st) ->
    exists st' (k : nat) (declined : bool),
      visit (recording (AddTrack_visit numAudioIn sampleRate)) l (seen, st)
      = Some (seen ++ take (k + if declined then 1 else 0)%nat l, st')
      /\ calls st' = calls st ++ adds numAudioIn k declined.
Proof.
  induction l as [|[indx ondx] l IH]; intros seen st [i Hi]; simpl.
  - exists st, 0%nat, false. unfold adds. simpl. now rewrite !app_nil_r.
  - unfold AddTrack_visit at 1. unfold invoke. rewrite Hi.
    destruct (RealtimeAddProcessor _ _ numAudioIn sampleRate i)
      as [[] i'] eqn:Hadd.
    + match goal with |- context [visit _ l (?seen1, ?s)] =>
        destruct (IH seen1 s) as [st' [k [d [Hv Hc]]]] end; [simpl; eauto|].
      exists st', (S k), d. rewrite Hv. split.
      * now rewrite <- app_assoc.
      * rewrite Hc. simpl. now rewrite <- app_assoc.
    + eexists _, 0%nat, true. split; [reflexivity|]. reflexivity.
Qed.

(** Noting the offsets does not change what the allocator does. *)
Lemma alloc_recording {St : Type} (f : @Callback St) fuel chans numAudioIn
    numAudioOut :
  forall indx ondx seen s,
    snd <$> AllocateChannelsToProcessors_from fuel chans numAudioIn
              numAudioOut (recording f) indx ondx (seen, s)
    = AllocateChannelsToProcessors_from fuel chans numAudioIn numAudioOut f
        indx ondx s.
Proof.
  induction fuel as [|fuel IH]; intros indx ondx seen s; simpl;
    [reflexivity|].
  destruct (ondx <? chans); [|reflexivity].
  destruct (f indx ondx s) as [[[] s']|]; try reflexivity. apply IH.
Qed.

(** The traversals are the allocator calls of [AddTrack] and [Process]
    themselves, with the offsets noted. *)
Lemma AddTrack_traversal_erase fuel chans (sampleRate : Rate) i st :
  snd <$> AddTrack_traversal fuel chans sampleRate i st
  = AllocateChannelsToProcessors fuel chans (GetAudioInCount i)
      (GetAudioOutCount i) (AddTrack_visit (GetAudioInCount i) sampleRate) st.
Proof. apply alloc_recording. Qed.

Lemma Process_traversal_erase fuel (track : Track) chans
    (inbuf outbuf : list ptr) numSamples i st m :
  snd <$> Process_traversal zeroRate fuel track chans inbuf outbuf
            numSamples i st m
  = AllocateChannelsToProcessors fuel chans (GetAudioInCount i)
      (GetAudioOutCount i)
      (Process_visit fuel chans (GetAudioInCount i) (GetAudioOutCount i)
         inbuf outbuf numSamples (snd (group_of zeroRate track st)))
      (Process_frame zeroRate track i st m).
Proof. apply alloc_recording. Qed.


(** C3 (amended). For the same channel count and the same arities declared
    by the instance, the traversal of [Process] passes exactly the pairs of
    [offsets], and the traversal of [AddTrack] passes a prefix of them, which
    is all of them when no add is declined: then both call sites pass the
    same sequence.  For channelCount=3, inputArity=2, outputArity=1 the
    pairs are (0,0), (2,1), (1,2). *)
Theorem traversals_agree_unless_declined
    fuel (track : Track) chans (sampleRate : Rate)
    (inbuf outbuf : list ptr) numSamples st1 i1 st2 i2 m :
  well_sized ->
  mwInstance st1 = Some i1 ->
  engaged st2 -> mwInstance st2 = Some i2 ->
  GetAudioInCount i1 = GetAudioInCount i2 ->
  GetAudioOutCount i1 = GetAudioOutCount i2 ->
  0 <= chans -> chans + GetAudioOutCount i2 <= 2 ^ 32 ->
  0 <= numSamples -> numSamples * sizeof_float < 2 ^ 64 ->
  (Z.to_nat chans < fuel)%nat -> (Z.to_nat numSamples < fuel)%nat ->
  (Z.to_nat (GetAudioInCount i2) < fuel)%nat ->
  let pairs := offsets chans (GetAudioInCount i2) (GetAudioOutCount i2) in
  (exists fr,
      Process_traversal zeroRate fuel track chans inbuf outbuf numSamples
        i2 st2 m = Some (pairs, fr))
  /\ (exists seen st1',
         AddTrack_traversal fuel chans sampleRate i1 st1 = Some (seen, st1')
         /\ seen `prefix_of` pairs
         /\ (filter is_declined_add (made_since st1 st1') = [] ->
             seen = pairs))
  /\ offsets 3 2 1 = [(0, 0); (2, 1); (1, 2)].
Proof.
  intros Hsized Hi1 Heng2 Hi2 Hin Hout Hc Hw Hn0 Hn Hfc Hfn Hfi pairs.
  destruct (Hsized i2) as [Hin2 [Ho2 _]]. unfold sizeof_float in Hn.
  assert (Hfuel : (Z.to_nat (ceil_div chans (GetAudioOutCount i2)) < fuel)%nat).
  { pose proof (ceil_div_le _ _ Hc (proj1 Ho2)).
    pose proof (ceil_div_bounds _ _ Hc (proj1 Ho2)). lia. }
  split; [|split; [|reflexivity]].
  - unfold Process_traversal. rewrite alloc_visit; try lia.
    destruct (visit_recording_invariant
                (Process_visit fuel chans (GetAudioInCount i2)
                   (GetAudioOutCount i2) inbuf outbuf numSamples
                   (snd (group_of zeroRate track st2)))
                (fun fr => engaged (this fr)) (fun p => 1 <= chans)
                (offsets chans (GetAudioInCount i2) (GetAudioOutCount i2)))
      with (seen := @nil (Z * Z)) (s := Process_frame zeroRate track i2 st2 m)
      as [fr [Hrun _]].
    + intros indx ondx fr Hc1 Hfr.
      destruct (Process_visit_invariant (fun _ _ st => engaged st)
                  fuel chans (GetAudioInCount i2) (GetAudioOutCount i2)
                  inbuf outbuf numSamples
                  (snd (group_of zeroRate track st2)) ondx Hsized Hc1 Hin2)
        with (indx := indx) (fr := fr) as [fr' [_ [Hrun [_ [_ Hfr']]]]];
        try assumption; try lia; [auto | | eauto].
      intros blockSize block fr0 _ _ Hfr0.
      destruct (process_block_spec ondx (snd (group_of zeroRate track st2))
                  (Z.min (numSamples - block) blockSize) fr0 Hfr0)
        as [fr1 [? [? [? [? [? [Hrun [_ [_ [_ [Heng1 _]]]]]]]]]]].
      eauto.
    + apply Forall_forall. intros [indx ondx] Hp.
      destruct (Z.le_gt_cases 1 chans) as [|Hzero]; [assumption|].
      exfalso. assert (chans = 0) as -> by lia.
      unfold offsets, ceil_div in Hp.
      rewrite Z.div_small in Hp by lia. simpl in Hp.
      now apply elem_of_nil in Hp.
    + cbn [this Process_frame]. unfold engaged in *.
      destruct (touch_group_keeps track st2) as [-> [-> [-> _]]].
      exact Heng2.
    + exists fr. exact Hrun.
  - unfold AddTrack_traversal. rewrite Hin, Hout.
    rewrite alloc_visit; try lia.
    destruct (visit_recording_AddTrack (GetAudioInCount i2) sampleRate
                (offsets chans (GetAudioInCount i2) (GetAudioOutCount i2))
                [] st1) as [st1' [k [d [Hrun Hcalls]]]]; [eauto|].
    rewrite Hrun. simpl. eexists _, st1'. split; [reflexivity|].
    split.
    + eexists. symmetry. apply take_drop.
    + rewrite (made_since_app st1 st1' _ Hcalls). intros Hnone.
      apply filter_declined_adds in Hnone. subst d.
      destruct (visit_AddTrack (GetAudioInCount i2) sampleRate
                  (offsets chans (GetAudioInCount i2) (GetAudioOutCount i2))
                  st1) as [st3 [k3 [d3 [Hv3 [_ [_ [_ [Hc3 [_ Hd3]]]]]]]]];
        [eauto|].
      destruct (visit_recording _ _ _ _ _ _ Hrun) as [Hv _].
      rewrite Hv in Hv3. injection Hv3 as <-.
      rewrite Hcalls in Hc3. apply app_inv_head in Hc3.
      assert (Hk : k = k3 /\ d3 = false).
      { revert Hc3. unfold adds. clear. revert k3.
        induction k as [|k IH]; intros [|k3]; simpl.
        - destruct d3; [discriminate | auto].
        - discriminate.
        - destruct d3; discriminate.
        - intros [= H]. destruct (IH k3 H). auto. }
      destruct Hk as [-> Hd]. rewrite (Hd3 Hd), Nat.add_0_r.
      apply firstn_all.
Qed.

End ProcessFacts.

(** *** Process on the toy plugin *)

(** The allocator on three channels, with two inputs and one output per
    processor. *)
Example alloc_3_2_1 :
  AllocateChannelsToProcessors 4 3 2 1 (recording always) ([], tt)
  = Some ([(0, 0); (2, 1); (1, 2)], tt).
Proof. reflexivity. Qed.

(** ... and when the callback stops the iteration at its second
    invocation. *)
Example alloc_3_2_1_stopped :
  AllocateChannelsToProcessors 4 3 2 1
    (recording (total (fun _ ondx (s : unit) => (ondx <? 1, s)))) ([], tt)
  = Some ([(0, 0); (2, 1)], tt).
Proof. reflexivity. Qed.

Lemma Process_passes_through_witness :
  exists m',
    Process (instance := Toy.instance (Toy.mono 0 true)) 0 0 7%N 2
      (Toy.buffers 0 2) (Toy.buffers 2 2) 3
      (Toy.playing (Some 1%nat) false None None) Toy.audio
    = Some (0, (Toy.playing (Some 1%nat) false None None, m'))
    /\ m' !! 2%nat = Some [1; 2; 3] /\ m' !! 3%nat = Some [4; 5; 6].
Proof.
  destruct (Process_passes_through 0
              (instance := Toy.instance (Toy.mono 0 true)) 0%nat 7%N 2
              (Toy.buffers 0 2) (Toy.buffers 2 2) 3
              (Toy.playing (Some 1%nat) false None None) Toy.audio)
    as [m' [Hrun _]].
  - right. right. reflexivity.
  - unfold sizeof_float. lia.
  - intros [|[|ii]] Hlt; [| |simpl in Hlt; lia];
      (eexists _, _; split; [reflexivity|]; split; [reflexivity|];
       split; vm_compute; eauto).
  - intros [|[|ii]] [|[|jj]] dst p Hi Hj; simpl in Hi, Hj; try lia;
      intros [= <-]; (split; [intros [= <-] | intros Hne; try contradiction;
                                              intros [= <-]]);
      simpl; discriminate.
  - exists m'. split; [exact Hrun|].
    vm_compute in Hrun. injection Hrun as <-. split; reflexivity.
Defined.



(** Two blocks on one track, of one frame and of three: the first block
    and two frames of the second are discardable. *)
Example Process_all_twoBlocks :
  fst <$> Process_all (instance := Toy.instance (Toy.mono 3 true)) 0 20
            Toy.twoBlocks (Toy.playing (Some 1%nat) true None None) Toy.audio
  = Some [1; 2].
Proof. vm_compute. reflexivity. Qed.

(** C3, as stated, fails: an instance that declines the first add ends the
    traversal of [AddTrack] after the pair (0,0), while [Process] passes
    (0,0), (2,1), (1,2). *)
Lemma AddTrack_traversal_cut_short :
  let st := Toy.playing (Some 0%nat) true None None in
  fst <$> AddTrack_traversal (instance := Toy.instance Toy.mixer)
            5 3 44100 0%nat st
  = Some [(0, 0)]
  /\ fst <$> Process_traversal (instance := Toy.instance Toy.mixer) 0
               5 7%N 3 (Toy.buffers 0 3) (Toy.buffers 3 3) 3 0%nat st
               Toy.audio
     = Some [(0, 0); (2, 1); (1, 2)].
Proof. split; vm_compute; reflexivity. Qed.

Lemma traversals_agree_unless_declined_witness :
  (exists fr,
      Process_traversal (instance := Toy.instance Toy.mixer) 0 5 7%N 3
        (Toy.buffers 0 3) (Toy.buffers 3 3) 3 3%nat
        (Toy.playing (Some 3%nat) true None None) Toy.audio
      = Some ([(0, 0); (2, 1); (1, 2)], fr))
  /\ exists seen st',
       AddTrack_traversal (instance := Toy.instance Toy.mixer) 5 3 44100
         3%nat (Toy.playing (Some 3%nat) true None None) = Some (seen, st')
       /\ seen `prefix_of` [(0, 0); (2, 1); (1, 2)].
Proof.
  destruct (traversals_agree_unless_declined 0
              (instance := Toy.instance Toy.mixer) 5 7%N 3 44100
              (Toy.buffers 0 3) (Toy.buffers 3 3) 3
              (Toy.playing (Some 3%nat) true None None) 3%nat
              (Toy.playing (Some 3%nat) true None None) 3%nat Toy.audio)
    as [Hprocess [[seen [st' [Hadd [Hprefix _]]]] _]];
    try reflexivity; try (simpl; lia); try (unfold sizeof_float; lia).
  - intros i. simpl. lia.
  - repeat split. simpl. eauto.
  - split; [exact Hprocess|]. exists seen, st'. split; [exact Hadd|].
    exact Hprefix.
Defined.

(** * The way back from the worker, the handle and the end of a block *)

Section ExchangeFacts.
Context {Contents ExtraOther Outputs Inst Sample Rate : Type}.
Context (defaultExtra : @EffectSettingsExtra ExtraOther).
Context {factory : @EffectInstanceFactory Contents ExtraOther Inst}.
Context {instance :
  @EffectInstance Contents ExtraOther Outputs Inst Sample Rate}.
Context {outputs : @EffectOutputs Outputs}.
Context {manager : @EffectSettingsManager Contents ExtraOther Outputs}.
Context {registry : PluginRegistry}.
Context {ending : @EffectInstanceEnd Contents ExtraOther Inst}.

Abbreviation State :=
  (@RealtimeEffectState Contents ExtraOther Outputs Inst Rate).
Abbreviation Settings := (@EffectSettings Contents ExtraOther).
Abbreviation Access := (@AccessState Contents ExtraOther Outputs).

Implicit Types (st : State) (a : Access) (i : Inst).

Lemma MainRead_spec a st :
  exists a' moved,
    MainRead a st = set_mpAccessState (Some a') (set_mMovedOutputs moved st)
    /\ mChannelFromMain a' = mChannelFromMain a
    /\ mLastSettings a' = mLastSettings a
    /\ mCounter a' = echoed a
    /\ echoed a' = echoed a.
Proof.
  unfold MainRead, MessageBuffer_Read_moving, echoed, MessageBuffer_Read,
    ToMainSlot_Reader.
  destruct (current (mChannelToMain a)) eqn:Hc;
    [destruct (cell1 (mChannelToMain a)) as [[c o]]
    |destruct (cell0 (mChannelToMain a)) as [[c o]]]; simpl;
    (destruct (mMovedOutputs st) as [dst|]; [destruct o as [src|]|]);
    try destruct (Assign src dst) as [dst' src'];
    eexists _, _; (split; [reflexivity|]); simpl; auto.
Qed.

Lemma WorkerWrite_spec a st :
  exists a' produced,
    WorkerWrite a st = set_mpAccessState (Some a') (set_mOutputs produced st)
    /\ mChannelFromMain a' = mChannelFromMain a
    /\ mLastSettings a' = mLastSettings a
    /\ mCounter a' = mCounter a
    /\ echoed a' = counter (mWorkerSettings st).
Proof.
  unfold WorkerWrite, MessageBuffer_Write_moving, echoed, MessageBuffer_Read,
    ToMainSlot_assign.
  destruct (current (mChannelToMain a)) eqn:Hc;
    [destruct (cell0 (mChannelToMain a)) as [[c o]]
    |destruct (cell1 (mChannelToMain a)) as [[c o]]]; simpl;
    (destruct o as [dst|]; [destruct (mOutputs st) as [src|]|]);
    try destruct (Assign src dst) as [dst' src'];
    eexists _, _; (split; [reflexivity|]); simpl; auto.
Qed.

Lemma FlushAttempt_spec a st :
  mInitialized st = true ->
  exists a' moved,
    FlushAttempt a st
    = Some (echoed a =? counter (mLastSettings a),
            set_mpAccessState (Some a') (set_mMovedOutputs moved st))
    /\ mChannelFromMain a' = mChannelFromMain a
    /\ mLastSettings a' = mLastSettings a
    /\ mCounter a' = echoed a
    /\ echoed a' = echoed a.
Proof.
  intros Hi. unfold FlushAttempt. rewrite Hi. simpl.
  destruct (MainRead_spec a st) as [a' [moved [-> [H1 [H2 [H3 H4]]]]]].
  exists a', moved. unfold GetAccessState. simpl. rewrite H2, H3. auto.
Qed.

(** What [Get] does through a handle whose state has its AccessState. *)
Lemma Access_Get_spec st a :
  mpAccessState st = Some a ->
  exists a' moved,
    Access_Get defaultExtra (Some st)
    = (settings (mLastSettings a),
       Some (if mInitialized st
             then set_mpAccessState (Some a') (set_mMovedOutputs moved st)
             else st))
    /\ mChannelFromMain a' = mChannelFromMain a
    /\ mLastSettings a' = mLastSettings a
    /\ mCounter a' = echoed a
    /\ echoed a' = echoed a.
Proof.
  intros Ha. unfold Access_Get, GetAccessState. rewrite Ha.
  destruct (mInitialized st) eqn:Hi.
  - destruct (FlushAttempt_spec a st Hi)
      as [a' [moved [-> [H1 [H2 [H3 H4]]]]]].
    exists a', moved. simpl. rewrite H2. auto.
  - rewrite Ha. destruct (MainRead_spec a st)
      as [a' [moved [_ [H1 [H2 [H3 H4]]]]]].
    exists a', moved. auto.
Qed.

(** X1. Round trip through the handle: after [Set] of settings with a value,
    [Get] returns exactly these settings, whether or not the worker is
    initialized (when it is, [Get] makes one flush attempt on the way); the
    attempt leaves the last-known settings, their revision and what the
    worker will read as [Set] left them, so that a further [Get] returns the
    same settings. *)
Theorem Access_Get_returns_last_Set st a (newSettings : Settings) :
  mpAccessState st = Some a ->
  has_value newSettings = true ->
  exists st1 st2 a2,
    Access_Set (Some st) newSettings = Some st1
    /\ Access_Get defaultExtra (Some st1) = (newSettings, Some st2)
    /\ mpAccessState st2 = Some a2
    /\ mLastSettings a2
       = {| settings := newSettings;
            counter := counter (mLastSettings a) + 1 |}
    /\ pending a2 = mLastSettings a2
    /\ fst (Access_Get defaultExtra (Some st2)) = newSettings.
Proof.
  intros Ha Hv.
  set (last := {| settings := newSettings;
                  counter := counter (mLastSettings a) + 1 |}).
  set (a1 := MainWrite last
               {| mChannelFromMain := mChannelFromMain a;
                  mCounter := mCounter a; mLastSettings := last;
                  mChannelToMain := mChannelToMain a |}).
  assert (Hset : Access_Set (Some st) newSettings
                 = Some (set_mpAccessState (Some a1) st)).
  { unfold Access_Set, GetAccessState. now rewrite Hv, Ha. }
  assert (Hp1 : pending a1 = last) by apply pending_MessageBuffer_Write.
  destruct (Access_Get_spec (set_mpAccessState (Some a1) st) a1 eq_refl)
    as [a2 [moved [Hget [H1 [H2 [H3 H4]]]]]].
  change (settings (mLastSettings a1)) with newSettings in Hget.
  change (mInitialized (set_mpAccessState (Some a1) st))
    with (mInitialized st) in Hget.
  change (mLastSettings a1) with last in H2.
  destruct (mInitialized st) eqn:Hi.
  - eexists _, _, a2. split; [exact Hset|]. split; [exact Hget|].
    split; [reflexivity|]. split; [exact H2|]. split.
    + unfold pending in *. now rewrite H1, H2.
    + match goal with |- context [Access_Get _ (Some ?s)] =>
        destruct (Access_Get_spec s a2 eq_refl) as [a3 [m3 [-> _]]] end.
      simpl. now rewrite H2.
  - eexists _, _, a1. split; [exact Hset|]. split; [exact Hget|].
    split; [reflexivity|]. split; [reflexivity|]. split; [exact Hp1|].
    now rewrite Hget.
Qed.

(** *** The worker's side *)

Lemma ProcessStart_exchange running st :
  same_exchange (drain st) (snd (ProcessStart running st)).
Proof.
  unfold ProcessStart. set (d := drain st). clearbody d.
  unfold ProcessStart_tail, invoke, same_exchange.
  destruct (eqb _ _); destruct (mwInstance d) as [i|] eqn:Hi; simpl;
    rewrite ?Hi; simpl;
    repeat match goal with
    | |- context [if ?b then _ else _] => destruct b; simpl; rewrite ?Hi
    | |- context [RealtimeProcessStart ?s ?j] =>
        destruct (RealtimeProcessStart s j) as [? ?]; simpl
    | |- context [RealtimeResume ?j] =>
        destruct (RealtimeResume j) as [[] ?]; simpl
    | |- context [RealtimeSuspend ?j] =>
        destruct (RealtimeSuspend j) as [[] ?]; simpl
    end; auto 10.
Qed.

Lemma drain_exchange st :
  mpAccessState (drain st) = mpAccessState st
  /\ mMainSettings (drain st) = mMainSettings st
  /\ mInitialized (drain st) = mInitialized st
  /\ mPlugin (drain st) = mPlugin st
  /\ mOutputs (drain st) = mOutputs st
  /\ mMovedOutputs (drain st) = mMovedOutputs st
  /\ forall a, mpAccessState st = Some a ->
       mWorkerSettings (drain st)
       = fst (FromMainSlot_Reader (mWorkerSettings st)
                {| mSettings := pending a |}).
Proof.
  unfold drain, TestAccessState. destruct (mpAccessState st) as [a|] eqn:Ha.
  - rewrite WorkerRead_unfold. simpl. rewrite Ha.
    repeat split. now intros ? [= <-].
  - repeat split; auto. discriminate.
Qed.

(** The counter that the worker holds after it read the channel. *)
Lemma drain_counter st a :
  mpAccessState st = Some a ->
  counter (mWorkerSettings (drain st)) = counter (pending a).
Proof.
  intros Ha. destruct (drain_exchange st) as (_ & _ & _ & _ & _ & _ & Hw).
  rewrite (Hw a Ha). unfold FromMainSlot_Reader. simpl.
  destruct (Z.eqb_spec (counter (pending a)) (counter (mWorkerSettings st)));
    simpl; congruence.
Qed.

Lemma ProcessEnd_spec st :
  let st' := snd (ProcessEnd st) in
  mWorkerSettings st' = mWorkerSettings st
  /\ mMainSettings st' = mMainSettings st
  /\ mInitialized st' = mInitialized st
  /\ mLastActive st' = mLastActive st
  /\ mPlugin st' = mPlugin st
  /\ calls st' = calls st
  /\ (mpAccessState st = None -> mpAccessState st' = None)
  /\ forall a, mpAccessState st = Some a ->
       exists a',
         mpAccessState st' = Some a'
         /\ mChannelFromMain a' = mChannelFromMain a
         /\ mLastSettings a' = mLastSettings a
         /\ mCounter a' = mCounter a
         /\ echoed a' = counter (mWorkerSettings st).
Proof.
  unfold ProcessEnd, TestAccessState.
  set (r := match mwInstance st with
            | Some pInstance => _
            | None => _
            end).
  assert (Hr : same_exchange st (snd r) /\ mLastActive (snd r) = mLastActive st
               /\ calls (snd r) = calls st).
  { subst r. unfold same_exchange.
    destruct (mwInstance st) as [i|]; simpl; [|auto 15].
    destruct (IsActive st && mLastActive st); simpl; [|auto 15].
    destruct (RealtimeProcessEnd _ i) as [ok i']. simpl. auto 15. }
  destruct r as [[result hook] s1]. simpl in Hr.
  destruct Hr as [(Ha & Hw & Hm & Hi & Hp & Ho & Hmo) [Hl Hc]].
  destruct (mpAccessState s1) as [a1|] eqn:Ha1; simpl.
  - destruct (WorkerWrite_spec a1 s1)
      as [a' [produced [-> [H1 [H2 [H3 H4]]]]]]. simpl.
    repeat split; try assumption; try congruence.
    intros a Hsome. exists a'. rewrite <- Ha in Hsome.
    injection Hsome as <-. rewrite H4, Hw. auto.
  - repeat split; try assumption; try congruence.
Qed.

(** One block of the audio thread: the worker reads the channel from the
    main thread and answers with the counter that it found. *)
Lemma audio_block_spec running st a :
  mpAccessState st = Some a ->
  let st' := audio_block running st in
  exists a',
    mpAccessState st' = Some a'
    /\ mChannelFromMain a' = mChannelFromMain a
    /\ mLastSettings a' = mLastSettings a
    /\ mCounter a' = mCounter a
    /\ echoed a' = counter (pending a)
    /\ mInitialized st' = mInitialized st
    /\ mMainSettings st' = mMainSettings st
    /\ mWorkerSettings st' = mWorkerSettings (drain st).
Proof.
  intros Ha. unfold audio_block.
  destruct (ProcessStart_exchange running st)
    as (Hs1 & Hs2 & Hs3 & Hs4 & _).
  destruct (drain_exchange st) as (Hd1 & Hd2 & Hd3 & _).
  destruct (ProcessEnd_spec (snd (ProcessStart running st)))
    as (He1 & He2 & He3 & _ & _ & _ & _ & He).
  destruct (He a) as [a' (H1 & H2 & H3 & H4 & H5)]; [congruence|].
  exists a'. rewrite H5, Hs2, (drain_counter st a Ha).
  repeat split; congruence.
Qed.

(** X2. The echo of a write.  After [Set] of settings with a value on an
    initialized state, a flush attempt fails as long as the worker has not
    answered (its last answer is not the new revision); once the audio
    thread has gone through one block ([ProcessStart], then [ProcessEnd],
    running or not, active or not), the worker holds the new revision and
    the next flush attempt succeeds. *)
Theorem worker_echoes_last_Set running st a (newSettings : Settings) :
  mpAccessState st = Some a ->
  mInitialized st = true ->
  has_value newSettings = true ->
  exists st1 a1,
    Access_Set (Some st) newSettings = Some st1
    /\ mpAccessState st1 = Some a1
    /\ counter (mLastSettings a1) = counter (mLastSettings a) + 1
    /\ (echoed a <> counter (mLastSettings a) + 1 ->
        fst <$> FlushAttempt a1 st1 = Some false)
    /\ exists a2 st3,
         mpAccessState (audio_block running st1) = Some a2
         /\ counter (mWorkerSettings (audio_block running st1))
            = counter (mLastSettings a) + 1
         /\ FlushAttempt a2 (audio_block running st1) = Some (true, st3).
Proof.
  intros Ha Hi Hv.
  set (last := {| settings := newSettings;
                  counter := counter (mLastSettings a) + 1 |}).
  set (a1 := MainWrite last
               {| mChannelFromMain := mChannelFromMain a;
                  mCounter := mCounter a; mLastSettings := last;
                  mChannelToMain := mChannelToMain a |}).
  assert (Hset : Access_Set (Some st) newSettings
                 = Some (set_mpAccessState (Some a1) st)).
  { unfold Access_Set, GetAccessState. now rewrite Hv, Ha. }
  assert (Hp1 : pending a1 = last) by apply pending_MessageBuffer_Write.
  exists (set_mpAccessState (Some a1) st), a1.
  split; [exact Hset|]. split; [reflexivity|]. split; [reflexivity|]. split.
  - intros Hne.
    destruct (FlushAttempt_spec a1 (set_mpAccessState (Some a1) st) Hi)
      as [a' [moved [-> _]]]. simpl.
    change (echoed a1) with (echoed a).
    destruct (Z.eqb_spec (echoed a) (counter (mLastSettings a) + 1));
      [contradiction | reflexivity].
  - destruct (audio_block_spec running (set_mpAccessState (Some a1) st) a1
                eq_refl) as [a2 (H1 & H2 & H3 & H4 & H5 & H6 & H7 & H8)].
    destruct (FlushAttempt_spec a2
                (audio_block running (set_mpAccessState (Some a1) st)))
      as [a3 [moved [Hf _]]]; [now rewrite H6|].
    exists a2. eexists. split; [exact H1|]. split.
    + rewrite H8.
      rewrite (drain_counter (set_mpAccessState (Some a1) st) a1 eq_refl).
      now rewrite Hp1.
    + rewrite Hf, H5, H3, Hp1. simpl. now rewrite Z.eqb_refl.
Qed.

(** The waiting loop of [Flush] when the audio thread goes through a block
    during each sleep. *)
Lemma Flush_wait_audio (running : nat -> bool) st a fuel n :
  mpAccessState st = Some a ->
  mInitialized st = true ->
  pending a = mLastSettings a ->
  (2 <= fuel)%nat ->
  exists st' a',
    Flush_wait fuel (fun n => audio_block (running n)) n st = Some st'
    /\ mpAccessState st' = Some a'
    /\ mLastSettings a' = mLastSettings a
    /\ mChannelFromMain a' = mChannelFromMain a
    /\ mCounter a' = counter (mLastSettings a)
    /\ mInitialized st' = true.
Proof.
  intros Ha Hi Hp Hfuel.
  destruct fuel as [|[|fuel]]; try lia. cbn [Flush_wait].
  unfold GetAccessState at 1. rewrite Ha.
  destruct (FlushAttempt_spec a st Hi)
    as [a1 [moved [-> (H1 & H2 & H3 & H4)]]].
  destruct (Z.eqb_spec (echoed a) (counter (mLastSettings a))) as [He|Hne].
  - eexists _, a1. split; [reflexivity|]. simpl. rewrite H3.
    repeat split; assumption.
  - match goal with |- context [audio_block ?r ?s] =>
      destruct (audio_block_spec r s a1 eq_refl)
        as [a2 (G1 & G2 & G3 & G4 & G5 & G6 & G7 & G8)];
      set (s2 := audio_block r s) in * end.
    unfold GetAccessState. rewrite G1.
    destruct (FlushAttempt_spec a2 s2) as [a3 [m3 [-> (K1 & K2 & K3 & K4)]]];
      [rewrite G6; exact Hi|].
    assert (Hecho : echoed a2 = counter (mLastSettings a2)).
    { rewrite G5, G3, H2. unfold pending in *. now rewrite H1, Hp. }
    rewrite Hecho, Z.eqb_refl.
    eexists _, a3. split; [reflexivity|]. simpl.
    rewrite K3, Hecho, K2, G3, H2, K1, G2, H1, G6.
    repeat split; assumption.
Qed.

(** X3. [Flush] through a handle whose state has its AccessState, in order.
    On a state that is not initialized it returns at once (no attempt is
    made and no fuel is needed).  On an initialized state it returns after
    at most two attempts when the audio thread goes through a block during
    each sleep.  In both cases the main settings are then the last-known
    settings, revision included, and the AccessState keeps them. *)
Theorem Flush_publishes_last_settings (running : nat -> bool) st a fuel :
  mpAccessState st = Some a ->
  pending a = mLastSettings a ->
  (2 <= fuel)%nat \/ mInitialized st = false ->
  exists st' a',
    Access_Flush fuel (fun n => audio_block (running n)) (Some st)
    = Some (Some st')
    /\ mMainSettings st' = mLastSettings a
    /\ mpAccessState st' = Some a'
    /\ mLastSettings a' = mLastSettings a
    /\ pending a' = mLastSettings a'
    /\ (mInitialized st = true -> mCounter a' = counter (mLastSettings a))
    /\ (mInitialized st = false -> st' = set_mMainSettings (mLastSettings a) st).
Proof.
  intros Ha Hp Hfuel. unfold Access_Flush, GetAccessState. rewrite Ha.
  destruct (mInitialized st) eqn:Hi.
  - destruct Hfuel as [Hfuel|]; [|discriminate].
    destruct (Flush_wait_audio running st a fuel 0 Ha Hi Hp Hfuel)
      as [st' [a' (-> & H1 & H2 & H3 & H4 & H5)]].
    rewrite H1. eexists _, a'. split; [reflexivity|].
    unfold mMainSettings_Set. simpl.
    split; [exact H2|]. split; [exact H1|]. split; [exact H2|].
    split; [unfold pending in *; now rewrite H3, H2|].
    split; [auto | discriminate].
  - rewrite Ha. exists (set_mMainSettings (mLastSettings a) st), a.
    split; [reflexivity|]. simpl. repeat split; auto. discriminate.
Qed.

(** The waiting loop when the audio thread makes no progress. *)
Lemma Flush_wait_idle fuel :
  forall n st a,
    mpAccessState st = Some a ->
    mInitialized st = true ->
    echoed a <> counter (mLastSettings a) ->
    Flush_wait fuel (fun _ st => st) n st = None.
Proof.
  induction fuel as [|fuel IH]; intros n st a Ha Hi Hne; [reflexivity|].
  cbn [Flush_wait]. unfold GetAccessState. rewrite Ha.
  destruct (FlushAttempt_spec a st Hi)
    as [a1 [moved [-> (H1 & H2 & H3 & H4)]]].
  destruct (Z.eqb_spec (echoed a) (counter (mLastSettings a)));
    [contradiction|].
  apply (IH _ _ a1); [reflexivity | exact Hi | now rewrite H4, H2].
Qed.

(** X4. [Flush] has no way out but the echo: on an initialized state whose
    worker has not answered the last write, and while the audio thread
    makes no progress, no number of attempts is enough. *)
Theorem Flush_waits_for_the_worker st a fuel :
  mpAccessState st = Some a ->
  mInitialized st = true ->
  echoed a <> counter (mLastSettings a) ->
  Access_Flush fuel (fun _ st => st) (Some st) = None.
Proof.
  intros Ha Hi Hne. unfold Access_Flush, GetAccessState. rewrite Ha, Hi.
  now rewrite (Flush_wait_idle fuel 0 st a Ha Hi Hne).
Qed.

(** X5. [ProcessEnd].  The end-of-block hook of the instance is invoked
    exactly when an instance is alive, the worker's settings are active and
    the recorded activity is true, with the worker's settings; its answer is
    the return value, which is false when it was not invoked.  Whether or
    not it was invoked, and whatever it answered, the worker then writes its
    answer to the main thread: the channel holds the counter of the worker's
    settings, and the members that the main thread owns are as they were. *)
Theorem ProcessEnd_always_answers st :
  let result := fst (fst (ProcessEnd st)) in
  let hook := snd (fst (ProcessEnd st)) in
  let st' := snd (ProcessEnd st) in
  (is_Some hook <->
   is_Some (mwInstance st) /\ IsActive st = true /\ mLastActive st = true)
  /\ result = default false hook
  /\ (forall i, mwInstance st = Some i -> is_Some hook ->
        let ended := RealtimeProcessEnd (settings (mWorkerSettings st)) i in
        hook = Some (fst ended) /\ mwInstance st' = Some (snd ended))
  /\ (hook = None -> mwInstance st' = mwInstance st)
  /\ mWorkerSettings st' = mWorkerSettings st
  /\ mLastActive st' = mLastActive st
  /\ forall a, mpAccessState st = Some a ->
       exists a',
         mpAccessState st' = Some a'
         /\ echoed a' = counter (mWorkerSettings st)
         /\ mChannelFromMain a' = mChannelFromMain a
         /\ mLastSettings a' = mLastSettings a
         /\ mCounter a' = mCounter a.
Proof.
  destruct (ProcessEnd_spec st) as (Hw & _ & _ & Hl & _ & _ & _ & Ha).
  cbv zeta in *.
  assert (Hhook :
    (is_Some (snd (fst (ProcessEnd st))) <->
     is_Some (mwInstance st) /\ IsActive st = true /\ mLastActive st = true)
    /\ fst (fst (ProcessEnd st)) = default false (snd (fst (ProcessEnd st)))
    /\ (forall i, mwInstance st = Some i ->
          is_Some (snd (fst (ProcessEnd st))) ->
          snd (fst (ProcessEnd st))
          = Some (fst (RealtimeProcessEnd (settings (mWorkerSettings st)) i))
          /\ mwInstance (snd (ProcessEnd st))
             = Some (snd (RealtimeProcessEnd
                            (settings (mWorkerSettings st)) i)))
    /\ (snd (fst (ProcessEnd st)) = None ->
        mwInstance (snd (ProcessEnd st)) = mwInstance st)).
  { unfold ProcessEnd, TestAccessState.
    destruct (mwInstance st) as [i|] eqn:Hi.
    - destruct (IsActive st && mLastActive st) eqn:Hact.
      + destruct (RealtimeProcessEnd _ i) as [ok i'] eqn:Hend.
        apply andb_true_iff in Hact.
        simpl. destruct (mpAccessState st) as [a0|] eqn:Ha0; simpl.
        * split; [split; eauto|]. split; [reflexivity|].
          split; [|discriminate]. intros j [= <-] _. rewrite Hend. simpl.
          split; [reflexivity|].
          destruct (WorkerWrite_spec a0 (set_mwInstance (Some i') st))
            as [a' [p [-> _]]]. reflexivity.
        * split; [split; eauto|]. split; [reflexivity|].
          split; [|discriminate]. intros j [= <-] _. rewrite Hend. auto.
      + apply andb_false_iff in Hact.
        destruct (mpAccessState st) as [a0|] eqn:Ha0; simpl.
        * split; [split; [intros [? [=]] | intros (_ & H1 & H2);
                   destruct Hact; congruence]|].
          split; [reflexivity|]. split; [intros j _ [? [=]]|]. intros _.
          destruct (WorkerWrite_spec a0 st) as [a' [p [-> _]]]. exact Hi.
        * split; [split; [intros [? [=]] | intros (_ & H1 & H2);
                   destruct Hact; congruence]|].
          split; [reflexivity|]. split; [intros j _ [? [=]]|]. auto.
    - destruct (mpAccessState st) as [a0|] eqn:Ha0; simpl.
      + split; [split; [intros [? [=]] | intros ([? [=]] & _)]|].
        split; [reflexivity|]. split; [discriminate|]. intros _.
        destruct (WorkerWrite_spec a0 st) as [a' [p [-> _]]]. exact Hi.
      + split; [split; [intros [? [=]] | intros ([? [=]] & _)]|].
        split; [reflexivity|]. split; [discriminate|]. auto. }
  destruct Hhook as (H1 & H2 & H3 & H4).
  split; [exact H1|]. split; [exact H2|]. split; [exact H3|].
  split; [exact H4|]. split; [exact Hw|]. split; [exact Hl|].
  intros a Hsome. destruct (Ha a Hsome) as [a' (G1 & G2 & G3 & G4 & G5)].
  exists a'. auto.
Qed.

(** *** Binding the plugin and making the AccessState *)

(** What [GetEffect] does. *)
Lemma GetEffect_spec (mID : PluginID) st :
  let st' := GetEffect mID st in
  IsEnabled st' = IsEnabled st
  /\ (mPlugin st' = true <->
      mPlugin st = true \/ EffectFactory_Call mID = true)
  /\ (mPlugin st = true \/ EffectFactory_Call mID = false -> st' = st)
  /\ (mPlugin st = false -> EffectFactory_Call mID = true ->
      counter (mMainSettings st') = 0
      /\ value (settings (mMainSettings st')) = value MakeSettings
      /\ otherExtra (extra (settings (mMainSettings st')))
         = otherExtra (extra MakeSettings)
      /\ mOutputs st' = MakeOutputs
      /\ mMovedOutputs st' = MakeOutputs)
  /\ (mPlugin st' = true -> forall other, GetEffect other st' = st')
  /\ mpAccessState st' = mpAccessState st
  /\ mWorkerSettings st' = mWorkerSettings st
  /\ mwInstance st' = mwInstance st
  /\ mInitialized st' = mInitialized st
  /\ calls st' = calls st.
Proof.
  unfold GetEffect, IsEnabled.
  destruct (mPlugin st) eqn:Hp; [|destruct (EffectFactory_Call mID) eqn:Hc];
    simpl; rewrite ?Hp.
  - split; [reflexivity|]. split; [tauto|]. split; [reflexivity|].
    split; [discriminate|]. split; [|auto 10]. intros _ other.
    now rewrite ?Hp.
  - split; [reflexivity|]. split; [tauto|].
    split; [intros [|]; discriminate|]. split; [auto 10|].
    split; [reflexivity | auto 10].
  - split; [reflexivity|].
    split; [split; [discriminate | intros [|]; discriminate]|].
    split; [reflexivity|]. split; [discriminate|].
    split; [discriminate | auto 10].
Qed.

(** X6. [GetEffect] binds the plugin at most once and preserves the
    activation.  When the plugin is bound already, or when no plugin is
    found for the identifier, nothing changes.  When it is found, the main
    settings are the default settings of the plugin at revision 0, except
    for the active flag, which is the one that the state had; both outputs
    objects are made, and the members of the realtime lifecycle and of the
    exchange are left alone.  A further call, with whatever identifier,
    changes nothing once a plugin is bound. *)
Theorem GetEffect_binds_once (mID : PluginID) st :
  let st' := GetEffect mID st in
  IsEnabled st' = IsEnabled st
  /\ (mPlugin st' = true <->
      mPlugin st = true \/ EffectFactory_Call mID = true)
  /\ (mPlugin st = true \/ EffectFactory_Call mID = false -> st' = st)
  /\ (mPlugin st = false -> EffectFactory_Call mID = true ->
      counter (mMainSettings st') = 0
      /\ value (settings (mMainSettings st')) = value MakeSettings
      /\ otherExtra (extra (settings (mMainSettings st')))
         = otherExtra (extra MakeSettings)
      /\ mOutputs st' = MakeOutputs
      /\ mMovedOutputs st' = MakeOutputs)
  /\ (mPlugin st' = true -> forall other, GetEffect other st' = st')
  /\ mpAccessState st' = mpAccessState st
  /\ mWorkerSettings st' = mWorkerSettings st
  /\ mwInstance st' = mwInstance st
  /\ mInitialized st' = mInitialized st
  /\ calls st' = calls st.
Proof. apply GetEffect_spec. Qed.

Lemma MessageBuffer_Write_twice {Data : Type} (d : Data)
    (b : MessageBuffer Data) :
  let b' := MessageBuffer_Write (fun _ new => new) d
              (MessageBuffer_Write (fun _ new => new) d b) in
  cell0 b' = d /\ cell1 b' = d /\ current b' = current b.
Proof. unfold MessageBuffer_Write. now destruct (current b). Qed.

(** What [AccessState::Initialize] leaves, whatever the members held. *)
Lemma AccessState_Initialize_spec (arg : @SettingsAndCounter Contents ExtraOther)
    (pOutputs : option Outputs) a :
  has_value (settings arg) = true ->
  exists a',
    AccessState_Initialize arg pOutputs a
    = Some ({| settings := settings arg; counter := 0 |}, a')
    /\ mLastSettings a' = {| settings := settings arg; counter := 0 |}
    /\ pending a' = mLastSettings a'
    /\ echoed a' = 0
    /\ mCounter a' = mCounter a
    /\ (forall slot, slot = cell0 (mChannelToMain a')
                     \/ slot = cell1 (mChannelToMain a') ->
          slot = {| mResponse := {| response_counter := 0;
                                    pOutputs := Clone <$> pOutputs |} |})
    /\ (forall slot, slot = cell0 (mChannelFromMain a')
                     \/ slot = cell1 (mChannelFromMain a') ->
          slot = {| mSettings := {| settings := settings arg;
                                    counter := 0 |} |}).
Proof.
  intros Hv. unfold AccessState_Initialize. rewrite Hv. simpl.
  eexists. split; [reflexivity|]. simpl.
  split; [reflexivity|].
  match goal with |- context [pending ?x] => set (a' := x) end.
  destruct (MessageBuffer_Write_twice
              ({| mSettings := {| settings := settings arg; counter := 0 |} |}
               : @FromMainSlot Contents ExtraOther)
              (mChannelFromMain a)) as (F0 & F1 & _).
  destruct (MessageBuffer_Write_twice
              ({| mResponse := {| response_counter := 0;
                                  pOutputs := Clone <$> pOutputs |} |}
               : @ToMainSlot Outputs)
              (mChannelToMain a)) as (T0 & T1 & _).
  cbv zeta in F0, F1, T0, T1.
  split.
  { unfold pending, MessageBuffer_Read. subst a'. simpl.
    rewrite F0, F1. now destruct (current _). }
  split.
  { unfold echoed, MessageBuffer_Read. subst a'. simpl.
    rewrite T0, T1. now destruct (current _). }
  split; [reflexivity|]. subst a'. simpl. rewrite F0, F1, T0, T1.
  split; intros slot [->| ->]; reflexivity.
Qed.

(** What [GetAccess] does. *)
Lemma GetAccess_spec (mID : PluginID) (raw : Access) st :
  let st0 := GetEffect mID st in
  exists live st',
    GetAccess mID raw st = Some (live, st')
    /\ (live = true <->
        mPlugin st0 = true /\ has_value (settings (mMainSettings st0)) = true)
    /\ (live = false -> st' = st0)
    /\ (live = true ->
        (is_Some (mpAccessState st) -> st' = st0)
        /\ (mpAccessState st = None ->
            exists a,
              st' = set_mpAccessState (Some a)
                      (set_mMainSettings (mLastSettings a) st0)
              /\ in_order a
              /\ mLastSettings a
                 = {| settings := settings (mMainSettings st0);
                      counter := 0 |}
              /\ echoed a = 0
              /\ (mInitialized st = true ->
                  fst <$> FlushAttempt a st' = Some true))
        /\ forall other raw', GetAccess other raw' st' = Some (true, st')).
Proof.
  intros st0.
  destruct (GetEffect_spec mID st)
    as (_ & _ & _ & _ & Honce & Hacc & _ & _ & Hini & _).
  fold st0 in Honce, Hacc, Hini. unfold GetAccess. fold st0.
  destruct (mPlugin st0) eqn:Hp; simpl;
    [|exists false, st0; split; [reflexivity|];
      split; [split; [discriminate | intros [? _]; discriminate]|];
      split; [reflexivity | discriminate]].
  destruct (has_value (settings (mMainSettings st0))) eqn:Hv; simpl;
    [|exists false, st0; split; [reflexivity|];
      split; [split; [discriminate | intros [_ ?]; discriminate]|];
      split; [reflexivity | discriminate]].
  assert (Hagain : forall s : State,
            mPlugin s = true -> has_value (settings (mMainSettings s)) = true ->
            is_Some (mpAccessState s) ->
            forall other raw', GetAccess other raw' s = Some (true, s)).
  { intros s Hps Hvs [a0 Ha0] other raw'. unfold GetAccess.
    destruct (GetEffect_spec other s)
      as (_ & _ & Hsame & _).
    rewrite (Hsame (or_introl Hps)), Hps, Hvs. simpl.
    unfold GetAccessState. now rewrite Ha0. }
  unfold GetAccessState. rewrite Hacc.
  destruct (mpAccessState st) as [a0|] eqn:Ha0.
  - exists true, st0. split; [reflexivity|]. split; [tauto|].
    split; [discriminate|]. intros _. split; [reflexivity|].
    split; [discriminate|].
    apply Hagain; [exact Hp | exact Hv | rewrite Hacc; eauto].
  - destruct (AccessState_Initialize_spec (mMainSettings st0)
                (mMovedOutputs st0) raw Hv)
      as [a (-> & Hl & Hpend & He & _)].
    exists true. eexists. split; [reflexivity|]. split; [tauto|].
    split; [discriminate|]. intros _. split; [intros [? [=]]|]. split.
    + intros _. exists a. rewrite Hl. split; [reflexivity|].
      split; [split; [now rewrite Hl | exact Hpend]|].
      split; [reflexivity|]. split; [exact He|]. intros Hinit.
      match goal with |- context [FlushAttempt a ?s] =>
        destruct (FlushAttempt_spec a s) as [a' [moved [-> _]]] end;
        [simpl; congruence|].
      simpl. now rewrite He, Hl.
    + apply Hagain; simpl; [exact Hp | exact Hv | eauto].
Qed.

(** X7. [GetAccess] always returns.  The handle it makes refers to the
    state exactly when, after [GetEffect], a plugin is bound and the main
    settings have a value; otherwise it is a dummy, and no AccessState is
    made.  The AccessState is made once only: when there is one already the
    call changes nothing further, so that what [Set] remembered is kept.
    When it is made, whatever its members held before, the revision of the
    main settings is reset to 0, the last-known settings are the main
    settings, the channel to the worker holds them and the channel from the
    worker holds revision 0: the AccessState is in order and, on an
    initialized state, the first flush attempt succeeds.  Calling
    [GetAccess] again changes nothing. *)
Theorem GetAccess_makes_AccessState_once (mID : PluginID) (raw : Access) st :
  let st0 := GetEffect mID st in
  exists live st',
    GetAccess mID raw st = Some (live, st')
    /\ (live = true <->
        mPlugin st0 = true /\ has_value (settings (mMainSettings st0)) = true)
    /\ (live = false -> st' = st0)
    /\ (live = true ->
        (is_Some (mpAccessState st) -> st' = st0)
        /\ (mpAccessState st = None ->
            exists a,
              st' = set_mpAccessState (Some a)
                      (set_mMainSettings (mLastSettings a) st0)
              /\ in_order a
              /\ mLastSettings a
                 = {| settings := settings (mMainSettings st0);
                      counter := 0 |}
              /\ echoed a = 0
              /\ (mInitialized st = true ->
                  fst <$> FlushAttempt a st' = Some true))
        /\ forall other raw', GetAccess other raw' st' = Some (true, st')).
Proof. apply GetAccess_spec. Qed.

(** *** The invariant of the AccessState *)

Context (zeroRate : Rate).

Lemma access_kept_same st st' :
  mpAccessState st' = mpAccessState st -> access_kept st st'.
Proof.
  intros H. unfold access_kept. destruct (mpAccessState st) as [a|]; eauto.
Qed.

Lemma access_kept_trans st1 st2 st3 :
  access_kept st1 st2 -> access_kept st2 st3 -> access_kept st1 st3.
Proof.
  unfold access_kept. destruct (mpAccessState st1) as [a1|].
  - intros [a2 (-> & H1 & H2)] [a3 (-> & G1 & G2)]. exists a3.
    split; [reflexivity|]. split; congruence.
  - now intros ->.
Qed.

(** What is in order stays in order when it is kept. *)
Lemma access_kept_in_order st st' :
  access_kept st st' ->
  (forall a, mpAccessState st = Some a -> in_order a) ->
  (forall a', mpAccessState st' = Some a' -> in_order a')
  /\ (is_Some (mpAccessState st) -> is_Some (mpAccessState st')).
Proof.
  unfold access_kept. intros Hk Hinv.
  destruct (mpAccessState st) as [a|].
  - destruct Hk as [a' (-> & H1 & H2)]. split; [|eauto].
    intros ? [= <-]. destruct (Hinv a eq_refl) as [Hv Hp].
    split; [now rewrite H1|]. unfold pending in *. now rewrite H2, H1.
  - rewrite Hk. split; [discriminate | intros [? [=]]].
Qed.

(** A property that every invocation of the callback keeps is kept by the
    allocator, whenever it returns. *)
Lemma alloc_from_keeps {St : Type} (P : St -> Prop) (f : @Callback St)
    chans numAudioIn numAudioOut :
  (forall indx ondx s b s', P s -> f indx ondx s = Some (b, s') -> P s') ->
  forall fuel indx ondx s s',
    P s ->
    AllocateChannelsToProcessors_from fuel chans numAudioIn numAudioOut f
      indx ondx s = Some s' ->
    P s'.
Proof.
  intros Hf. induction fuel as [|fuel IH]; intros indx ondx s s' Hs;
    simpl; [discriminate|].
  destruct (ondx <? chans); [|now intros [= <-]].
  destruct (f indx ondx s) as [[[] s1]|] eqn:Hstep; [| |discriminate].
  - apply IH. now apply (Hf _ _ _ _ _ Hs Hstep).
  - intros [= <-]. now apply (Hf _ _ _ _ _ Hs Hstep).
Qed.

Lemma EnsureInstance_access (sampleRate : Rate) st :
  mpAccessState (snd (EnsureInstance sampleRate st)) = mpAccessState st.
Proof.
  unfold EnsureInstance.
  destruct (mPlugin st); simpl; [|reflexivity].
  destruct (mInitialized st); simpl; [now destruct (mwInstance st)|].
  destruct (mwInstance st) as [i|] eqn:Hi; simpl; rewrite ?Hi.
  - unfold invoke. simpl.
    match goal with |- context [RealtimeInitialize ?s ?r ?j] =>
      now destruct (RealtimeInitialize s r j) as [[] i'] end.
  - destruct MakeInstance as [i|]; simpl; [|reflexivity].
    unfold invoke. simpl.
    match goal with |- context [RealtimeInitialize ?s ?r ?j] =>
      now destruct (RealtimeInitialize s r j) as [[] i'] end.
Qed.

Lemma Initialize_access (sampleRate : Rate) st :
  mpAccessState (snd (Initialize sampleRate st)) = mpAccessState st.
Proof.
  unfold Initialize. destruct (mPlugin st); simpl; [|reflexivity].
  now rewrite EnsureInstance_access.
Qed.

Lemma same_exchange_refl st : same_exchange st st.
Proof. unfold same_exchange. auto 10. Qed.

Lemma same_exchange_trans st1 st2 st3 :
  same_exchange st1 st2 -> same_exchange st2 st3 -> same_exchange st1 st3.
Proof.
  unfold same_exchange.
  intros (A1 & A2 & A3 & A4 & A5 & A6 & A7) (B1 & B2 & B3 & B4 & B5 & B6 & B7).
  repeat split; congruence.
Qed.

Lemma AddTrack_exchange fuel (track : Track) chans (sampleRate : Rate) st b st' :
  AddTrack fuel track chans sampleRate st = Some (b, st') ->
  same_exchange (snd (EnsureInstance sampleRate st)) st'.
Proof.
  unfold AddTrack.
  destruct (EnsureInstance sampleRate st) as [usable st1]. simpl.
  destruct usable; simpl; [|intros [= _ <-]; apply same_exchange_refl].
  destruct (mPlugin st1); simpl;
    [|intros [= _ <-]; apply same_exchange_refl].
  destruct (mwInstance st1) as [i|]; [|discriminate].
  destruct (AllocateChannelsToProcessors _ _ _ _ _ st1) as [st2|] eqn:Hrun;
    [|discriminate].
  assert (H2 : same_exchange st1 st2).
  { unfold AllocateChannelsToProcessors in Hrun.
    revert Hrun.
    apply (alloc_from_keeps (fun s => same_exchange st1 s));
      [|apply same_exchange_refl].
    intros indx ondx s b0 s' Hs. unfold AddTrack_visit, invoke.
    destruct (mwInstance s) as [j|]; [|discriminate].
    destruct (RealtimeAddProcessor _ _ _ _ j) as [[] j'];
      intros [= _ <-]; exact Hs. }
  destruct (_ <? _); intros [= _ <-]; exact H2.
Qed.

Lemma AddTrack_access fuel (track : Track) chans (sampleRate : Rate) st b st' :
  AddTrack fuel track chans sampleRate st = Some (b, st') ->
  mpAccessState st' = mpAccessState st.
Proof.
  intros H. apply AddTrack_exchange in H. destruct H as (H & _).
  now rewrite H, EnsureInstance_access.
Qed.

Lemma Finalize_access st :
  mpAccessState (snd (Finalize st)) = mpAccessState st.
Proof.
  unfold Finalize, invoke. simpl. destruct (mwInstance st) as [i|]; simpl;
    [|reflexivity].
  now destruct (RealtimeFinalize _ i).
Qed.

Lemma process_block_exchange ondx (rate : Rate) cnt
    (fr fr' : @ProcessFrame Contents ExtraOther Outputs Inst Sample Rate) :
  process_block ondx rate cnt fr = Some fr' ->
  same_exchange (this fr) (this fr')
  /\ mGroups (this fr') = mGroups (this fr)
  /\ mCurrentProcessor (this fr') = mCurrentProcessor (this fr)
  /\ mLastActive (this fr') = mLastActive (this fr).
Proof.
  unfold process_block. destruct (mwInstance (this fr)) as [i|];
    [|discriminate].
  destruct (RealtimeProcess _ _ _ _ _ i _) as [processed [i' m']].
  unfold note, set_calls, set_mwInstance, set_mLatency, same_exchange. simpl.
  destruct (mLatency (this fr)) as [latency|]; simpl;
    destruct (ondx =? 0); intros [= <-]; simpl; auto 15.
Qed.

Lemma process_blocks_exchange ondx numSamples blockSize (rate : Rate) fuel :
  forall block
    (fr fr' : @ProcessFrame Contents ExtraOther Outputs Inst Sample Rate),
    process_blocks fuel ondx numSamples blockSize rate block fr = Some fr' ->
    same_exchange (this fr) (this fr')
    /\ mGroups (this fr') = mGroups (this fr)
    /\ mCurrentProcessor (this fr') = mCurrentProcessor (this fr)
    /\ mLastActive (this fr') = mLastActive (this fr).
Proof.
  induction fuel as [|fuel IH]; intros block fr fr'; simpl; [discriminate|].
  destruct (block <? numSamples);
    [|intros [= <-]; split; [apply same_exchange_refl | auto]].
  destruct (process_block _ _ _ fr) as [fr1|] eqn:H1; [|discriminate].
  intros H. apply IH in H. apply process_block_exchange in H1.
  destruct H as (A1 & A2 & A3 & A4), H1 as (B1 & B2 & B3 & B4).
  split; [eapply same_exchange_trans; eassumption|].
  repeat split; congruence.
Qed.

(** The members that [Process] leaves alone, whenever it returns: those of
    the exchange, the processor index and the recorded activity; of the
    groups, it changes nothing but to make the entry of a track that has
    none. *)
Lemma Process_exchange fuel (track : Track) chans (inbuf outbuf : list ptr)
    numSamples st (m : gmap nat (list Sample)) d st' m' :
  Process zeroRate fuel track chans inbuf outbuf numSamples st m
  = Some (d, (st', m')) ->
  same_exchange st st'
  /\ mCurrentProcessor st' = mCurrentProcessor st
  /\ mLastActive st' = mLastActive st
  /\ (is_Some (mGroups st !! track) \/ ~ engaged st ->
      mGroups st' = mGroups st)
  /\ (mGroups st !! track = None -> engaged st ->
      mGroups st' = <[track := (0, zeroRate)]> (mGroups st)).
Proof.
  unfold Process.
  destruct (if mPlugin st && mLastActive st then mwInstance st else None)
    as [i|] eqn:Hengaged.
  - destruct (AllocateChannelsToProcessors _ _ _ _ _ _) as [fr|] eqn:Hrun;
      [|discriminate].
    intros [= _ <- _]. unfold AllocateChannelsToProcessors in Hrun.
    assert (Heng : engaged st).
    { unfold engaged. destruct (mPlugin st), (mLastActive st);
        try discriminate. simpl in Hengaged. rewrite Hengaged. eauto. }
    set (st0 := touch_group zeroRate track st).
    assert (H0 : same_exchange st st0
                 /\ mCurrentProcessor st0 = mCurrentProcessor st
                 /\ mLastActive st0 = mLastActive st
                 /\ (is_Some (mGroups st !! track) \/ ~ engaged st ->
                     mGroups st0 = mGroups st)
                 /\ (mGroups st !! track = None -> engaged st ->
                     mGroups st0 = <[track := (0, zeroRate)]> (mGroups st))).
    { subst st0. unfold touch_group.
      destruct (mGroups st !! track) eqn:Hg; simpl.
      - split; [apply same_exchange_refl|]. do 3 (split; [auto|]).
        discriminate.
      - split; [unfold same_exchange; simpl; auto 10|].
        do 2 (split; [reflexivity|]). split; [|auto].
        intros [[? [=]]|Hn]; contradiction. }
    destruct H0 as (E0 & C0 & L0 & G0 & G0').
    assert (H : same_exchange st0 (this fr)
                /\ mGroups (this fr) = mGroups st0
                /\ mCurrentProcessor (this fr) = mCurrentProcessor st0
                /\ mLastActive (this fr) = mLastActive st0).
    { revert Hrun.
      apply (alloc_from_keeps
               (fun fr => same_exchange st0 (this fr)
                          /\ mGroups (this fr) = mGroups st0
                          /\ mCurrentProcessor (this fr)
                             = mCurrentProcessor st0
                          /\ mLastActive (this fr) = mLastActive st0)).
      - intros indx ondx s b s' (A1 & A2 & A3 & A4). unfold Process_visit.
        destruct (reuse_inputs _ _ _ _ _ _) as [newIn|]; [|discriminate].
        destruct (mwInstance (this s)) as [j|]; [|discriminate].
        destruct (process_blocks _ _ _ _ _ _ _) as [fr1|] eqn:Hb;
          [|discriminate].
        intros [= _ <-]. simpl. apply process_blocks_exchange in Hb.
        simpl in Hb. destruct Hb as (B1 & B2 & B3 & B4).
        split; [eapply same_exchange_trans; eassumption|].
        repeat split; congruence.
      - simpl. split; [apply same_exchange_refl | auto]. }
    destruct H as (E1 & G1 & C1 & L1).
    split; [eapply same_exchange_trans; eassumption|].
    split; [congruence|]. split; [congruence|].
    rewrite G1. split; assumption.
  - destruct (copy_through _ _ _ _ _); [|discriminate].
    intros [= _ <- _]. split; [apply same_exchange_refl|].
    do 3 (split; [auto|]). intros _ (Hp & Hl & [i Hi]).
    now rewrite Hp, Hl, Hi in Hengaged.
Qed.

Lemma Process_access fuel (track : Track) chans (inbuf outbuf : list ptr)
    numSamples st (m : gmap nat (list Sample)) d st' m' :
  Process zeroRate fuel track chans inbuf outbuf numSamples st m
  = Some (d, (st', m')) ->
  mpAccessState st' = mpAccessState st.
Proof. intros H. apply Process_exchange in H. now destruct H as ((H & _) & _). Qed.

Lemma FlushAttempt_kept a st b st' :
  mpAccessState st = Some a ->
  FlushAttempt a st = Some (b, st') ->
  access_kept st st' /\ mInitialized st' = mInitialized st.
Proof.
  intros Ha. unfold FlushAttempt.
  destruct (mInitialized st) eqn:Hi; [|discriminate]. simpl.
  destruct (MainRead_spec a st) as [a' [moved [-> (H1 & H2 & _)]]].
  unfold GetAccessState. simpl. intros [= _ <-].
  split; [|exact Hi]. unfold access_kept. rewrite Ha. exists a'. auto.
Qed.

Lemma audio_block_kept running st :
  access_kept st (audio_block running st)
  /\ mInitialized (audio_block running st) = mInitialized st.
Proof.
  unfold access_kept. destruct (mpAccessState st) as [a|] eqn:Ha.
  - destruct (audio_block_spec running st a Ha)
      as [a' (H1 & H2 & H3 & _ & _ & H6 & _)].
    split; [|exact H6]. exists a'. auto.
  - unfold audio_block.
    destruct (ProcessStart_exchange running st) as (Hs1 & _ & _ & Hs4 & _).
    destruct (drain_exchange st) as (Hd1 & _ & Hd3 & _).
    destruct (ProcessEnd_spec (snd (ProcessStart running st)))
      as (_ & _ & He3 & _ & _ & _ & He & _).
    split; [apply He; congruence | congruence].
Qed.

Lemma Flush_wait_kept (running : nat -> bool) fuel :
  forall n st st',
    Flush_wait fuel (fun n => audio_block (running n)) n st = Some st' ->
    access_kept st st'.
Proof.
  induction fuel as [|fuel IH]; intros n st st'; simpl; [discriminate|].
  unfold GetAccessState. destruct (mpAccessState st) as [a|] eqn:Ha;
    [|discriminate].
  destruct (FlushAttempt a st) as [[[] st1]|] eqn:Hf; [| |discriminate].
  - intros [= <-]. now apply (FlushAttempt_kept a st true st1 Ha).
  - intros H. apply IH in H.
    destruct (FlushAttempt_kept a st false st1 Ha Hf) as [Hk _].
    eapply access_kept_trans; [exact Hk|].
    eapply access_kept_trans; [apply audio_block_kept | exact H].
Qed.

Lemma Access_Flush_kept (running : nat -> bool) fuel st st' :
  Access_Flush fuel (fun n => audio_block (running n)) (Some st)
  = Some (Some st') ->
  access_kept st st'.
Proof.
  unfold Access_Flush, GetAccessState.
  destruct (mpAccessState st) as [a|] eqn:Ha;
    [|intros [= <-]; apply access_kept_same; reflexivity].
  destruct (if mInitialized st then _ else _) as [st1|] eqn:Hw;
    [|discriminate].
  assert (Hk : access_kept st st1).
  { destruct (mInitialized st).
    - now apply Flush_wait_kept in Hw.
    - injection Hw as <-. now apply access_kept_same. }
  destruct (mpAccessState st1) as [a1|] eqn:Ha1; [|discriminate].
  intros [= <-]. eapply access_kept_trans; [exact Hk|].
  apply access_kept_same. reflexivity.
Qed.

Lemma Access_Get_kept st st' :
  snd (Access_Get defaultExtra (Some st)) = Some st' -> access_kept st st'.
Proof.
  destruct (mpAccessState st) as [a|] eqn:Ha.
  - destruct (Access_Get_spec st a Ha) as [a' [moved [-> (H1 & H2 & _)]]].
    simpl. intros [= <-]. destruct (mInitialized st).
    + unfold access_kept. rewrite Ha. exists a'. auto.
    + now apply access_kept_same.
  - unfold Access_Get, GetAccessState. rewrite Ha. simpl.
    intros [= <-]. now apply access_kept_same.
Qed.

(** One operation keeps the AccessState in order. *)
Lemma perform_in_order (op : Operation) st m st' m' :
  perform defaultExtra zeroRate op (st, m) = Some (st', m') ->
  (forall a, mpAccessState st = Some a -> in_order a) ->
  (forall a', mpAccessState st' = Some a' -> in_order a')
  /\ (is_Some (mpAccessState st) -> is_Some (mpAccessState st')).
Proof.
  destruct op as [mID raw|newSettings| |fuel running|sampleRate
                 |fuel track chans sampleRate|running
                 |fuel track chans inbuf outbuf numSamples| |];
    cbn [perform].
  - (* GetAccess *)
    destruct (GetAccess_spec mID raw st)
      as [live [st1 (-> & _ & Hdummy & Hlive)]].
    destruct (GetEffect_spec mID st)
      as (_ & _ & _ & _ & _ & Hacc & _).
    intros [= <- <-] Hinv. destruct live.
    + destruct (Hlive eq_refl) as (Hold & Hnew & _).
      destruct (mpAccessState st) as [a0|] eqn:Ha0.
      * rewrite (Hold ltac:(eauto)), Hacc.
        split; [exact Hinv | eauto].
      * destruct (Hnew eq_refl) as [a (-> & Hord & _)]. simpl.
        split; [now intros ? [= <-] | eauto].
    + rewrite (Hdummy eq_refl), Hacc. split; [exact Hinv | auto].
  - (* Set *)
    unfold Access_Set, GetAccessState.
    destruct (has_value newSettings) eqn:Hv; simpl;
      [|intros [= <- <-] Hinv; auto].
    destruct (mpAccessState st) as [a|] eqn:Ha.
    + intros [= <- <-] _. simpl. split; [|eauto].
      intros ? [= <-]. split; [exact Hv|].
      apply pending_MessageBuffer_Write.
    + intros [= <- <-]. rewrite Ha. split; [discriminate | intros [? [=]]].
  - (* Get *)
    destruct (snd (Access_Get defaultExtra (Some st))) as [st1|] eqn:Hg;
      [|discriminate].
    intros [= <- <-]. apply access_kept_in_order. now apply Access_Get_kept.
  - (* Flush *)
    destruct (Access_Flush _ _ _) as [[st1|]|] eqn:Hf; try discriminate.
    intros [= <- <-]. apply access_kept_in_order.
    now apply (Access_Flush_kept running fuel).
  - (* Initialize *)
    intros [= <- <-]. apply access_kept_in_order, access_kept_same.
    apply Initialize_access.
  - (* AddTrack *)
    destruct (AddTrack _ _ _ _ st) as [[b st1]|] eqn:Ha; [|discriminate].
    intros [= <- <-]. apply access_kept_in_order, access_kept_same.
    now apply AddTrack_access in Ha.
  - (* ProcessStart *)
    intros [= <- <-]. apply access_kept_in_order, access_kept_same.
    destruct (ProcessStart_exchange running st) as (Hs1 & _).
    destruct (drain_exchange st) as (Hd1 & _). congruence.
  - (* Process *)
    destruct (Process _ _ _ _ _ _ _ st m) as [[d [st1 m1]]|] eqn:Hp;
      [|discriminate].
    intros [= <- <-]. apply access_kept_in_order, access_kept_same.
    now apply Process_access in Hp.
  - (* ProcessEnd *)
    intros [= <- <-]. apply access_kept_in_order.
    destruct (ProcessEnd_spec st) as (_ & _ & _ & _ & _ & _ & Hn & Hs).
    unfold access_kept. destruct (mpAccessState st) as [a|] eqn:Ha.
    + destruct (Hs a eq_refl) as [a' (H1 & H2 & H3 & _)]. exists a'. auto.
    + now apply Hn.
  - (* Finalize *)
    intros [= <- <-]. apply access_kept_in_order, access_kept_same.
    apply Finalize_access.
Qed.

(** X8. The invariant that the source documents for the AccessState, the
    last-known settings have a value, holds together with "the channel to
    the worker holds the last-known settings" after every sequence of calls
    that return: the calls of the main thread through a handle that refers
    to the state ([GetAccess], [Set], [Get], [Flush] while the audio thread
    goes through its blocks) and the calls of the realtime lifecycle
    ([Initialize], [AddTrack], [ProcessStart], [Process], [ProcessEnd],
    [Finalize]), in any order.  An AccessState, once made, stays; and [Get]
    then returns settings with a value. *)
Theorem AccessState_stays_in_order (ops : list Operation) st m st' m' :
  (forall a, mpAccessState st = Some a -> in_order a) ->
  perform_all defaultExtra zeroRate ops (st, m) = Some (st', m') ->
  (forall a', mpAccessState st' = Some a' -> in_order a')
  /\ (is_Some (mpAccessState st) -> is_Some (mpAccessState st'))
  /\ (is_Some (mpAccessState st') ->
      has_value (fst (Access_Get defaultExtra (Some st'))) = true).
Proof.
  intros Hinv Hrun.
  assert (H : (forall a', mpAccessState st' = Some a' -> in_order a')
              /\ (is_Some (mpAccessState st) -> is_Some (mpAccessState st'))).
  { revert st m Hinv Hrun.
    induction ops as [|op ops IH]; intros st m Hinv; cbn [perform_all].
    - intros [= <- <-]. auto.
    - destruct (perform defaultExtra zeroRate op (st, m)) as [[st1 m1]|]
        eqn:Hop; [|discriminate].
      intros Hrun.
      destruct (perform_in_order op st m st1 m1 Hop Hinv) as [Hinv1 Hsome1].
      destruct (IH st1 m1 Hinv1 Hrun) as [Hinv' Hsome']. auto. }
  destruct H as [Hinv' Hsome]. split; [exact Hinv'|]. split; [exact Hsome|].
  intros [a' Ha']. destruct (Access_Get_spec st' a' Ha') as [a2 [mv [-> _]]].
  simpl. now destruct (Hinv' a' Ha').
Qed.

(** *** The instance *)

Lemma filter_none (P : Call -> bool) (l : list Call) :
  (forall c, c ∈ l -> P c = false) -> filter P l = [].
Proof.
  induction l as [|c l IH]; intros H; [reflexivity|].
  rewrite filter_cons. destruct (decide (P c)) as [Hc|_].
  - rewrite (H c) in Hc; [destruct Hc | left].
  - apply IH. intros c' Hc'. apply H. now right.
Qed.

(** The calls that [EnsureInstance] makes. *)
Lemma EnsureInstance_calls (sampleRate : Rate) st :
  let st1 := snd (EnsureInstance sampleRate st) in
  exists made,
    calls st1 = calls st ++ made
    /\ (forall c, c ∈ made ->
          mPlugin st = true /\ mInitialized st = false
          /\ (c = CallMakeInstance -> mwInstance st = None))
    /\ (length (filter is_initialize made) <= 1)%nat
    /\ (length (filter is_make made) <= 1)%nat.
Proof.
  unfold EnsureInstance.
  destruct (mPlugin st) eqn:Hp; simpl;
    [|exists []; rewrite app_nil_r; split; [reflexivity|];
      split; [intros c Hc; inversion Hc | simpl; lia]].
  destruct (mInitialized st) eqn:Hini; simpl.
  { exists []. rewrite app_nil_r.
    split; [now destruct (mwInstance st)|].
    split; [intros c Hc; inversion Hc | simpl; lia]. }
  assert (Hin : forall (l : list Call) (P : Call -> Prop),
            Forall P l -> forall c, c ∈ l -> P c).
  { intros l P HF c Hc. rewrite Forall_forall in HF. auto. }
  destruct (mwInstance st) as [i|] eqn:Hi; simpl; rewrite ?Hi.
  - unfold invoke. simpl.
    match goal with |- context [RealtimeInitialize ?s ?r ?j] =>
      destruct (RealtimeInitialize s r j) as [ok i'] end.
    exists [CallSetBlockSize 512; CallRealtimeInitialize ok].
    split; [destruct ok; simpl; now rewrite <- app_assoc|].
    split; [|simpl; lia].
    apply Hin. repeat constructor; discriminate.
  - destruct MakeInstance as [i|] eqn:Hmake; simpl.
    + unfold invoke. simpl.
      match goal with |- context [RealtimeInitialize ?s ?r ?j] =>
        destruct (RealtimeInitialize s r j) as [ok i'] end.
      exists [CallMakeInstance; CallSetBlockSize 512;
              CallRealtimeInitialize ok].
      split; [destruct ok; simpl; now rewrite <- !app_assoc|].
      split; [|simpl; lia].
      apply Hin. repeat constructor; discriminate.
    + exists [CallMakeInstance]. split; [reflexivity|].
      split; [|simpl; lia].
      apply Hin. repeat constructor.
Qed.

(** X9. [EnsureInstance] initializes the instance once in a scope.  When it
    answers with an instance, the state is initialized, and every further
    call, with whatever sample rate, answers with the same instance, makes
    no call into the plugin and changes nothing.  On a state that is
    initialized it never calls the plugin; on a state that is not, with a
    bound plugin, it first copies the main settings to the worker and
    records their active flag as the activity, and it calls
    [RealtimeInitialize] and [MakeInstance] at most once, the latter only
    when no instance is alive.  When it fails, the state is as initialized
    as it was. *)
Theorem EnsureInstance_initializes_once (sampleRate : Rate) st :
  let ok := fst (EnsureInstance sampleRate st) in
  let st1 := snd (EnsureInstance sampleRate st) in
  (ok = true ->
   mInitialized st1 = true /\ is_Some (mwInstance st1)
   /\ forall other, EnsureInstance other st1 = (true, st1))
  /\ (mInitialized st = true -> st1 = st)
  /\ (mPlugin st = true -> mInitialized st = false ->
      mWorkerSettings st1 = mMainSettings st
      /\ mLastActive st1 = IsEnabled st)
  /\ (ok = false -> mInitialized st1 = mInitialized st)
  /\ (length (filter is_initialize (made_since st st1)) <= 1)%nat
  /\ (length (filter is_make (made_since st st1)) <= 1)%nat
  /\ (is_Some (mwInstance st) -> filter is_make (made_since st st1) = []).
Proof.
  destruct (EnsureInstance_calls sampleRate st)
    as [made (Hcalls & Hmade & Hinit & Hmake)].
  cbv zeta in *. rewrite (made_since_app st _ made Hcalls).
  assert (Hrecycle : is_Some (mwInstance st) -> filter is_make made = []).
  { intros [i Hi]. apply filter_none.
    intros c Hc. destruct c; simpl; auto.
    destruct (Hmade _ Hc) as (_ & _ & Hnone).
    rewrite (Hnone eq_refl) in Hi. discriminate. }
  assert (Hready : forall other (s : State),
            mPlugin s = true -> mInitialized s = true ->
            is_Some (mwInstance s) -> EnsureInstance other s = (true, s)).
  { intros other s Hp Hini [i Hi]. unfold EnsureInstance.
    now rewrite Hp, Hini, Hi. }
  split; [|split; [|split; [|split; [|auto]]]].
  - (* success *)
    intros Hok.
    destruct (EnsureInstance_keeps sampleRate st) as (_ & _ & _ & Husable).
    destruct (Husable Hok) as [Hsome Hp].
    assert (Hini : mInitialized (snd (EnsureInstance sampleRate st)) = true).
    { revert Hok. unfold EnsureInstance.
      destruct (mPlugin st); simpl; [|discriminate].
      destruct (mInitialized st) eqn:Hi0; simpl;
        [destruct (mwInstance st); [auto | discriminate]|].
      destruct (mwInstance st) as [i|] eqn:Hi; simpl; rewrite ?Hi.
      - unfold invoke. simpl.
        match goal with |- context [RealtimeInitialize ?s ?r ?j] =>
          now destruct (RealtimeInitialize s r j) as [[] i'] end.
      - destruct MakeInstance as [i|]; simpl; [|discriminate].
        unfold invoke. simpl.
        match goal with |- context [RealtimeInitialize ?s ?r ?j] =>
          now destruct (RealtimeInitialize s r j) as [[] i'] end. }
    split; [exact Hini|]. split; [exact Hsome|].
    intros other. now apply Hready.
  - (* initialized already *)
    intros Hini. unfold EnsureInstance. rewrite Hini.
    destruct (mPlugin st); simpl; [|reflexivity].
    now destruct (mwInstance st).
  - (* the copy to the worker *)
    intros Hp Hini. unfold EnsureInstance, IsEnabled, IsActive.
    rewrite Hp, Hini. simpl.
    destruct (mwInstance st) as [i|] eqn:Hi; simpl; rewrite ?Hi.
    + unfold invoke. simpl.
      match goal with |- context [RealtimeInitialize ?s ?r ?j] =>
        now destruct (RealtimeInitialize s r j) as [[] i'] end.
    + destruct MakeInstance as [i|]; simpl; [|auto].
      unfold invoke. simpl.
      match goal with |- context [RealtimeInitialize ?s ?r ?j] =>
        now destruct (RealtimeInitialize s r j) as [[] i'] end.
  - (* failure *)
    unfold EnsureInstance.
    destruct (mPlugin st); simpl; [|reflexivity].
    destruct (mInitialized st) eqn:Hi0; simpl;
      [now destruct (mwInstance st)|].
    destruct (mwInstance st) as [i|] eqn:Hi; simpl; rewrite ?Hi.
    + unfold invoke. simpl.
      match goal with |- context [RealtimeInitialize ?s ?r ?j] =>
        destruct (RealtimeInitialize s r j) as [[] i'] end;
        simpl; [discriminate | auto].
    + destruct MakeInstance as [i|]; simpl; [|auto].
      unfold invoke. simpl.
      match goal with |- context [RealtimeInitialize ?s ?r ?j] =>
        destruct (RealtimeInitialize s r j) as [[] i'] end;
        simpl; [discriminate | auto].
Qed.

(** X10. [GetInstance] recycles the instance.  It answers with an instance
    exactly when one is alive afterwards; it makes one, through the plugin,
    only when none is alive and a plugin is bound, and otherwise changes
    nothing.  The instance that it answers with is the one that the
    realtime scope then uses: a further [GetInstance], [EnsureInstance] or
    [Initialize] makes no other instance. *)
Theorem GetInstance_recycles st :
  let ok := fst (GetInstance st) in
  let st' := snd (GetInstance st) in
  (ok = true <-> is_Some (mwInstance st'))
  /\ (is_Some (mwInstance st) \/ mPlugin st = false -> st' = st)
  /\ (mwInstance st = None -> mPlugin st = true ->
      st' = note CallMakeInstance (set_mwInstance MakeInstance st))
  /\ (ok = true ->
      GetInstance st' = (true, st')
      /\ forall sampleRate : Rate,
           filter is_make
             (made_since st' (snd (EnsureInstance sampleRate st'))) = []
           /\ filter is_make
                (made_since st' (snd (Initialize sampleRate st'))) = []).
Proof.
  assert (Hrecycle : forall (s : State) (sampleRate : Rate),
            is_Some (mwInstance s) ->
            GetInstance s = (true, s)
            /\ filter is_make
                 (made_since s (snd (EnsureInstance sampleRate s))) = []
            /\ filter is_make
                 (made_since s (snd (Initialize sampleRate s))) = []).
  { intros s sampleRate [i Hi].
    assert (He : forall s0 : State, is_Some (mwInstance s0) ->
              calls s0 = calls s ->
              filter is_make
                (made_since s (snd (EnsureInstance sampleRate s0))) = []).
    { intros s0 Hs0 Hc.
      destruct (EnsureInstance_calls sampleRate s0)
        as [made (Hcalls & Hmade & _)]. cbv zeta in Hcalls.
      rewrite Hc in Hcalls. rewrite (made_since_app s _ made Hcalls).
      apply filter_none. intros c Hin. destruct c; simpl; auto.
      destruct (Hmade _ Hin) as (_ & _ & Hnone).
      destruct Hs0 as [j Hj]. rewrite (Hnone eq_refl) in Hj. discriminate. }
    split; [unfold GetInstance; now rewrite Hi|].
    split; [apply He; eauto|].
    unfold Initialize. destruct (mPlugin s); simpl.
    - apply He; simpl; eauto.
    - unfold made_since. now rewrite drop_all. }
  cbv zeta.
  destruct (mwInstance st) as [i|] eqn:Hi.
  - assert (Hg : GetInstance st = (true, st))
      by (unfold GetInstance; now rewrite Hi).
    rewrite Hg. simpl. rewrite Hi.
    split; [split; eauto|]. split; [reflexivity|].
    split; [discriminate|]. intros _.
    split; [exact Hg|].
    intros sampleRate. apply Hrecycle. eauto.
  - destruct (mPlugin st) eqn:Hp.
    + destruct MakeInstance as [i|] eqn:Hmake.
      * assert (Hg : GetInstance st
                     = (true, note CallMakeInstance
                                (set_mwInstance (Some i) st)))
          by (unfold GetInstance; rewrite Hi, Hp, Hmake; reflexivity).
        rewrite Hg. simpl.
        split; [split; eauto|].
        split; [intros [[? [=]]|]; discriminate|].
        split; [reflexivity|]. intros _.
        split; [apply (Hrecycle _ zeroRate); simpl; eauto|].
        intros sampleRate. apply Hrecycle. simpl. eauto.
      * assert (Hg : GetInstance st
                     = (false, note CallMakeInstance
                                 (set_mwInstance None st)))
          by (unfold GetInstance; rewrite Hi, Hp, Hmake; reflexivity).
        rewrite Hg. simpl.
        split; [split; [discriminate | intros [? [=]]]|].
        split; [intros [[? [=]]|]; discriminate|].
        split; [reflexivity | discriminate].
    + assert (Hg : GetInstance st = (false, st))
        by (unfold GetInstance; now rewrite Hi, Hp).
      rewrite Hg. simpl. rewrite Hi.
      split; [split; [discriminate | intros [? [=]]]|].
      split; [reflexivity|]. split; discriminate.
Qed.

(** X11. What the main thread sets, the worker takes up at the next
    [ProcessStart].  After [Set] of settings with a value (of a revision
    that the worker does not hold), [ProcessStart] leaves the worker with
    that revision: the content copied by the plugin from the new settings
    into its own, and the extra field of the new settings verbatim.  The
    activity that [IsActive] reports is then the active flag that was set;
    and the recorded activity is that flag and [running], unless the
    suspend or resume hook of a live instance failed. *)
Theorem ProcessStart_takes_up_last_Set running st a (newSettings : Settings) :
  mpAccessState st = Some a ->
  has_value newSettings = true ->
  counter (mWorkerSettings st) <> counter (mLastSettings a) + 1 ->
  exists st1,
    Access_Set (Some st) newSettings = Some st1
    /\ let st2 := snd (ProcessStart running st1) in
       let active := GetActive (extra newSettings) && running in
       mWorkerSettings st2
       = {| settings :=
              {| value := value (CopySettingsContents newSettings
                                   (settings (mWorkerSettings st)));
                 extra := extra newSettings |};
            counter := counter (mLastSettings a) + 1 |}
       /\ IsActive st2 = GetActive (extra newSettings)
       /\ (mwInstance st = None -> mLastActive st2 = active)
       /\ (forall i, mwInstance st = Some i ->
             fst (if active then RealtimeResume i else RealtimeSuspend i)
             = true ->
             mLastActive st2 = active).
Proof.
  intros Ha Hv Hne.
  set (last := {| settings := newSettings;
                  counter := counter (mLastSettings a) + 1 |}).
  set (a1 := MainWrite last
               {| mChannelFromMain := mChannelFromMain a;
                  mCounter := mCounter a; mLastSettings := last;
                  mChannelToMain := mChannelToMain a |}).
  assert (Hset : Access_Set (Some st) newSettings
                 = Some (set_mpAccessState (Some a1) st)).
  { unfold Access_Set, GetAccessState. now rewrite Hv, Ha. }
  assert (Hp1 : pending a1 = last) by apply pending_MessageBuffer_Write.
  set (st1 := set_mpAccessState (Some a1) st) in *.
  exists st1. split; [exact Hset|]. cbv zeta.
  destruct (ProcessStart_exchange running st1) as (_ & Hw & _).
  destruct (drain_exchange st1) as (_ & _ & _ & _ & _ & _ & Hd).
  specialize (Hd a1 eq_refl). rewrite Hp1 in Hd.
  unfold FromMainSlot_Reader in Hd. simpl in Hd.
  destruct (Z.eqb_spec (counter (mLastSettings a) + 1)
              (counter (mWorkerSettings st))) as [He|_]; [congruence|].
  simpl in Hd.
  assert (Hact : IsActive (drain st1) = GetActive (extra newSettings)).
  { unfold IsActive. now rewrite Hd. }
  split; [now rewrite Hw, Hd|].
  split; [unfold IsActive; now rewrite Hw, Hd|]. split.
  - intros Hi.
    destruct (ProcessStart_without_instance running st1 Hi) as (_ & Hl & _).
    now rewrite Hl, Hact.
  - intros i Hi Hhook.
    destruct (ProcessStart_with_instance running st1 i Hi)
      as (_ & Hchange & Hsame).
    cbv zeta in Hchange, Hsame. rewrite Hact in Hchange, Hsame.
    destruct (bool_decide (GetActive (extra newSettings) && running
                           = mLastActive st1)) eqn:Hdec.
    + apply bool_decide_eq_true in Hdec. rewrite (Hsame Hdec). now symmetry.
    + apply bool_decide_eq_false in Hdec.
      destruct (Hchange Hdec) as (_ & _ & Hok). now apply Hok.
Qed.

(** *** ProcessStart, block after block *)

Lemma WorkerRead_same a st :
  counter (pending a) = counter (mWorkerSettings st) -> WorkerRead a st = st.
Proof.
  intros He. rewrite WorkerRead_unfold. unfold FromMainSlot_Reader.
  simpl. rewrite He, Z.eqb_refl. simpl. rewrite app_nil_r. now destruct st.
Qed.

(** After [ProcessStart] the channel from the main thread holds nothing
    new. *)
Lemma drain_ProcessStart running st :
  drain (snd (ProcessStart running st)) = snd (ProcessStart running st).
Proof.
  destruct (ProcessStart_exchange running st) as (Ha & Hw & _).
  destruct (drain_exchange st) as (Hd & _).
  unfold drain at 1, TestAccessState. rewrite Ha, Hd.
  destruct (mpAccessState st) as [a|] eqn:Hacc; [|reflexivity].
  apply WorkerRead_same. rewrite Hw. symmetry. now apply drain_counter.
Qed.

Lemma ProcessStart_instance running st :
  mwInstance st = None -> mwInstance (snd (ProcessStart running st)) = None.
Proof.
  intros Hi. destruct (drain_keeps st) as (Hd & _). rewrite Hi in Hd.
  unfold ProcessStart, ProcessStart_tail. rewrite Hd.
  destruct (eqb _ _); simpl; now rewrite ?Hd.
Qed.

(** X12. Transitions are not repeated.  When [ProcessStart] is called again
    with the same [running], nothing new having come from the main thread,
    it reads nothing from the channel, and it invokes a suspend or resume
    hook only if the hook that the previous call invoked had failed. *)
Theorem ProcessStart_settles running st :
  let st1 := snd (ProcessStart running st) in
  let st2 := snd (ProcessStart running st1) in
  drain st1 = st1
  /\ mWorkerSettings st2 = mWorkerSettings st1
  /\ (filter is_transition (made_since st1 st2) <> [] ->
      filter is_transition (made_since st st1) = [CallRealtimeSuspend false]
      \/ filter is_transition (made_since st st1)
         = [CallRealtimeResume false])
  /\ (mLastActive st1 = IsActive st1 && running ->
      filter is_transition (made_since st1 st2) = []
      /\ mLastActive st2 = mLastActive st1).
Proof.
  cbv zeta.
  pose proof (drain_ProcessStart running st) as Hdrain.
  set (st1 := snd (ProcessStart running st)) in *.
  destruct (ProcessStart_exchange running st1) as (_ & Hw2 & _).
  rewrite Hdrain in Hw2.
  destruct (ProcessStart_exchange running st) as (_ & Hw1 & _).
  fold st1 in Hw1.
  assert (Hact : IsActive st1 = IsActive (drain st)).
  { unfold IsActive. now rewrite Hw1. }
  split; [exact Hdrain|]. split; [exact Hw2|].
  assert (Hsecond : mLastActive st1 = IsActive st1 && running ->
            filter is_transition
              (made_since st1 (snd (ProcessStart running st1))) = []
            /\ mLastActive (snd (ProcessStart running st1))
               = mLastActive st1).
  { intros Hl. destruct (mwInstance st1) as [j|] eqn:Hj.
    - destruct (ProcessStart_with_instance running st1 j Hj)
        as (Hiff & _ & Hsame).
      cbv zeta in Hiff, Hsame. rewrite Hdrain in Hiff, Hsame.
      split; [|now apply Hsame].
      destruct (filter is_transition _) as [|c l] eqn:Hf; [reflexivity|].
      exfalso. apply (proj1 Hiff); [discriminate | now symmetry].
    - destruct (ProcessStart_without_instance running st1 Hj)
        as (_ & Hl2 & Hnone).
      rewrite Hdrain in Hl2. split; [exact Hnone | congruence]. }
  split; [|exact Hsecond].
  intros Hhooks.
  assert (Hl : mLastActive st1 <> IsActive st1 && running).
  { intros Hl. now destruct (Hsecond Hl). }
  destruct (mwInstance st) as [i|] eqn:Hi.
  - destruct (ProcessStart_with_instance running st i Hi)
      as (_ & Hchange & Hsame).
    cbv zeta in Hchange, Hsame. fold st1 in Hchange, Hsame.
    rewrite <- Hact in Hchange, Hsame.
    destruct (bool_decide (IsActive st1 && running = mLastActive st))
      eqn:Hdec.
    + apply bool_decide_eq_true in Hdec. rewrite (Hsame Hdec) in Hl.
      now symmetry in Hdec.
    + apply bool_decide_eq_false in Hdec.
      destruct (Hchange Hdec) as (Hlist & _ & Hok).
      destruct (IsActive st1 && running) eqn:Hactive.
      * destruct (RealtimeResume i) as [[] i']; simpl in *;
          [now specialize (Hok eq_refl) | now right].
      * destruct (RealtimeSuspend i) as [[] i']; simpl in *;
          [now specialize (Hok eq_refl) | now left].
  - destruct (ProcessStart_without_instance running st Hi) as (_ & Hl1 & _).
    fold st1 in Hl1. rewrite <- Hact in Hl1. contradiction.
Qed.

(** X13. A true answer of [ProcessStart] means that the block is to be
    processed: the transport runs, the worker's settings are active, the
    recorded activity is true and an instance is alive, so that, with its
    plugin bound, the state is engaged and [Process] does not pass the
    audio through.  [ProcessStart] never answers true when the transport
    does not run, when the settings are not active or when no instance is
    alive. *)
Theorem ProcessStart_true_engages running st :
  fst (ProcessStart running st) = true ->
  let st' := snd (ProcessStart running st) in
  running = true
  /\ IsActive st' = true
  /\ mLastActive st' = true
  /\ is_Some (mwInstance st')
  /\ (mPlugin st = true -> engaged st').
Proof.
  intros Hres. cbv zeta.
  destruct (ProcessStart_exchange running st) as (_ & Hw & _ & _ & Hp & _).
  destruct (drain_exchange st) as (_ & _ & _ & Hdp & _).
  assert (Hact : IsActive (snd (ProcessStart running st))
                 = IsActive (drain st)).
  { unfold IsActive. now rewrite Hw. }
  assert (H : IsActive (drain st) && running = true
              /\ mLastActive (snd (ProcessStart running st)) = true
              /\ is_Some (mwInstance (snd (ProcessStart running st)))).
  { revert Hres. unfold ProcessStart. set (d := drain st).
    assert (Htail : forall active (s : State),
              fst (ProcessStart_tail active s) = true ->
              active = true
              /\ mLastActive (snd (ProcessStart_tail active s))
                 = mLastActive s
              /\ is_Some (mwInstance (snd (ProcessStart_tail active s)))).
    { intros active s. unfold ProcessStart_tail, invoke.
      destruct (mwInstance s) as [i|] eqn:Hi; simpl; [|discriminate].
      destruct active; simpl; [|discriminate]. rewrite ?Hi.
      destruct (RealtimeProcessStart _ i) as [ok i']. simpl. eauto. }
    destruct (eqb_spec (IsActive d && running) (mLastActive d)) as [He|Hne].
    - intros Hres. destruct (Htail _ _ Hres) as (H1 & H2 & H3).
      split; [exact H1|]. split; [congruence | exact H3].
    - destruct (mwInstance d) as [i|] eqn:Hi.
      + unfold invoke. rewrite Hi.
        destruct (IsActive d && running) eqn:Ha.
        * destruct (RealtimeResume i) as [[] i']; simpl; [|discriminate].
          intros Hres. destruct (Htail _ _ Hres) as (H1 & H2 & H3).
          split; [reflexivity|]. split; [now rewrite H2 | exact H3].
        * destruct (RealtimeSuspend i) as [[] i']; simpl; discriminate.
      + intros Hres. destruct (Htail _ _ Hres) as (H1 & H2 & H3).
        split; [exact H1|]. split; [now rewrite H2 | exact H3]. }
  destruct H as (Ha & Hl & Hi). apply andb_true_iff in Ha.
  destruct Ha as [Ha Hr].
  split; [exact Hr|]. split; [congruence|]. split; [exact Hl|].
  split; [exact Hi|]. intros Hplugin. unfold engaged.
  split; [congruence | auto].
Qed.

(** *** What a processing scope leaves of the settings *)

Lemma EnsureInstance_settings (sampleRate : Rate) st :
  let st1 := snd (EnsureInstance sampleRate st) in
  mPlugin st1 = mPlugin st
  /\ mMainSettings st1 = mMainSettings st
  /\ mWorkerSettings st1
     = if mPlugin st && negb (mInitialized st)
       then mMainSettings st else mWorkerSettings st.
Proof.
  unfold EnsureInstance.
  destruct (mPlugin st) eqn:Hp; simpl; [|auto].
  destruct (mInitialized st); simpl; [now destruct (mwInstance st)|].
  destruct (mwInstance st) as [i|] eqn:Hi; simpl; rewrite ?Hi.
  - unfold invoke. simpl.
    match goal with |- context [RealtimeInitialize ?s ?r ?j] =>
      now destruct (RealtimeInitialize s r j) as [[] i'] end.
  - destruct MakeInstance as [i|]; simpl; [|auto].
    unfold invoke. simpl.
    match goal with |- context [RealtimeInitialize ?s ?r ?j] =>
      now destruct (RealtimeInitialize s r j) as [[] i'] end.
Qed.

Lemma perform_all_app (ops1 ops2 : list Operation) w :
  perform_all defaultExtra zeroRate (ops1 ++ ops2) w
  = match perform_all defaultExtra zeroRate ops1 w with
    | Some w1 => perform_all defaultExtra zeroRate ops2 w1
    | None => None
    end.
Proof.
  revert w. induction ops1 as [|op ops1 IH]; intros w; simpl; [reflexivity|].
  destruct (perform _ _ op w); [apply IH | reflexivity].
Qed.

(** A quiet operation leaves the plugin bound and the settings of both
    sides as they are. *)
Lemma quiet_keeps_settings (op : Operation) st m st' m' :
  quiet op = true ->
  perform defaultExtra zeroRate op (st, m) = Some (st', m') ->
  mPlugin st = true -> mWorkerSettings st = mMainSettings st ->
  mPlugin st' = true
  /\ mMainSettings st' = mMainSettings st
  /\ mWorkerSettings st' = mMainSettings st.
Proof.
  destruct op as [mID raw|newSettings| |fuel running|sampleRate
                 |fuel track chans sampleRate|running
                 |fuel track chans inbuf outbuf numSamples| |];
    try discriminate; intros _; cbn [perform]; intros Hrun Hp Hw.
  - (* Set *)
    revert Hrun. unfold Access_Set, GetAccessState.
    destruct (has_value newSettings); simpl; [|intros [= <- <-]; auto].
    destruct (mpAccessState st); intros [= <- <-]; simpl; auto.
  - (* Get *)
    revert Hrun. destruct (mpAccessState st) as [a|] eqn:Ha.
    + destruct (Access_Get_spec st a Ha) as [a' [moved [-> _]]]. simpl.
      destruct (mInitialized st); intros [= <- <-]; simpl; auto.
    + unfold Access_Get, GetAccessState. rewrite Ha. simpl.
      intros [= <- <-]. auto.
  - (* Initialize *)
    injection Hrun as <- <-. unfold Initialize. rewrite Hp. simpl.
    match goal with |- context [EnsureInstance sampleRate ?s] =>
      destruct (EnsureInstance_settings sampleRate s) as (H1 & H2 & H3) end.
    simpl in H1, H2, H3. rewrite H1, H2, H3, Hp. simpl.
    destruct (mInitialized st); simpl; auto.
  - (* AddTrack *)
    destruct (AddTrack _ _ _ _ st) as [[b st1]|] eqn:Ha; [|discriminate].
    injection Hrun as <- <-. apply AddTrack_exchange in Ha.
    destruct Ha as (_ & A2 & A3 & _ & A5 & _).
    destruct (EnsureInstance_settings sampleRate st) as (H1 & H2 & H3).
    cbv zeta in H1, H2, H3. rewrite A2, A3, A5, H1, H2, H3, Hp. simpl.
    destruct (mInitialized st); simpl; auto.
  - (* Process *)
    destruct (Process _ _ _ _ _ _ _ st m) as [[d [st1 m1]]|] eqn:Hpr;
      [|discriminate].
    injection Hrun as <- <-. apply Process_exchange in Hpr.
    destruct Hpr as ((_ & A2 & A3 & _ & A5 & _) & _).
    rewrite A2, A3, A5. auto.
  - (* ProcessEnd *)
    injection Hrun as <- <-.
    destruct (ProcessEnd_spec st) as (A1 & A2 & _ & _ & A5 & _).
    cbv zeta in A1, A2, A5. rewrite A1, A2, A5. auto.
Qed.

(** X14. A processing scope gives the main settings back.  When a scope is
    opened by [Initialize] on a state with a bound plugin that is not
    initialized, and closed by [Finalize], and the calls in between are
    [Initialize], [AddTrack], [Process], [ProcessEnd], [Set] and [Get] in
    any number and order (no [ProcessStart] reads the channel, no [Flush]
    publishes), then the main settings are afterwards what they were
    before, revision included, whether or not the instance could be made
    and initialized. *)
Theorem scope_gives_main_settings_back (sampleRate : Rate)
    (ops : list Operation) st m st' m' :
  mPlugin st = true ->
  mInitialized st = false ->
  Forall (fun op => quiet op = true) ops ->
  perform_all defaultExtra zeroRate
    (DoInitialize sampleRate :: ops ++ [DoFinalize]) (st, m)
  = Some (st', m') ->
  mMainSettings st' = mMainSettings st.
Proof.
  intros Hp Hini Hquiet. cbn [perform_all perform].
  rewrite perform_all_app.
  assert (H0 : mPlugin (snd (Initialize sampleRate st)) = true
               /\ mMainSettings (snd (Initialize sampleRate st))
                  = mMainSettings st
               /\ mWorkerSettings (snd (Initialize sampleRate st))
                  = mMainSettings st).
  { unfold Initialize. rewrite Hp. simpl.
    match goal with |- context [EnsureInstance sampleRate ?s] =>
      destruct (EnsureInstance_settings sampleRate s) as (H1 & H2 & H3) end.
    simpl in H1, H2, H3. rewrite H1, H2, H3, Hp, Hini. auto. }
  revert H0. generalize (snd (Initialize sampleRate st)). intros s0.
  revert s0 m. induction Hquiet as [|op ops Hop Hops IH];
    intros s0 m (J1 & J2 & J3).
  - cbn [perform_all perform]. intros [= <- <-].
    unfold Finalize, invoke. simpl.
    destruct (mwInstance s0) as [i|]; simpl; [|congruence].
    destruct (RealtimeFinalize _ i). simpl. congruence.
  - cbn [perform_all].
    destruct (perform defaultExtra zeroRate op (s0, m)) as [[s1 m1]|] eqn:Hrun;
      [|discriminate].
    destruct (quiet_keeps_settings op s0 m s1 m1 Hop Hrun J1)
      as (K1 & K2 & K3); [congruence|].
    apply IH. repeat split; congruence.
Qed.

(** X15. What [Process] leaves alone, whenever it returns, on the active
    path as on the pass-through path: the settings of both sides, the
    AccessState, the outputs objects, the plugin, the initialized flag, the
    recorded activity and the processor index.  Of the groups it changes
    nothing, except that on the active path a track that was never added
    gets an entry of its own, with first processor 0 and a
    default-constructed sample rate. *)
Theorem Process_keeps_bookkeeping fuel (track : Track) chans
    (inbuf outbuf : list ptr) numSamples st (m : gmap nat (list Sample))
    d st' m' :
  Process zeroRate fuel track chans inbuf outbuf numSamples st m
  = Some (d, (st', m')) ->
  same_exchange st st'
  /\ mCurrentProcessor st' = mCurrentProcessor st
  /\ mLastActive st' = mLastActive st
  /\ (is_Some (mGroups st !! track) \/ ~ engaged st ->
      mGroups st' = mGroups st)
  /\ (mGroups st !! track = None -> engaged st ->
      mGroups st' = <[track := (0, zeroRate)]> (mGroups st)).
Proof. apply Process_exchange. Qed.

(** *** The outputs *)

Lemma WorkerWrite_outputs a st (produced : Outputs) :
  mOutputs st = Some produced ->
  slots_hold_outputs a ->
  (forall src dst, fst (Assign src dst) = src) ->
  exists a' left_over,
    WorkerWrite a st
    = set_mpAccessState (Some a') (set_mOutputs left_over st)
    /\ MessageBuffer_Read (fun slot => pOutputs (mResponse slot))
         (mChannelToMain a') = Some produced
    /\ slots_hold_outputs a'.
Proof.
  intros Ho [[o0 H0] [o1 H1]] Hassign.
  unfold WorkerWrite, MessageBuffer_Write_moving, ToMainSlot_assign,
    MessageBuffer_Read, slots_hold_outputs.
  rewrite Ho. simpl.
  destruct (current (mChannelToMain a)) eqn:Hc; rewrite ?H0, ?H1.
  - pose proof (Hassign produced o0) as Hs.
    destruct (Assign produced o0) as [dst' src']. simpl in Hs. subst dst'.
    eexists _, _. split; [reflexivity|]. simpl. rewrite H1. eauto.
  - pose proof (Hassign produced o1) as Hs.
    destruct (Assign produced o1) as [dst' src']. simpl in Hs. subst dst'.
    eexists _, _. split; [reflexivity|]. simpl. rewrite H0. eauto.
Qed.

Lemma MainRead_outputs a st (produced moved : Outputs) :
  MessageBuffer_Read (fun slot => pOutputs (mResponse slot))
    (mChannelToMain a) = Some produced ->
  mMovedOutputs st = Some moved ->
  slots_hold_outputs a ->
  (forall src dst, fst (Assign src dst) = src) ->
  exists a',
    MainRead a st
    = set_mpAccessState (Some a') (set_mMovedOutputs (Some produced) st)
    /\ slots_hold_outputs a'.
Proof.
  intros Hcur Hm [[o0 H0] [o1 H1]] Hassign.
  unfold MainRead, MessageBuffer_Read_moving, ToMainSlot_Reader,
    slots_hold_outputs.
  unfold MessageBuffer_Read in Hcur. rewrite Hm.
  destruct (current (mChannelToMain a)) eqn:Hc; rewrite Hcur.
  - pose proof (Hassign produced moved) as Hs.
    destruct (Assign produced moved) as [dst' src']. simpl in Hs. subst dst'.
    eexists. split; [reflexivity|]. simpl. rewrite H0. eauto.
  - pose proof (Hassign produced moved) as Hs.
    destruct (Assign produced moved) as [dst' src']. simpl in Hs. subst dst'.
    eexists. split; [reflexivity|]. simpl. rewrite H1. eauto.
Qed.

(** X16. The outputs of the worker reach the main thread.  (The state and
    both cells of the channel hold outputs objects, and assigning an outputs
    object gives the destination the value of the source.)  After
    [ProcessEnd], one flush attempt of the main thread leaves in the main
    thread's outputs object the value that the worker's outputs object had
    at [ProcessEnd]; the cells still hold outputs objects. *)
Theorem outputs_reach_the_main_thread st a (produced moved : Outputs) :
  mpAccessState st = Some a ->
  mInitialized st = true ->
  mOutputs st = Some produced ->
  mMovedOutputs st = Some moved ->
  slots_hold_outputs a ->
  (forall src dst, fst (Assign src dst) = src) ->
  exists a1 b st2 a2,
    mpAccessState (snd (ProcessEnd st)) = Some a1
    /\ FlushAttempt a1 (snd (ProcessEnd st)) = Some (b, st2)
    /\ mMovedOutputs st2 = Some produced
    /\ mpAccessState st2 = Some a2
    /\ slots_hold_outputs a2.
Proof.
  intros Ha Hi Ho Hm Hslots Hassign.
  assert (Hend : exists s1 : State,
            snd (ProcessEnd st) = WorkerWrite a s1
            /\ mOutputs s1 = Some produced /\ mMovedOutputs s1 = Some moved
            /\ mInitialized s1 = true).
  { unfold ProcessEnd, TestAccessState.
    destruct (mwInstance st) as [i|]; simpl.
    - destruct (IsActive st && mLastActive st); simpl.
      + destruct (RealtimeProcessEnd _ i) as [ok i']. simpl. rewrite Ha.
        simpl. eexists. split; [reflexivity|]. auto.
      + rewrite Ha. simpl. eexists. split; [reflexivity|]. auto.
    - rewrite Ha. simpl. eexists. split; [reflexivity|]. auto. }
  destruct Hend as [s1 (-> & Ho1 & Hm1 & Hi1)].
  destruct (WorkerWrite_outputs a s1 produced Ho1 Hslots Hassign)
    as [a1 [left_over (-> & Hcur & Hslots1)]].
  destruct (MainRead_outputs a1
              (set_mpAccessState (Some a1) (set_mOutputs left_over s1))
              produced moved Hcur Hm1 Hslots1 Hassign)
    as [a2 (Hread & Hslots2)].
  exists a1. unfold FlushAttempt. simpl. rewrite Hi1. simpl.
  rewrite Hread. unfold GetAccessState. simpl.
  eexists _, _, a2. split; [reflexivity|]. split; [reflexivity|].
  split; [reflexivity|]. split; [reflexivity | exact Hslots2].
Qed.

(** *** An instance that has expired *)

(** X17. An instance that expires while the state is initialized is not
    replaced by the realtime lifecycle: on such a state [Initialize] and
    [AddTrack] fail, [ProcessStart] answers false and [Finalize] fails
    without clearing the initialized flag, none of them calls the instance
    or makes one ([ProcessStart] may have the settings copied), and the
    state is afterwards as expired as it was, so that it stays so under any
    sequence of these calls. *)
Theorem expired_instance_is_not_replaced st :
  expired st ->
  (forall sampleRate : Rate,
     fst (Initialize sampleRate st) = false
     /\ expired (snd (Initialize sampleRate st))
     /\ calls (snd (Initialize sampleRate st)) = calls st)
  /\ (forall fuel (track : Track) chans (sampleRate : Rate),
        AddTrack fuel track chans sampleRate st = Some (false, st))
  /\ (forall running,
        fst (ProcessStart running st) = false
        /\ expired (snd (ProcessStart running st))
        /\ (made_since st (snd (ProcessStart running st)) = []
            \/ made_since st (snd (ProcessStart running st))
               = [CallCopySettingsContents]))
  /\ fst (Finalize st) = false
  /\ expired (snd (Finalize st))
  /\ calls (snd (Finalize st)) = calls st.
Proof.
  intros [Hini Hi].
  assert (He : forall (sampleRate : Rate) (s : State),
            mInitialized s = true -> mwInstance s = None ->
            EnsureInstance sampleRate s = (false, s)).
  { intros sampleRate s H1 H2. unfold EnsureInstance. rewrite H1, H2.
    now destruct (mPlugin s). }
  split; [|split; [|split]].
  - intros sampleRate. unfold Initialize.
    destruct (mPlugin st); simpl; [|unfold expired; auto].
    rewrite He by assumption. unfold expired. simpl. auto.
  - intros fuel track chans sampleRate. unfold AddTrack.
    now rewrite He.
  - intros running.
    destruct (ProcessStart_without_instance running st Hi) as (H1 & _).
    destruct (ProcessStart_exchange running st) as (_ & _ & _ & H4 & _).
    destruct (drain_exchange st) as (_ & _ & H3 & _).
    split; [exact H1|]. split.
    + split; [congruence | now apply ProcessStart_instance].
    + assert (Hcalls : calls (snd (ProcessStart running st))
                       = calls (drain st)).
      { destruct (drain_keeps st) as (Hd & _). rewrite Hi in Hd.
        unfold ProcessStart, ProcessStart_tail. rewrite Hd.
        destruct (eqb _ _); simpl; now rewrite ?Hd. }
      unfold made_since. rewrite Hcalls. unfold drain, TestAccessState.
      destruct (mpAccessState st) as [a|];
        [|left; now rewrite drop_all].
      rewrite WorkerRead_unfold. simpl. rewrite drop_app_length.
      unfold FromMainSlot_Reader. destruct (_ =? _); simpl; auto.
  - unfold Finalize, invoke. simpl. rewrite Hi. simpl.
    unfold expired. simpl. auto.
Qed.

End ExchangeFacts.

(** * More on the channel allocator and on Process *)

Section AllocatorBounds.
Context {St : Type}.
Implicit Types (f : @Callback St) (s : St).

Lemma alloc_from_in_bounds f chans numAudioIn numAudioOut fuel :
  forall indx ondx seen s seen' s',
    0 <= ondx -> (ondx < chans -> 0 <= indx < chans) ->
    Forall (fun p => 0 <= fst p < chans /\ 0 <= snd p < chans) seen ->
    AllocateChannelsToProcessors_from fuel chans numAudioIn numAudioOut
      (recording f) indx ondx (seen, s) = Some (seen', s') ->
    Forall (fun p => 0 <= fst p < chans /\ 0 <= snd p < chans) seen'.
Proof.
  induction fuel as [|fuel IH]; intros indx ondx seen s seen' s' Ho Hi Hseen;
    simpl; [discriminate|].
  destruct (Z.ltb_spec ondx chans) as [Hlt|_]; [|now intros [= <- <-]].
  destruct (f indx ondx s) as [[b s1]|] eqn:Hf; [|discriminate].
  assert (Hseen1 : Forall (fun p => 0 <= fst p < chans /\ 0 <= snd p < chans)
                     (seen ++ [(indx, ondx)])).
  { apply Forall_app. split; [exact Hseen|].
    constructor; [simpl; split; [auto | lia] | constructor]. }
  destruct b; [|now intros [= <- <-]].
  apply IH; [apply wrap32_range | | exact Hseen1].
  intros _. apply Z.mod_pos_bound. lia.
Qed.

(** X18. Whatever the callback, the arities and the channel count, every
    pair of offsets that the allocator passes to the callback indexes the
    arrays of [chans] buffers: both offsets are at least 0 and below
    [chans].  (With no channel, the callback is not invoked.) *)
Theorem alloc_offsets_in_bounds f fuel chans numAudioIn numAudioOut s
    seen s' :
  AllocateChannelsToProcessors fuel chans numAudioIn numAudioOut
    (recording f) ([], s) = Some (seen, s') ->
  Forall (fun p => 0 <= fst p < chans /\ 0 <= snd p < chans) seen
  /\ (chans <= 0 -> seen = []).
Proof.
  intros Hrun. split.
  - revert Hrun. unfold AllocateChannelsToProcessors.
    apply alloc_from_in_bounds; [lia | lia | constructor].
  - intros Hc. revert Hrun. unfold AllocateChannelsToProcessors.
    destruct fuel as [|fuel]; simpl; [discriminate|].
    destruct (Z.ltb_spec 0 chans); [lia|]. now intros [= <- _].
Qed.

End AllocatorBounds.

Section ClientFacts.
Context {A : Type}.
Implicit Types (l src dst : list A).

Lemma lookup_array_copy src dst pos (k : nat) :
  0 <= pos -> pos + Z.of_nat (length src) <= Z.of_nat (length dst) ->
  array_copy src dst pos !! k
  = if decide (Z.to_nat pos <= k < Z.to_nat pos + length src)%nat
    then src !! (k - Z.to_nat pos)%nat
    else dst !! k.
Proof.
  intros H0 Hb. unfold array_copy.
  assert (Hlt : length (take (Z.to_nat pos) dst) = Z.to_nat pos)
    by (rewrite length_take; lia).
  destruct (decide (Z.to_nat pos <= k < Z.to_nat pos + length src)%nat)
    as [Hin|Hout].
  - rewrite lookup_app_r by lia. rewrite Hlt.
    apply lookup_app_l. lia.
  - destruct (Nat.lt_ge_cases k (Z.to_nat pos)) as [Hk|Hk].
    + rewrite lookup_app_l by lia. apply lookup_take_lt. lia.
    + rewrite lookup_app_r by lia. rewrite Hlt.
      rewrite lookup_app_r by lia. rewrite lookup_drop. f_equal. lia.
Qed.

Lemma lookup_slice l first n (k : nat) :
  0 <= first -> (k < Z.to_nat n)%nat ->
  slice l first n !! k = l !! (Z.to_nat first + k)%nat.
Proof.
  intros H0 Hk. unfold slice. rewrite lookup_take_lt by exact Hk.
  apply lookup_drop.
Qed.

Lemma length_slice l first n :
  0 <= first -> 0 <= n -> first + n <= Z.of_nat (length l) ->
  length (slice l first n) = Z.to_nat n.
Proof.
  intros H0 Hn Hb. unfold slice. rewrite length_take, length_drop. lia.
Qed.

Lemma length_array_fill l first last (v : A) :
  0 <= first <= last -> last <= Z.of_nat (length l) ->
  length (array_fill l first last v) = length l.
Proof.
  intros H0 Hb. unfold array_fill.
  rewrite !length_app, length_take, length_replicate, length_drop. lia.
Qed.

Lemma lookup_array_fill l first last (v : A) (k : nat) :
  0 <= first <= last -> last <= Z.of_nat (length l) ->
  array_fill l first last v !! k
  = if decide (Z.to_nat first <= k < Z.to_nat last)%nat
    then Some v else l !! k.
Proof.
  intros H0 Hb. unfold array_fill.
  assert (Hlt : length (take (Z.to_nat first) l) = Z.to_nat first)
    by (rewrite length_take; lia).
  destruct (decide (Z.to_nat first <= k < Z.to_nat last)%nat) as [Hin|Hout].
  - rewrite lookup_app_r by lia. rewrite Hlt.
    rewrite lookup_app_l by (rewrite length_replicate; lia).
    apply lookup_replicate_2. lia.
  - destruct (Nat.lt_ge_cases k (Z.to_nat first)) as [Hk|Hk].
    + rewrite lookup_app_l by lia. apply lookup_take_lt. lia.
    + rewrite lookup_app_r by lia. rewrite Hlt.
      rewrite lookup_app_r by (rewrite length_replicate; lia).
      rewrite length_replicate, lookup_drop. f_equal. lia.
Qed.

End ClientFacts.

Section ProcessorBuffers.
Implicit Types (inbuf outbuf client : list ptr).

(** The loop that re-uses input channels from the beginning. *)
Lemma reuse_inputs_cycle chans numAudioIn inbuf indx :
  1 <= chans -> 0 <= indx < chans -> 0 <= numAudioIn < 2 ^ 32 ->
  (Z.to_nat chans <= length inbuf)%nat ->
  forall fuel copied client,
    0 <= copied <= numAudioIn ->
    length client = Z.to_nat numAudioIn ->
    copied = numAudioIn \/ (indx + copied) mod chans = 0 ->
    (forall j : nat, (j < Z.to_nat copied)%nat ->
       client !! j = inbuf !! Z.to_nat ((indx + Z.of_nat j) mod chans)) ->
    (Z.to_nat (numAudioIn - copied) < fuel)%nat ->
    exists l,
      reuse_inputs fuel chans numAudioIn inbuf copied client = Some l
      /\ length l = Z.to_nat numAudioIn
      /\ forall j : nat, (j < Z.to_nat numAudioIn)%nat ->
           l !! j = inbuf !! Z.to_nat ((indx + Z.of_nat j) mod chans).
Proof.
  intros Hc Hindx Hin Hlen.
  induction fuel as [|fuel IH]; intros copied client Hcop Hcl Hcyc Hinv Hfuel;
    [lia|]. simpl.
  rewrite (wrap32_small (numAudioIn - copied)) by lia.
  destruct (Z.eqb_spec (numAudioIn - copied) 0) as [He|Hne].
  - exists client. split; [reflexivity|]. split; [exact Hcl|].
    intros j Hj. apply Hinv. lia.
  - set (more := Z.min chans (numAudioIn - copied)).
    assert (Hmore : 1 <= more <= chans /\ more <= numAudioIn - copied)
      by (unfold more; lia).
    assert (Hsrc : length (slice inbuf 0 more) = Z.to_nat more)
      by (apply length_slice; lia).
    assert (Hzero : (indx + copied) mod chans = 0)
      by (destruct Hcyc; [lia | assumption]).
    rewrite (wrap32_small (copied + more)) by lia.
    apply IH.
    + lia.
    + rewrite length_array_copy; [exact Hcl | lia | lia].
    + destruct (Z.eq_dec more (numAudioIn - copied)) as [Hm|Hm];
        [left; lia | right].
      assert (more = chans) as -> by (unfold more in *; lia).
      replace (indx + (copied + chans)) with (indx + copied + 1 * chans)
        by lia.
      now rewrite Z.mod_add by lia.
    + intros j Hj. rewrite lookup_array_copy by lia. rewrite Hsrc.
      destruct (decide (Z.to_nat copied <= j
                        < Z.to_nat copied + Z.to_nat more)%nat) as [Hin'|Hout].
      * rewrite lookup_slice by lia. f_equal.
        replace (indx + Z.of_nat j)
          with (indx + copied + (Z.of_nat j - copied)) by lia.
        rewrite <- Z.add_mod_idemp_l by lia. rewrite Hzero. simpl.
        rewrite Z.mod_small by lia. lia.
      * apply Hinv. lia.
    + lia.
Qed.

(** X19. The buffers that [Process] hands to one processor.  Its input
    pointers are the input buffers of the track from the input offset on,
    taken cyclically: the j-th is the buffer of channel (indx + j) mod
    chans, so that a processor with more inputs than there are channels
    re-uses channels from the beginning; the loop that does so ends.  Its
    output pointers are the output buffers from the output offset on; those
    beyond the last channel are null. *)
Theorem client_buffers_cycle fuel chans numAudioIn numAudioOut
    inbuf outbuf indx ondx (clientIn clientOut : list ptr) :
  1 <= chans < 2 ^ 32 -> 0 <= indx < chans -> 0 <= ondx < chans ->
  0 <= numAudioIn < 2 ^ 32 -> 0 <= numAudioOut ->
  (Z.to_nat chans <= length inbuf)%nat ->
  (Z.to_nat chans <= length outbuf)%nat ->
  length clientIn = Z.to_nat numAudioIn ->
  length clientOut = Z.to_nat numAudioOut ->
  (Z.to_nat numAudioIn < fuel)%nat ->
  (exists newIn,
      client_inputs fuel chans numAudioIn inbuf indx clientIn = Some newIn
      /\ length newIn = Z.to_nat numAudioIn
      /\ forall j : nat, (j < Z.to_nat numAudioIn)%nat ->
           newIn !! j = inbuf !! Z.to_nat ((indx + Z.of_nat j) mod chans))
  /\ length (client_outputs chans numAudioOut outbuf ondx clientOut)
     = Z.to_nat numAudioOut
  /\ forall j : nat, (j < Z.to_nat numAudioOut)%nat ->
       client_outputs chans numAudioOut outbuf ondx clientOut !! j
       = if ondx + Z.of_nat j <? chans
         then outbuf !! Z.to_nat (ondx + Z.of_nat j)
         else Some None.
Proof.
  intros Hc Hindx Hondx Hin Hout Hli Hlo Hci Hco Hfuel. split.
  - unfold client_inputs. rewrite (wrap32_small (chans - indx)) by lia.
    set (copied := Z.min (chans - indx) numAudioIn).
    assert (Hsrc : length (slice inbuf indx copied) = Z.to_nat copied)
      by (apply length_slice; unfold copied; lia).
    apply (reuse_inputs_cycle chans numAudioIn inbuf indx ltac:(lia) Hindx
             Hin Hli).
    + unfold copied. lia.
    + rewrite length_array_copy; [exact Hci | lia | unfold copied in *; lia].
    + destruct (Z.eq_dec copied numAudioIn) as [He|Hne]; [now left | right].
      assert (copied = chans - indx) as -> by (unfold copied in *; lia).
      replace (indx + (chans - indx)) with chans by lia.
      apply Z_mod_same_full.
    + intros j Hj. rewrite lookup_array_copy by (unfold copied in *; lia).
      rewrite Hsrc. change (Z.to_nat 0) with 0%nat.
      destruct (decide (0 <= j < 0 + Z.to_nat copied)%nat) as [_|Hn];
        [|lia].
      rewrite lookup_slice by lia. f_equal.
      rewrite Z.mod_small by (unfold copied in *; lia). lia.
    + unfold copied. lia.
  - unfold client_outputs. rewrite (wrap32_small (chans - ondx)) by lia.
    set (copied := Z.min (chans - ondx) numAudioOut).
    assert (Hsrc : length (slice outbuf ondx copied) = Z.to_nat copied)
      by (apply length_slice; unfold copied; lia).
    assert (Hlen : length (array_copy (slice outbuf ondx copied) clientOut 0)
                   = Z.to_nat numAudioOut).
    { rewrite length_array_copy; [exact Hco | lia | unfold copied in *; lia]. }
    assert (Hlook : forall j : nat, (j < Z.to_nat copied)%nat ->
              array_copy (slice outbuf ondx copied) clientOut 0 !! j
              = outbuf !! Z.to_nat (ondx + Z.of_nat j)).
    { intros j Hj. rewrite lookup_array_copy by (unfold copied in *; lia).
      rewrite Hsrc. change (Z.to_nat 0) with 0%nat.
      destruct (decide (0 <= j < 0 + Z.to_nat copied)%nat) as [_|Hn];
        [|lia].
      rewrite lookup_slice by lia. f_equal. lia. }
    destruct (Z.ltb_spec copied numAudioOut) as [Hlt|Hge].
    + assert (Hcop : copied = chans - ondx) by (unfold copied in *; lia).
      split; [rewrite length_array_fill; [exact Hlen | lia | lia]|].
      intros j Hj. rewrite lookup_array_fill by lia.
      destruct (decide (Z.to_nat copied <= j < Z.to_nat numAudioOut)%nat)
        as [Hin'|Hout'].
      * destruct (Z.ltb_spec (ondx + Z.of_nat j) chans); [lia | reflexivity].
      * destruct (Z.ltb_spec (ondx + Z.of_nat j) chans); [|lia].
        apply Hlook. lia.
    + assert (Hcop : copied = numAudioOut) by (unfold copied in *; lia).
      split; [exact Hlen|]. intros j Hj.
      destruct (Z.ltb_spec (ondx + Z.of_nat j) chans);
        [|unfold copied in *; lia].
      apply Hlook. lia.
Qed.

End ProcessorBuffers.

Section RequestFacts.
Context {Contents ExtraOther Outputs Inst Sample Rate : Type}.
Context (zeroRate : Rate).
Context {instance :
  @EffectInstance Contents ExtraOther Outputs Inst Sample Rate}.

Abbreviation State :=
  (@RealtimeEffectState Contents ExtraOther Outputs Inst Rate).
Abbreviation Frame :=
  (@ProcessFrame Contents ExtraOther Outputs Inst Sample Rate).

Implicit Types (st : State) (fr : Frame) (i : Inst)
  (m : gmap nat (list Sample)).

(** [Process_visit] points the processor at its buffers and runs the inner
    loop. *)
Lemma Process_visit_buffers fuel chans numAudioIn numAudioOut
    (inbuf outbuf : list ptr) numSamples (rate : Rate) indx ondx fr :
  Process_visit fuel chans numAudioIn numAudioOut inbuf outbuf numSamples
    rate indx ondx fr
  = match client_inputs fuel chans numAudioIn inbuf indx (clientIn fr) with
    | None => None
    | Some newIn =>
        match mwInstance (this fr) with
        | None => None
        | Some pInstance =>
            match process_blocks fuel ondx numSamples
                    (GetBlockSize pInstance) rate 0
                    {| clientIn := newIn;
                       clientOut :=
                         client_outputs chans numAudioOut outbuf ondx
                           (clientOut fr);
                       len := len fr; processor := processor fr;
                       this := this fr; memory := memory fr |} with
            | None => None
            | Some fr =>
                Some (true,
                      {| clientIn := clientIn fr; clientOut := clientOut fr;
                         len := len fr; processor := processor fr + 1;
                         this := this fr; memory := memory fr |})
            end
        end
    end.
Proof. reflexivity. Qed.

Lemma requests_app (l1 l2 : list Call) :
  requests (l1 ++ l2) = requests l1 ++ requests l2.
Proof. apply omap_app. Qed.

(** One block: one request, for the frames of the block. *)
Lemma process_block_requests ondx (rate : Rate) cnt fr :
  engaged (this fr) ->
  exists fr' made,
    process_block ondx rate cnt fr = Some fr'
    /\ engaged (this fr')
    /\ processor fr' = processor fr
    /\ clientIn fr' = map (advance cnt) (clientIn fr)
    /\ clientOut fr' = map (advance cnt) (clientOut fr)
    /\ calls (this fr') = calls (this fr) ++ made
    /\ requests made = [(processor fr, cnt)].
Proof.
  intros (Hp & Hl & [i Hi]). unfold process_block. rewrite Hi.
  destruct (RealtimeProcess _ _ _ _ cnt i (memory fr))
    as [processed [i' m']].
  unfold note, set_calls, set_mwInstance, set_mLatency, engaged. simpl.
  destruct (mLatency (this fr)) as [known|]; simpl;
    destruct (ondx =? 0); simpl;
    eexists _, _; (split; [reflexivity|]); simpl;
    (split; [eauto|]); (split; [reflexivity|]); (split; [reflexivity|]);
    (split; [reflexivity|]);
    (split; [rewrite <- ?app_assoc; reflexivity | reflexivity]).
Qed.

(** The inner loop, entered at the j-th block. *)
Lemma process_blocks_requests ondx numSamples blockSize (rate : Rate) :
  0 <= numSamples <= 2 ^ 63 -> 1 <= blockSize < 2 ^ 64 ->
  forall (k j : nat) fuel fr,
    (j + k = Z.to_nat (ceil_div numSamples blockSize))%nat ->
    (k < fuel)%nat ->
    engaged (this fr) ->
    exists fr' made,
      process_blocks fuel ondx numSamples blockSize rate
        (Z.of_nat j * blockSize) fr = Some fr'
      /\ engaged (this fr')
      /\ processor fr' = processor fr
      /\ calls (this fr') = calls (this fr) ++ made
      /\ requests made
         = map (fun b => (processor fr,
                          Z.min (numSamples - Z.of_nat b * blockSize)
                            blockSize)) (seq j k).
Proof.
  intros Hn Hb.
  destruct (ceil_div_bounds numSamples blockSize (proj1 Hn) (proj1 Hb))
    as [Hc0 Hc].
  induction k as [|k IH]; intros j fuel fr Hj Hfuel Heng;
    (destruct fuel as [|fuel]; [lia|]); simpl.
  - destruct (Z.ltb_spec (Z.of_nat j * blockSize) numSamples) as [Hlt|_];
      [nia|].
    exists fr, []. rewrite app_nil_r. auto.
  - destruct (Z.ltb_spec (Z.of_nat j * blockSize) numSamples) as [_|Hge];
      [|nia].
    assert (Hblock : 0 <= Z.of_nat j * blockSize < numSamples) by nia.
    rewrite (wrap64_small (numSamples - Z.of_nat j * blockSize)) by lia.
    destruct (process_block_requests ondx rate
                (Z.min (numSamples - Z.of_nat j * blockSize) blockSize)
                fr Heng)
      as [fr1 [made1 (-> & Heng1 & Hp1 & _ & _ & Hc1 & Hr1)]].
    rewrite (wrap64_small (Z.of_nat j * blockSize + blockSize)) by nia.
    replace (Z.of_nat j * blockSize + blockSize)
      with (Z.of_nat (S j) * blockSize) by lia.
    destruct (IH (S j) fuel fr1 ltac:(lia) ltac:(lia) Heng1)
      as [fr2 [made2 (-> & Heng2 & Hp2 & Hc2 & Hr2)]].
    exists fr2, (made1 ++ made2). split; [reflexivity|].
    split; [exact Heng2|]. split; [congruence|].
    split; [rewrite Hc2, Hc1, <- app_assoc; reflexivity|].
    rewrite requests_app, Hr1, Hr2, Hp1. reflexivity.
Qed.

(** The blocks make up the frames: each block has at least one frame and at
    most [blockSize], and together they have [numSamples]. *)
Lemma chunks_sum numSamples blockSize :
  0 <= numSamples -> 1 <= blockSize ->
  foldr Z.add 0 (chunks numSamples blockSize) = numSamples
  /\ Forall (fun cnt => 1 <= cnt <= blockSize) (chunks numSamples blockSize).
Proof.
  intros Hn Hb. unfold chunks.
  destruct (ceil_div_bounds numSamples blockSize Hn Hb) as [Hc0 Hc].
  assert (H : forall (k j : nat),
            (j + k = Z.to_nat (ceil_div numSamples blockSize))%nat ->
            foldr Z.add 0
              (map (fun b => Z.min (numSamples - Z.of_nat b * blockSize)
                               blockSize) (seq j k))
            = numSamples - Z.min numSamples (Z.of_nat j * blockSize)
            /\ Forall (fun cnt => 1 <= cnt <= blockSize)
                 (map (fun b => Z.min (numSamples - Z.of_nat b * blockSize)
                                  blockSize) (seq j k))).
  { induction k as [|k IH]; intros j Hj; simpl.
    - split; [nia | constructor].
    - destruct (IH (S j) ltac:(lia)) as [Hs Hf]. split.
      + rewrite Hs. nia.
      + constructor; [nia | exact Hf]. }
  destruct (H (Z.to_nat (ceil_div numSamples blockSize)) 0%nat eq_refl)
    as [Hs Hf].
  split; [rewrite Hs; lia | exact Hf].
Qed.

(** One processor: the requests of its blocks. *)
Lemma Process_visit_requests fuel chans numAudioIn numAudioOut
    (inbuf outbuf : list ptr) numSamples (rate : Rate) blockSize indx ondx fr :
  (forall i, GetBlockSize i = blockSize) ->
  1 <= blockSize < 2 ^ 64 ->
  1 <= chans -> 0 <= numAudioIn < 2 ^ 32 -> 0 <= numSamples <= 2 ^ 63 ->
  (Z.to_nat numAudioIn < fuel)%nat -> (Z.to_nat numSamples < fuel)%nat ->
  engaged (this fr) ->
  exists fr' made,
    Process_visit fuel chans numAudioIn numAudioOut inbuf outbuf numSamples
      rate indx ondx fr = Some (true, fr')
    /\ engaged (this fr')
    /\ processor fr' = processor fr + 1
    /\ calls (this fr') = calls (this fr) ++ made
    /\ requests made
       = map (fun cnt => (processor fr, cnt)) (chunks numSamples blockSize).
Proof.
  intros Hbs Hb Hc Hin Hn Hfin Hfn Heng. unfold Process_visit.
  match goal with |- context [reuse_inputs fuel chans numAudioIn inbuf ?c ?l] =>
    destruct (reuse_inputs_returns chans numAudioIn inbuf Hc (proj2 Hin)
                fuel c l) as [newIn ->] end.
  { pose proof (wrap32_range (chans - indx)). lia. }
  { pose proof (wrap32_range (chans - indx)). lia. }
  pose proof Heng as (_ & _ & [i Hi]). rewrite Hi, Hbs.
  pose proof (ceil_div_le numSamples blockSize (proj1 Hn) (proj1 Hb)) as Hle.
  destruct (ceil_div_bounds numSamples blockSize (proj1 Hn) (proj1 Hb))
    as [Hc0 _].
  match goal with |- context [process_blocks _ _ _ _ _ _ ?f] =>
    destruct (process_blocks_requests ondx numSamples blockSize rate Hn Hb
                (Z.to_nat (ceil_div numSamples blockSize)) 0 fuel f
                eq_refl ltac:(lia) Heng)
      as [fr1 [made (Hrun & Heng1 & Hp1 & Hc1 & Hr1)]] end.
  change (Z.of_nat 0 * blockSize) with 0 in Hrun. rewrite Hrun.
  eexists _, made. split; [reflexivity|]. simpl in *.
  split; [exact Heng1|]. split; [now rewrite Hp1|]. split; [exact Hc1|].
  rewrite Hr1. unfold chunks. now rewrite map_map.
Qed.

(** Processor after processor. *)
Lemma visit_requests fuel chans numAudioIn numAudioOut
    (inbuf outbuf : list ptr) numSamples (rate : Rate) blockSize first :
  (forall i, GetBlockSize i = blockSize) ->
  1 <= blockSize < 2 ^ 64 ->
  1 <= chans -> 0 <= numAudioIn < 2 ^ 32 -> 0 <= numSamples <= 2 ^ 63 ->
  (Z.to_nat numAudioIn < fuel)%nat -> (Z.to_nat numSamples < fuel)%nat ->
  forall (l : list (Z * Z)) (k0 : nat) fr,
    engaged (this fr) ->
    processor fr = first + Z.of_nat k0 ->
    exists fr' made,
      visit (Process_visit fuel chans numAudioIn numAudioOut inbuf outbuf
               numSamples rate) l fr = Some fr'
      /\ engaged (this fr')
      /\ calls (this fr') = calls (this fr) ++ made
      /\ requests made
         = flat_map (fun k => map (fun cnt => (first + Z.of_nat k, cnt))
                                  (chunks numSamples blockSize))
                    (seq k0 (length l)).
Proof.
  intros Hbs Hb Hc Hin Hn Hfin Hfn.
  induction l as [|[indx ondx] l IH]; intros k0 fr Heng Hp; simpl.
  - exists fr, []. rewrite app_nil_r. auto.
  - destruct (Process_visit_requests fuel chans numAudioIn numAudioOut
                inbuf outbuf numSamples rate blockSize indx ondx fr
                Hbs Hb Hc Hin Hn Hfin Hfn Heng)
      as [fr1 [made1 (-> & Heng1 & Hp1 & Hc1 & Hr1)]].
    destruct (IH (S k0) fr1 Heng1 ltac:(lia))
      as [fr2 [made2 (-> & Heng2 & Hc2 & Hr2)]].
    exists fr2, (made1 ++ made2). split; [reflexivity|].
    split; [exact Heng2|].
    split; [rewrite Hc2, Hc1, <- app_assoc; reflexivity|].
    rewrite requests_app, Hr1, Hr2, Hp. reflexivity.
Qed.

(** What [Process] asks of the instance on the active path. *)
Lemma Process_requests_spec fuel (track : Track) chans
    (inbuf outbuf : list ptr) numSamples blockSize st i m :
  well_sized ->
  (forall j, GetBlockSize j = blockSize) ->
  engaged st -> mwInstance st = Some i ->
  0 <= chans -> chans + GetAudioOutCount i <= 2 ^ 32 ->
  0 <= numSamples <= 2 ^ 63 ->
  (Z.to_nat chans < fuel)%nat -> (Z.to_nat numSamples < fuel)%nat ->
  (Z.to_nat (GetAudioInCount i) < fuel)%nat ->
  exists d st' m',
    Process zeroRate fuel track chans inbuf outbuf numSamples st m
    = Some (d, (st', m'))
    /\ engaged st'
    /\ requests (made_since st st')
       = expected_requests (fst (group_of zeroRate track st))
           (Z.to_nat (ceil_div chans (GetAudioOutCount i)))
           numSamples blockSize.
Proof.
  intros Hsized Hbs Heng Hi Hc Hw Hn Hfc Hfn Hfi.
  destruct (Hsized i) as (Hin & Hout & Hb). rewrite Hbs in Hb.
  pose proof Heng as (Hp & Hl & _).
  unfold Process. rewrite Hp, Hl, Hi. simpl.
  pose proof (ceil_div_le chans (GetAudioOutCount i) Hc (proj1 Hout)) as Hle.
  rewrite alloc_visit by lia.
  destruct (touch_group_keeps zeroRate track st)
    as (Tp & Tl & Ti & _ & Tc).
  assert (Heng0 : engaged (touch_group zeroRate track st)).
  { unfold engaged. rewrite Tp, Tl, Ti. exact Heng. }
  destruct (Z.eq_dec chans 0) as [->|Hne].
  - unfold offsets. replace (ceil_div 0 (GetAudioOutCount i)) with 0.
    2:{ unfold ceil_div. symmetry. apply Z.div_small. lia. }
    simpl. eexists _, _, _. split; [reflexivity|].
    split; [exact Heng0|].
    rewrite (made_since_app st _ []) by (now rewrite app_nil_r).
    reflexivity.
  - destruct (visit_requests fuel chans (GetAudioInCount i)
                (GetAudioOutCount i) inbuf outbuf numSamples
                (snd (group_of zeroRate track st)) blockSize
                (fst (group_of zeroRate track st)) Hbs Hb ltac:(lia) Hin Hn
                Hfi Hfn (offsets chans (GetAudioInCount i)
                           (GetAudioOutCount i)) 0
                (Process_frame zeroRate track i st m) Heng0
                ltac:(simpl; lia))
      as [fr [made (-> & Heng' & Hcalls & Hreq)]].
    eexists _, _, _. split; [reflexivity|]. split; [exact Heng'|].
    simpl in Hcalls. rewrite Tc in Hcalls.
    rewrite (made_since_app st _ made Hcalls), Hreq.
    unfold expected_requests. f_equal. f_equal.
    unfold offsets. now rewrite length_map, length_seq.
Qed.

(** X20. The requests of [Process] on the active path.  (The instance
    declares an output and a positive block size that does not change, the
    output offset cannot wrap, the frames fit the address space, and the
    fuel covers the channels, the frames and the inputs of a processor.)
    [Process] returns, and the [RealtimeProcess] calls it made are, in this
    order: for each of the ceil(chans / outputArity) processors in turn,
    numbered from the first processor of the track's group on, one call for
    each block, each block of [blockSize] frames but the last, which has
    the rest: every processor is asked for all [numSamples] frames, once. *)
Theorem Process_requests fuel (track : Track) chans
    (inbuf outbuf : list ptr) numSamples blockSize st i m :
  well_sized ->
  (forall j, GetBlockSize j = blockSize) ->
  engaged st -> mwInstance st = Some i ->
  0 <= chans -> chans + GetAudioOutCount i <= 2 ^ 32 ->
  0 <= numSamples <= 2 ^ 63 ->
  (Z.to_nat chans < fuel)%nat -> (Z.to_nat numSamples < fuel)%nat ->
  (Z.to_nat (GetAudioInCount i) < fuel)%nat ->
  (exists d st' m',
      Process zeroRate fuel track chans inbuf outbuf numSamples st m
      = Some (d, (st', m'))
      /\ requests (made_since st st')
         = expected_requests (fst (group_of zeroRate track st))
             (Z.to_nat (ceil_div chans (GetAudioOutCount i)))
             numSamples blockSize)
  /\ foldr Z.add 0 (chunks numSamples blockSize) = numSamples
  /\ Forall (fun cnt => 1 <= cnt <= blockSize) (chunks numSamples blockSize).
Proof.
  intros Hsized Hbs Heng Hi Hc Hw Hn Hfc Hfn Hfi. split.
  - destruct (Process_requests_spec fuel track chans inbuf outbuf numSamples
                blockSize st i m Hsized Hbs Heng Hi Hc Hw Hn Hfc Hfn Hfi)
      as [d [st' [m' (Hrun & _ & Hreq)]]].
    exists d, st', m'. auto.
  - destruct (Hsized i) as (_ & _ & Hb). rewrite Hbs in Hb.
    apply chunks_sum; lia.
Qed.

Context {factory : @EffectInstanceFactory Contents ExtraOther Inst}.

(** X21. [Process] visits the processors that [AddTrack] added.  (The
    arities and the block size that the instance declares do not change,
    and the sizes are as for the previous property.)  After an [AddTrack]
    call for a track in which no [RealtimeAddProcessor] call declined, a
    [Process] call for the same track and channel count, on the state as
    [AddTrack] left it with its recorded activity true, asks exactly the
    processors that this [AddTrack] call added, from the processor index on
    its entry up to, but not including, the processor index on its return,
    each for all the blocks; their number is ceil(chans / outputArity). *)
Theorem Process_visits_processors_added fuel (track : Track) chans
    (sampleRate : Rate) (inbuf outbuf : list ptr) numSamples
    numAudioIn numAudioOut blockSize st st1 m :
  (forall i, GetAudioInCount i = numAudioIn
             /\ GetAudioOutCount i = numAudioOut
             /\ GetBlockSize i = blockSize) ->
  0 <= numAudioIn < 2 ^ 32 -> 1 <= numAudioOut < 2 ^ 32 ->
  1 <= blockSize < 2 ^ 64 ->
  0 <= chans -> chans + numAudioOut <= 2 ^ 32 ->
  0 <= numSamples <= 2 ^ 63 ->
  (Z.to_nat chans < fuel)%nat -> (Z.to_nat numSamples < fuel)%nat ->
  (Z.to_nat numAudioIn < fuel)%nat ->
  AddTrack fuel track chans sampleRate st = Some (true, st1) ->
  filter is_declined_add (made_since st st1) = [] ->
  mLastActive st1 = true ->
  mCurrentProcessor st1 - mCurrentProcessor st = ceil_div chans numAudioOut
  /\ exists d st2 m2,
       Process zeroRate fuel track chans inbuf outbuf numSamples st1 m
       = Some (d, (st2, m2))
       /\ requests (made_since st1 st2)
          = expected_requests (mCurrentProcessor st)
              (Z.to_nat (mCurrentProcessor st1 - mCurrentProcessor st))
              numSamples blockSize.
Proof.
  intros Hconst Hin Hout Hb Hc Hw Hn Hfc Hfn Hfi Hadd Hnone Hactive.
  assert (Hsized : well_sized).
  { intros i. destruct (Hconst i) as (-> & -> & ->). auto. }
  assert (Hbs : forall j, GetBlockSize j = blockSize)
    by (intros j; now destruct (Hconst j) as (_ & _ & ->)).
  pose proof (AddTrack_exchange fuel track chans sampleRate st true st1 Hadd)
    as (_ & _ & _ & _ & Hplugin & _).
  revert Hadd. unfold AddTrack.
  destruct (EnsureInstance_keeps sampleRate st)
    as [Hcp [Hg [[made0 [Hcalls Hnoadd]] Husable]]].
  destruct (EnsureInstance sampleRate st) as [usable st0]. simpl in *.
  destruct usable; simpl; [|discriminate].
  destruct (Husable eq_refl) as [[i Hi] Hp]. rewrite Hp, Hi. simpl.
  destruct (Hconst i) as (Ei & Eo & _). rewrite Ei, Eo.
  pose proof (ceil_div_le chans numAudioOut Hc (proj1 Hout)) as Hle.
  destruct (ceil_div_bounds chans numAudioOut Hc (proj1 Hout)) as [Hc0 _].
  rewrite alloc_visit by lia.
  destruct (visit_AddTrack numAudioIn sampleRate
              (offsets chans numAudioIn numAudioOut) st0)
    as [st2 [k [d [Hv [Hs [Hcp2 [Hg2 [Hc2 [Hk Hd]]]]]]]]]; [eauto|].
  rewrite Hv.
  destruct (Z.ltb_spec (mCurrentProcessor st0) (mCurrentProcessor st2))
    as [Hlt|Hge]; [|discriminate].
  intros [= <-].
  assert (Hmade : made_since st
                    (set_mGroups
                       (<[track := (mCurrentProcessor st0, sampleRate)]>
                          (mGroups st2)) st2)
                  = made0 ++ adds numAudioIn k d).
  { apply made_since_app. simpl. rewrite Hc2, Hcalls.
    now rewrite app_assoc. }
  rewrite Hmade, filter_app in Hnone.
  apply app_eq_nil in Hnone. destruct Hnone as [_ Hnone].
  apply filter_declined_adds in Hnone. specialize (Hd Hnone).
  assert (Hlen : Z.of_nat k = ceil_div chans numAudioOut).
  { rewrite Hd. apply length_offsets; lia. }
  simpl mCurrentProcessor. split; [lia|].
  destruct Hs as [i2 Hi2].
  set (st1 := set_mGroups _ st2) in *.
  assert (Heng : engaged st1).
  { unfold engaged. split; [|split; [exact Hactive | now exists i2]].
    congruence. }
  destruct (Process_requests_spec fuel track chans inbuf outbuf numSamples
              blockSize st1 i2 m Hsized Hbs Heng Hi2 Hc)
    as [d' [st3 [m3 (Hrun & _ & Hreq)]]];
    try assumption.
  { destruct (Hconst i2) as (_ & -> & _). exact Hw. }
  { destruct (Hconst i2) as (-> & _ & _). exact Hfi. }
  exists d', st3, m3. split; [exact Hrun|]. rewrite Hreq.
  destruct (Hconst i2) as (_ & -> & _).
  assert (Hfirst : fst (group_of zeroRate track st1) = mCurrentProcessor st).
  { unfold group_of, st1. simpl. rewrite lookup_insert_eq. simpl.
    exact Hcp. }
  rewrite Hfirst. f_equal. lia.
Qed.

(** With block size 0 the inner loop stays at its first block. *)
Lemma process_blocks_zero_block_size ondx numSamples (rate : Rate) fuel :
  1 <= numSamples ->
  forall fr, process_blocks fuel ondx numSamples 0 rate 0 fr = None.
Proof.
  intros Hn. induction fuel as [|fuel IH]; intros fr; simpl; [reflexivity|].
  destruct (Z.ltb_spec 0 numSamples); [|lia].
  destruct (process_block _ _ _ fr) as [fr1|]; [|reflexivity].
  change (wrap64 (0 + 0)) with 0. apply IH.
Qed.

(** X22. The block size is not checked: when the instance declares a block
    size of 0, a [Process] call on the active path for a track with a
    channel and for one frame or more never returns, whatever the fuel:
    the inner loop stays at its first block. *)
Theorem Process_hangs_on_zero_block_size fuel (track : Track) chans
    (inbuf outbuf : list ptr) numSamples st m :
  engaged st ->
  (forall i, GetBlockSize i = 0) ->
  1 <= chans -> 1 <= numSamples ->
  Process zeroRate fuel track chans inbuf outbuf numSamples st m = None.
Proof.
  intros (Hp & Hl & [i Hi]) Hbs Hc Hn. unfold Process.
  rewrite Hp, Hl, Hi. simpl.
  unfold AllocateChannelsToProcessors.
  destruct fuel as [|fuel]; [reflexivity|].
  cbn [AllocateChannelsToProcessors_from].
  destruct (Z.ltb_spec 0 chans); [|lia].
  unfold Process_visit at 1.
  destruct (reuse_inputs _ _ _ _ _ _) as [newIn|]; [|reflexivity].
  destruct (mwInstance (this _)) as [j|]; [|reflexivity].
  now rewrite Hbs, process_blocks_zero_block_size.
Qed.

End RequestFacts.

(** * Identification and persistence *)

Section PersistenceFacts.
Context {Contents ExtraOther Outputs Inst Rate : Type}.
Context {manager : @EffectSettingsManager Contents ExtraOther Outputs}.
Context {registry : PluginRegistry}.

Abbreviation State :=
  (@RealtimeEffectState Contents ExtraOther Outputs Inst Rate).
Abbreviation Object :=
  (@Identified Contents ExtraOther Outputs Inst Rate).

Implicit Types (s : Object) (attrs : AttributesList).

Lemma identifiers_cons (a : string * XMLAttributeValueView) attrs :
  identifiers (a :: attrs)
  = if String.eqb (fst a) idAttribute && negb (is_empty (ToWString (snd a)))
    then ToWString (snd a) :: identifiers attrs
    else identifiers attrs.
Proof.
  unfold identifiers. rewrite filter_cons.
  destruct (String.eqb_spec (fst a) idAttribute) as [He|Hne];
    destruct (decide (fst a = idAttribute)) as [Hd|Hd]; try contradiction;
    simpl; [|reflexivity].
  rewrite filter_cons.
  destruct (is_empty (ToWString (snd a))) eqn:Hempty;
    destruct (decide (is_empty (ToWString a.2) = false)) as [Hd'|Hd'];
    simpl; congruence.
Qed.

Lemma last_active_cons (a : string * XMLAttributeValueView) attrs (x : bool) :
  default x (last_active (a :: attrs))
  = default (if String.eqb (fst a) activeAttribute then Get_bool (snd a)
             else x) (last_active attrs).
Proof.
  unfold last_active. rewrite filter_cons.
  destruct (String.eqb_spec (fst a) activeAttribute) as [He|Hne];
    destruct (decide (fst a = activeAttribute)) as [Hd|Hd];
    try contradiction; [|reflexivity].
  rewrite map_cons, last_cons. now destruct (last _).
Qed.

(** The attributes of a tag [effect], one after the other. *)
Lemma effect_attributes_spec attrs :
  forall s,
    ((2 <= length (all_identifiers s attrs))%nat ->
     effect_attributes attrs s = None)
    /\ ((length (all_identifiers s attrs) <= 1)%nat ->
        exists s',
          effect_attributes attrs s = Some s'
          /\ mID s' = default EmptyString (head (all_identifiers s attrs))
          /\ mParameters s' = mParameters s
          /\ IsEnabled (members s')
             = default (IsEnabled (members s)) (last_active attrs)
          /\ mPlugin (members s')
             = mPlugin (members s)
               || match head (identifiers attrs) with
                  | Some id => EffectFactory_Call id
                  | None => false
                  end
          /\ (mPlugin (members s') = mPlugin (members s) ->
              value (settings (mMainSettings (members s')))
              = value (settings (mMainSettings (members s))))
          /\ mpAccessState (members s') = mpAccessState (members s)
          /\ mWorkerSettings (members s') = mWorkerSettings (members s)
          /\ mwInstance (members s') = mwInstance (members s)
          /\ mInitialized (members s') = mInitialized (members s)).
Proof.
  induction attrs as [|[attr view] attrs IH]; intros s.
  - unfold all_identifiers, identifiers. simpl. rewrite app_nil_r. split.
    + destruct (is_empty (mID s)); simpl; lia.
    + intros _. exists s. split; [reflexivity|].
      split; [destruct (mID s); reflexivity|].
      rewrite orb_false_r. auto 10.
  - unfold all_identifiers. rewrite identifiers_cons.
    cbn [effect_attributes effect_attribute fst snd].
    destruct (String.eqb_spec attr idAttribute) as [Hid|Hnid].
    + (* id *)
      assert (Hna : String.eqb attr activeAttribute = false)
        by (subst attr; reflexivity).
      unfold SetID. simpl.
      destruct (is_empty (ToWString view)) eqn:Hempty; simpl.
      * rewrite andb_false_r.
        destruct (IH s) as [IH1 IH2]. unfold all_identifiers in IH1, IH2.
        split; [exact IH1|]. intros Hlen.
        destruct (IH2 Hlen) as [s' (H1 & H2 & H3 & H4 & H5)].
        exists s'. split; [exact H1|]. split; [exact H2|].
        split; [exact H3|].
        split; [now rewrite (last_active_cons (attr, view)); simpl;
                  rewrite Hna|].
        exact H5.
      * rewrite andb_true_r. destruct (is_empty (mID s)) eqn:Hmine; simpl.
        -- set (s1 := {| mID := ToWString view; mParameters := mParameters s;
                         members := GetEffect (ToWString view) (members s) |}).
           destruct (IH s1) as [IH1 IH2].
           unfold all_identifiers in IH1, IH2. simpl in IH1, IH2.
           rewrite Hempty in IH1, IH2. simpl in IH1, IH2.
           split; [exact IH1|]. intros Hlen.
           destruct (IH2 Hlen)
             as [s' (H1 & H2 & H3 & H4 & H5 & H6 & H7 & H8 & H9 & H10)].
           destruct (GetEffect_spec (ToWString view) (members s))
             as (G1 & G2 & G3 & G4 & _ & G6 & G7 & G8 & G9 & _).
           assert (Hnil : identifiers attrs = []).
           { destruct (identifiers attrs); [reflexivity | simpl in Hlen; lia]. }
           rewrite Hnil in H5. simpl in H5. rewrite orb_false_r in H5.
           exists s'. split; [exact H1|]. split; [exact H2|].
           split; [exact H3|]. split.
           { rewrite (last_active_cons (attr, view)). simpl. rewrite Hna.
             now rewrite H4, G1. }
           assert (Hp : mPlugin (GetEffect (ToWString view) (members s))
                        = mPlugin (members s)
                          || EffectFactory_Call (ToWString view)).
           { destruct (mPlugin (members s)) eqn:Hp0;
               destruct (EffectFactory_Call (ToWString view)) eqn:Hc; simpl.
             - apply G2. auto.
             - apply G2. auto.
             - apply G2. auto.
             - rewrite (G3 (or_intror eq_refl)). exact Hp0. }
           split; [now rewrite H5|]. split.
           { intros Hsame. rewrite H6 by congruence.
             rewrite H5 in Hsame. simpl in Hsame.
             rewrite G3; [reflexivity|].
             destruct (mPlugin (members s)); [now left | right].
             rewrite Hp in Hsame. simpl in Hsame.
             destruct (EffectFactory_Call (ToWString view));
               [discriminate | reflexivity]. }
           simpl in *. repeat split; congruence.
        -- split; [reflexivity|]. simpl. lia.
    + (* not id *)
      simpl andb.
      destruct (String.eqb_spec attr versionAttribute) as [Hv|Hnv].
      * assert (Hna : String.eqb attr activeAttribute = false)
          by (subst attr; reflexivity).
        destruct (IH s) as [IH1 IH2]. unfold all_identifiers in IH1, IH2.
        split; [exact IH1|]. intros Hlen.
        destruct (IH2 Hlen) as [s' (H1 & H2 & H3 & H4 & H5)].
        exists s'. split; [exact H1|]. split; [exact H2|].
        split; [exact H3|].
        split; [now rewrite (last_active_cons (attr, view)); simpl;
                  rewrite Hna|].
        exact H5.
      * destruct (String.eqb attr activeAttribute) eqn:Hact.
        -- set (s1 := {| mID := mID s; mParameters := mParameters s;
                         members := _ |}).
           destruct (IH s1) as [IH1 IH2].
           unfold all_identifiers in IH1, IH2. simpl in IH1, IH2.
           split; [exact IH1|]. intros Hlen.
           destruct (IH2 Hlen)
             as [s' (H1 & H2 & H3 & H4 & H5 & H6 & H7 & H8 & H9 & H10)].
           exists s'. split; [exact H1|]. split; [exact H2|].
           split; [exact H3|]. split.
           { rewrite (last_active_cons (attr, view)). simpl. now rewrite Hact. }
           split; [exact H5|]. split; [exact H6|]. auto.
        -- destruct (IH s) as [IH1 IH2]. unfold all_identifiers in IH1, IH2.
           split; [exact IH1|]. intros Hlen.
           destruct (IH2 Hlen) as [s' (H1 & H2 & H3 & H4 & H5)].
           exists s'. split; [exact H1|]. split; [exact H2|].
           split; [exact H3|].
           split; [now rewrite (last_active_cons (attr, view)); simpl;
                     rewrite Hact|].
           exact H5.
Qed.

Lemma parameter_attributes_spec attrs :
  forall n v,
    foldl parameter_attribute (n, v) attrs
    = (default n (last_string nameAttribute attrs),
       default v (last_string valueAttribute attrs)).
Proof.
  induction attrs as [|[attr view] attrs IH]; intros n v; [reflexivity|].
  cbn [foldl parameter_attribute fst snd]. unfold last_string.
  rewrite !filter_cons. simpl fst.
  destruct (String.eqb_spec attr nameAttribute) as [Hn|Hnn].
  - subst attr. rewrite IH. unfold last_string.
    destruct (decide (nameAttribute = nameAttribute)); [|contradiction].
    destruct (decide (nameAttribute = valueAttribute)); [discriminate|].
    rewrite map_cons, last_cons. simpl. f_equal.
    match goal with |- context [last ?l] => now destruct (last l) end.
  - destruct (decide (attr = nameAttribute)); [contradiction|].
    destruct (String.eqb_spec attr valueAttribute) as [Hv|Hnv].
    + subst attr. rewrite IH. unfold last_string.
      destruct (decide (valueAttribute = valueAttribute)); [|contradiction].
      rewrite map_cons, last_cons. simpl. f_equal.
      match goal with |- context [last ?l] => now destruct (last l) end.
    + destruct (decide (attr = valueAttribute)); [contradiction|].
      apply IH.
Qed.

(** X23. [HandleXMLTag].  The tag [effect] forgets the identifier, the
    plugin and the parameters gathered, and then takes its attributes in
    their order; what it leaves does not depend on the order in which the
    identifier and the active flag come: the identifier is the one of the
    attributes [id] that is not empty, the plugin is bound exactly when the
    factory finds one for it, and the state is enabled as the last
    attribute [active] says (as it was, when there is none), although
    binding the plugin makes new settings.  A second identifier that is not
    empty fails the assertion of [SetID].  The tag [parameters] changes
    nothing; a tag [parameter] adds the last name and the last value among
    its attributes (empty when there is none) to the parameters gathered;
    any other tag is refused, and changes nothing. *)
Theorem HandleXMLTag_takes_attributes_in_any_order (tag : string) attrs s :
  (tag = XMLTag ->
   ((2 <= length (identifiers attrs))%nat ->
    HandleXMLTag tag attrs s = None)
   /\ ((length (identifiers attrs) <= 1)%nat ->
       exists s',
         HandleXMLTag tag attrs s = Some (true, s')
         /\ mID s' = default EmptyString (head (identifiers attrs))
         /\ mParameters s' = EmptyString
         /\ IsEnabled (members s')
            = default (IsEnabled (members s)) (last_active attrs)
         /\ mPlugin (members s')
            = match head (identifiers attrs) with
              | Some id => EffectFactory_Call id
              | None => false
              end
         /\ mpAccessState (members s') = mpAccessState (members s)
         /\ mWorkerSettings (members s') = mWorkerSettings (members s)
         /\ mwInstance (members s') = mwInstance (members s)
         /\ mInitialized (members s') = mInitialized (members s)))
  /\ (tag = parametersAttribute -> HandleXMLTag tag attrs s = Some (true, s))
  /\ (tag = parameterAttribute ->
      HandleXMLTag tag attrs s
      = Some (true,
              {| mID := mID s;
                 mParameters :=
                   mParameters s
                   +:+ Format
                         (default EmptyString
                            (last_string nameAttribute attrs))
                         (default EmptyString
                            (last_string valueAttribute attrs));
                 members := members s |}))
  /\ (tag <> XMLTag -> tag <> parametersAttribute ->
      tag <> parameterAttribute ->
      HandleXMLTag tag attrs s = Some (false, s)).
Proof.
  split; [|split; [|split]].
  - intros ->. unfold HandleXMLTag. rewrite String.eqb_refl.
    match goal with |- context [effect_attributes attrs ?s0] =>
      destruct (effect_attributes_spec attrs s0) as [H1 H2] end.
    unfold all_identifiers in H1, H2. simpl in H1, H2. split.
    + intros Hlen. now rewrite (H1 Hlen).
    + intros Hlen.
      destruct (H2 Hlen)
        as [s' (-> & G1 & G2 & G3 & G4 & _ & G6 & G7 & G8 & G9)].
      exists s'. split; [reflexivity|]. auto 10.
  - intros ->. reflexivity.
  - intros ->. unfold HandleXMLTag.
    change (String.eqb parameterAttribute XMLTag) with false.
    change (String.eqb parameterAttribute parametersAttribute) with false.
    rewrite String.eqb_refl. cbv iota.
    now rewrite parameter_attributes_spec.
  - intros H1 H2 H3. unfold HandleXMLTag.
    apply String.eqb_neq in H1, H2, H3. now rewrite H1, H2, H3.
Qed.

(** *** Writing, and reading back *)

(** The tags of one parameter, as [WriteXML] writes them. *)
Lemma well_nested_entries (cmdParms entries : list (string * string))
    (rest : list XMLWrite) (open : list string) :
  well_nested
    (flat_map
       (fun entry =>
          [StartTag parameterAttribute;
           WriteAttr_string nameAttribute (fst entry);
           WriteAttr_string valueAttribute
             (CommandParameters_Read cmdParms (fst entry));
           EndTag parameterAttribute]) entries ++ rest) open
  = well_nested rest open.
Proof.
  induction entries as [|e entries IH]; [reflexivity|].
  cbn [flat_map app well_nested]. rewrite String.eqb_refl. exact IH.
Qed.

(** X24. [WriteXML] writes one element, or nothing.  Without a plugin it
    writes nothing.  With one, it adds to what was written before the tag
    [effect] with the attributes [active] (the enabled flag of the state),
    [id] (the identifier of the plugin) and [version], in this order, then,
    when the settings could be saved, the tag [parameters] holding one tag
    [parameter] for each entry, and the end of the tag [effect]; every tag
    that it starts it ends, in the right order. *)
Theorem WriteXML_writes_one_element s (xmlFile : list XMLWrite) :
  WriteXML s xmlFile = xmlFile ++ WriteXML s []
  /\ well_nested (WriteXML s []) [] = true
  /\ (mPlugin (members s) = false -> WriteXML s [] = [])
  /\ (mPlugin (members s) = true ->
      exists inner,
        WriteXML s []
        = [StartTag XMLTag;
           WriteAttr_bool activeAttribute (IsEnabled (members s));
           WriteAttr_string idAttribute PluginManager_GetID;
           WriteAttr_string versionAttribute GetVersion]
          ++ inner ++ [EndTag XMLTag]
        /\ well_nested inner [] = true
        /\ (fst (SaveSettings (settings (mMainSettings (members s)))) = false
            -> inner = [])
        /\ started_tags inner
           = if fst (SaveSettings (settings (mMainSettings (members s))))
             then parametersAttribute
                  :: map (fun _ => parameterAttribute)
                       (snd (SaveSettings
                               (settings (mMainSettings (members s)))))
             else []).
Proof.
  unfold WriteXML, IsEnabled.
  destruct (mPlugin (members s)) eqn:Hp; simpl;
    [|rewrite app_nil_r; split; [reflexivity|]; split; [reflexivity|];
      split; [reflexivity | discriminate]].
  destruct (SaveSettings (settings (mMainSettings (members s))))
    as [saved cmdParms]. simpl.
  split; [reflexivity|].
  assert (Hinner : forall rest open,
            well_nested
              ((if saved then
                  StartTag parametersAttribute
                  :: flat_map
                       (fun entry =>
                          [StartTag parameterAttribute;
                           WriteAttr_string nameAttribute (fst entry);
                           WriteAttr_string valueAttribute
                             (CommandParameters_Read cmdParms (fst entry));
                           EndTag parameterAttribute]) cmdParms
                     ++ [EndTag parametersAttribute]
                else []) ++ rest) open
            = well_nested rest open).
  { intros rest open. destruct saved; [|reflexivity].
    cbn [app well_nested]. rewrite <- app_assoc.
    rewrite well_nested_entries. cbn [app well_nested].
    now rewrite String.eqb_refl. }
  split; [now rewrite Hinner|]. split; [discriminate|]. intros _.
  eexists. split; [reflexivity|].
  split; [rewrite <- (app_nil_r (if saved then _ else _)); now rewrite Hinner|].
  split; [now intros ->|].
  destruct saved; [|reflexivity].
  change (started_tags (StartTag parametersAttribute :: ?l))
    with (parametersAttribute :: started_tags l).
  f_equal. unfold started_tags. rewrite omap_app.
  change (omap _ [EndTag parametersAttribute]) with (@nil string).
  rewrite app_nil_r.
  clear Hinner. generalize (CommandParameters_Read cmdParms). intros read.
  induction cmdParms as [|e l IH]; [reflexivity|].
  cbn [flat_map map]. rewrite omap_app, IH. reflexivity.
Qed.

Lemma HandleXMLEndTag_other (tag : string) s :
  tag <> XMLTag -> HandleXMLEndTag tag s = s.
Proof.
  intros H. unfold HandleXMLEndTag. apply String.eqb_neq in H.
  now rewrite H.
Qed.

Section ReadBack.
(** The reader views a boolean and a string that were written as what they
    were. *)
Variable view_of_bool : bool -> XMLAttributeValueView.
Variable view_of_string : string -> XMLAttributeValueView.
Hypothesis views_bool : forall b, Get_bool (view_of_bool b) = b.
Hypothesis views_string : forall x, ToWString (view_of_string x) = x.

Lemma replay_entries (cmdParms : list (string * string)) :
  forall (entries : list (string * string)) s started rest,
    hand_over started s = Some s ->
    replay view_of_bool view_of_string
      (flat_map
         (fun entry =>
            [StartTag parameterAttribute;
             WriteAttr_string nameAttribute (fst entry);
             WriteAttr_string valueAttribute
               (CommandParameters_Read cmdParms (fst entry));
             EndTag parameterAttribute]) entries ++ rest) started s
    = replay view_of_bool view_of_string rest
        (match entries with [] => started | _ => None end)
        {| mID := mID s;
           mParameters :=
             foldl (fun text entry =>
                      text +:+ Format (fst entry)
                                 (CommandParameters_Read cmdParms (fst entry)))
                   (mParameters s) entries;
           members := members s |}.
Proof.
  induction entries as [|e entries IH]; intros s started rest Hh.
  - simpl. now destruct s.
  - cbn [flat_map app replay]. rewrite Hh. cbn [app].
    cbn [hand_over]. unfold HandleXMLTag at 1.
    change (String.eqb parameterAttribute XMLTag) with false.
    change (String.eqb parameterAttribute parametersAttribute) with false.
    rewrite String.eqb_refl. cbv iota.
    cbn [foldl parameter_attribute fst snd].
    change (String.eqb nameAttribute nameAttribute) with true.
    change (String.eqb valueAttribute nameAttribute) with false.
    change (String.eqb valueAttribute valueAttribute) with true.
    cbv iota. cbn [fst snd]. rewrite !views_string.
    rewrite (HandleXMLEndTag_other parameterAttribute) by discriminate.
    rewrite IH by reflexivity. cbn [mID mParameters members foldl].
    now destruct entries.
Qed.

(** X25. What [WriteXML] writes, [HandleXMLTag] and [HandleXMLEndTag] read
    back.  (The state written has its plugin; the identifier of the plugin
    is not empty and the factory finds the plugin for it.)  When the tags
    and attributes written are handed back in their order to an object in
    whatever state, the object ends up with the identifier of the plugin,
    the plugin bound, no parameters left over and the main settings at
    revision 0: the default settings of the plugin with the active flag of
    the state written, into which the parameters saved were loaded, from
    the text of their names and values in the order of their enumeration,
    if there was one. *)
Theorem WriteXML_is_read_back s (r : Object) :
  mPlugin (members s) = true ->
  is_empty PluginManager_GetID = false ->
  EffectFactory_Call PluginManager_GetID = true ->
  let saved := SaveSettings (settings (mMainSettings (members s))) in
  let text := if fst saved then gathered (snd saved) else EmptyString in
  let made :=
    {| value := value MakeSettings;
       extra := SetActive (IsEnabled (members s)) (extra MakeSettings) |} in
  exists r',
    replay view_of_bool view_of_string (WriteXML s []) None r = Some r'
    /\ mID r' = PluginManager_GetID
    /\ mParameters r' = EmptyString
    /\ mPlugin (members r') = true
    /\ mMainSettings (members r')
       = {| settings := if is_empty text then made
                        else LoadSettings text made;
            counter := 0 |}.
Proof.
  intros Hp Hid Hcall. cbv zeta. unfold WriteXML, IsEnabled. rewrite Hp.
  cbn [negb]. cbv iota.
  destruct (SaveSettings (settings (mMainSettings (members s))))
    as [saved cmdParms]. cbn [fst snd app].
  cbn [replay hand_over app].
  set (attrs := [(activeAttribute,
                  view_of_bool
                    (GetActive (extra (settings (mMainSettings (members s))))));
                 (idAttribute, view_of_string PluginManager_GetID);
                 (versionAttribute, view_of_string GetVersion)]).
  (* the tag [effect] *)
  assert (Heffect : exists r1,
            HandleXMLTag XMLTag attrs r = Some (true, r1)
            /\ mID r1 = PluginManager_GetID
            /\ mParameters r1 = EmptyString
            /\ mPlugin (members r1) = true
            /\ mMainSettings (members r1)
               = {| settings :=
                      {| value := value MakeSettings;
                         extra :=
                           SetActive
                             (GetActive (extra (settings
                                (mMainSettings (members s)))))
                             (extra MakeSettings) |};
                    counter := 0 |}).
  { unfold HandleXMLTag. rewrite String.eqb_refl. subst attrs.
    cbn [effect_attributes effect_attribute].
    change (String.eqb activeAttribute idAttribute) with false.
    change (String.eqb activeAttribute versionAttribute) with false.
    change (String.eqb activeAttribute activeAttribute) with true.
    change (String.eqb idAttribute idAttribute) with true.
    change (String.eqb versionAttribute idAttribute) with false.
    change (String.eqb versionAttribute versionAttribute) with true.
    cbv iota. rewrite views_bool, views_string.
    unfold SetID. cbn [mID is_empty andb]. rewrite Hid. cbn [negb].
    cbv iota. eexists. split; [reflexivity|]. cbn [mID mParameters members].
    split; [reflexivity|]. split; [reflexivity|].
    unfold GetEffect. cbn [mPlugin set_mPlugin set_mMainSettings].
    rewrite Hcall. cbn. auto. }
  destruct Heffect as [r1 (Htag & H1 & H2 & H3 & H4)].
  destruct saved; cbn [app replay hand_over]; rewrite Htag.
  - (* with parameters *)
    rewrite <- app_assoc.
    rewrite replay_entries by reflexivity.
    assert (Hend : forall started,
              hand_over started
                {| mID := mID r1;
                   mParameters :=
                     foldl (fun text entry =>
                              text +:+ Format (fst entry)
                                (CommandParameters_Read cmdParms (fst entry)))
                           (mParameters r1) cmdParms;
                   members := members r1 |}
              = Some {| mID := mID r1;
                        mParameters :=
                          foldl (fun text entry =>
                                   text +:+ Format (fst entry)
                                     (CommandParameters_Read cmdParms
                                        (fst entry)))
                                (mParameters r1) cmdParms;
                        members := members r1 |} ->
              exists r',
                replay view_of_bool view_of_string
                  [EndTag parametersAttribute; EndTag XMLTag] started
                  {| mID := mID r1;
                     mParameters :=
                       foldl (fun text entry =>
                                text +:+ Format (fst entry)
                                  (CommandParameters_Read cmdParms (fst entry)))
                             (mParameters r1) cmdParms;
                     members := members r1 |}
                = Some r'
                /\ mID r' = PluginManager_GetID
                /\ mParameters r' = EmptyString
                /\ mPlugin (members r') = true
                /\ mMainSettings (members r')
                   = {| settings :=
                          if is_empty (gathered cmdParms)
                          then {| value := value MakeSettings;
                                  extra :=
                                    SetActive
                                      (GetActive (extra (settings
                                         (mMainSettings (members s)))))
                                      (extra MakeSettings) |}
                          else LoadSettings (gathered cmdParms)
                                 {| value := value MakeSettings;
                                    extra :=
                                      SetActive
                                        (GetActive (extra (settings
                                           (mMainSettings (members s)))))
                                        (extra MakeSettings) |};
                        counter := 0 |}).
    { intros started Hh. cbn [replay]. rewrite Hh.
      rewrite (HandleXMLEndTag_other parametersAttribute) by discriminate.
      cbn [hand_over]. unfold HandleXMLEndTag.
      rewrite String.eqb_refl. cbn [mID mParameters members].
      rewrite H2, H3. fold (gathered cmdParms). cbn [andb].
      eexists. split; [reflexivity|]. cbn [mID mParameters members].
      split; [exact H1|]. split; [reflexivity|].
      destruct (is_empty (gathered cmdParms)); cbn [negb]; cbv iota.
      - split; [exact H3 | exact H4].
      - cbn [mPlugin set_mMainSettings mMainSettings].
        split; [exact H3|]. now rewrite H4. }
    destruct cmdParms as [|e l]; apply Hend; reflexivity.
  - (* without *)
    cbn [replay hand_over]. unfold HandleXMLEndTag.
    rewrite String.eqb_refl. rewrite H2. cbn [is_empty negb andb].
    rewrite andb_false_r. cbv iota.
    eexists. split; [reflexivity|]. cbn [mID mParameters members].
    auto.
Qed.

End ReadBack.

End PersistenceFacts.

(** * The properties above, on the toy plugin *)

Lemma Access_Get_returns_last_Set_witness :
  exists st1 st2,
    Access_Set (Some (Toy.playing (Some 2%nat) true None
                        (Some (Toy.access (Toy.someSettings true 3)))))
      (settings (Toy.someSettings false 0)) = Some st1
    /\ Access_Get Meter.defaultExtra (outputs := Meter.noOutputs) (Some st1)
       = (settings (Toy.someSettings false 0), Some st2).
Proof.
  destruct (Access_Get_returns_last_Set Meter.defaultExtra
              (outputs := Meter.noOutputs)
              (Toy.playing (Some 2%nat) true None
                 (Some (Toy.access (Toy.someSettings true 3))))
              (Toy.access (Toy.someSettings true 3))
              (settings (Toy.someSettings false 0)) eq_refl eq_refl)
    as [st1 [st2 [a2 [Hset [Hget _]]]]].
  exists st1, st2. split; [exact Hset | exact Hget].
Defined.

Lemma worker_echoes_last_Set_witness :
  exists st1 a2 st3,
    Access_Set (Some (Toy.playing (Some 2%nat) true None
                        (Some (Toy.access (Toy.someSettings true 3)))))
      (settings (Toy.someSettings false 0)) = Some st1
    /\ mpAccessState
         (audio_block (factory := Toy.factory)
            (instance := Toy.instance (Toy.mono 0 true))
            (outputs := Meter.noOutputs) (ending := Meter.ending) true st1)
       = Some a2
    /\ FlushAttempt (outputs := Meter.noOutputs) a2
         (audio_block (factory := Toy.factory)
            (instance := Toy.instance (Toy.mono 0 true))
            (outputs := Meter.noOutputs) (ending := Meter.ending) true st1)
       = Some (true, st3).
Proof.
  destruct (worker_echoes_last_Set (factory := Toy.factory)
              (instance := Toy.instance (Toy.mono 0 true))
              (outputs := Meter.noOutputs) (ending := Meter.ending) true
              (Toy.playing (Some 2%nat) true None
                 (Some (Toy.access (Toy.someSettings true 3))))
              (Toy.access (Toy.someSettings true 3))
              (settings (Toy.someSettings false 0))
              eq_refl eq_refl eq_refl)
    as [st1 [a1 [Hset [_ [_ [_ [a2 [st3 [Ha2 [_ Hflush]]]]]]]]]].
  exists st1, a2, st3. split; [exact Hset|]. split; [exact Ha2 | exact Hflush].
Defined.

Lemma Flush_publishes_last_settings_witness :
  exists st',
    Access_Flush (outputs := Meter.noOutputs) 2
      (fun n => audio_block (factory := Toy.factory)
                  (instance := Toy.instance (Toy.mono 0 true))
                  (outputs := Meter.noOutputs) (ending := Meter.ending)
                  true)
      (Some (Toy.playing (Some 2%nat) true None
               (Some (Toy.access (Toy.someSettings false 3)))))
    = Some (Some st')
    /\ mMainSettings st' = Toy.someSettings false 3.
Proof.
  destruct (Flush_publishes_last_settings (factory := Toy.factory)
              (instance := Toy.instance (Toy.mono 0 true))
              (outputs := Meter.noOutputs) (ending := Meter.ending)
              (fun _ => true)
              (Toy.playing (Some 2%nat) true None
                 (Some (Toy.access (Toy.someSettings false 3))))
              (Toy.access (Toy.someSettings false 3)) 2%nat
              eq_refl eq_refl ltac:(left; lia))
    as [st' [a' [Hflush [Hmain _]]]].
  exists st'. split; [exact Hflush | exact Hmain].
Defined.

Lemma Flush_waits_for_the_worker_witness :
  Access_Flush (outputs := Meter.noOutputs) 1000 (fun _ st => st)
    (Some (Toy.playing (Some 2%nat) true None
             (Some (Toy.access (Toy.someSettings false 3)))))
  = None.
Proof.
  apply (Flush_waits_for_the_worker (outputs := Meter.noOutputs)
           (Toy.playing (Some 2%nat) true None
              (Some (Toy.access (Toy.someSettings false 3))))
           (Toy.access (Toy.someSettings false 3)) 1000%nat).
  - reflexivity.
  - reflexivity.
  - vm_compute. lia.
Defined.

(** A session on an idle state: the handle is made, settings are written
    twice, a block is processed, the main thread flushes and reads. *)
Lemma AccessState_stays_in_order_witness :
  exists st' m',
    perform_all Meter.defaultExtra (factory := Meter.factory)
      (instance := Toy.instance (Toy.mono 0 true))
      (outputs := Meter.noOutputs) (manager := Meter.manager)
      (registry := Meter.registry) (ending := Meter.ending) 0
      [DoGetAccess "toy" (Toy.access (Toy.someSettings true 7));
       DoSet (settings (Toy.someSettings false 0));
       DoInitialize 44100;
       DoSet Toy.noSettings;
       DoSet (settings (Toy.someSettings true 0));
       DoProcessStart true; DoProcessEnd;
       DoFlush 2 (fun _ => true); DoGet]
      (Meter.idle None, Toy.audio)
    = Some (st', m')
    /\ (forall a', mpAccessState st' = Some a' -> in_order a')
    /\ has_value (fst (Access_Get Meter.defaultExtra
                         (outputs := Meter.noOutputs) (Some st'))) = true.
Proof.
  destruct (perform_all Meter.defaultExtra (factory := Meter.factory)
              (instance := Toy.instance (Toy.mono 0 true))
              (outputs := Meter.noOutputs) (manager := Meter.manager)
              (registry := Meter.registry) (ending := Meter.ending) 0
              [DoGetAccess "toy" (Toy.access (Toy.someSettings true 7));
               DoSet (settings (Toy.someSettings false 0));
               DoInitialize 44100;
               DoSet Toy.noSettings;
               DoSet (settings (Toy.someSettings true 0));
               DoProcessStart true; DoProcessEnd;
               DoFlush 2 (fun _ => true); DoGet]
              (Meter.idle None, Toy.audio)) as [[st' m']|] eqn:Hrun;
    [|vm_compute in Hrun; discriminate Hrun].
  exists st', m'. split; [reflexivity|].
  destruct (AccessState_stays_in_order Meter.defaultExtra
              (factory := Meter.factory)
              (instance := Toy.instance (Toy.mono 0 true))
              (outputs := Meter.noOutputs) (manager := Meter.manager)
              (registry := Meter.registry) (ending := Meter.ending) 0
              _ (Meter.idle None) Toy.audio st' m'
              ltac:(intros a Ha; discriminate Ha) Hrun)
    as [Horder [_ Hvalue]].
  split; [exact Horder|]. apply Hvalue.
  vm_compute in Hrun. injection Hrun as <- _. simpl. eauto.
Defined.

Lemma ProcessStart_takes_up_last_Set_witness :
  exists st1,
    Access_Set (Some (Toy.playing (Some 2%nat) true None
                        (Some (Toy.access (Toy.someSettings true 3)))))
      (settings (Toy.someSettings false 0)) = Some st1
    /\ mWorkerSettings
         (snd (ProcessStart (factory := Toy.factory)
                 (instance := Toy.instance (Toy.mono 0 true)) true st1))
       = Toy.someSettings false 4
    /\ mLastActive
         (snd (ProcessStart (factory := Toy.factory)
                 (instance := Toy.instance (Toy.mono 0 true)) true st1))
       = false.
Proof.
  destruct (ProcessStart_takes_up_last_Set (factory := Toy.factory)
              (instance := Toy.instance (Toy.mono 0 true)) true
              (Toy.playing (Some 2%nat) true None
                 (Some (Toy.access (Toy.someSettings true 3))))
              (Toy.access (Toy.someSettings true 3))
              (settings (Toy.someSettings false 0))
              eq_refl eq_refl ltac:(simpl; lia))
    as [st1 [Hset [Hworker [_ [_ Hlast]]]]].
  exists st1. split; [exact Hset|]. split; [exact Hworker|].
  exact (Hlast 2%nat eq_refl eq_refl).
Defined.

Lemma ProcessStart_true_engages_witness :
  engaged
    (snd (ProcessStart (factory := Toy.factory)
            (instance := Toy.instance (Toy.mono 0 true)) true
            (Toy.playing (Some 2%nat) false None None))).
Proof.
  destruct (ProcessStart_true_engages (factory := Toy.factory)
              (instance := Toy.instance (Toy.mono 0 true)) true
              (Toy.playing (Some 2%nat) false None None) eq_refl)
    as [_ [_ [_ [_ Hengaged]]]].
  exact (Hengaged eq_refl).
Defined.

(** A scope in which the main thread writes settings, a track is added
    and a block is processed. *)
Lemma scope_gives_main_settings_back_witness :
  exists st' m',
    perform_all Meter.defaultExtra (factory := Meter.factory)
      (instance := Toy.instance (Toy.mono 0 true))
      (outputs := Meter.noOutputs) (manager := Meter.manager)
      (registry := Meter.registry) (ending := Meter.ending) 0
      (DoInitialize 44100
       :: [DoAddTrack 5 7%N 2 44100;
           DoSet (settings (Toy.someSettings false 0));
           DoProcess 5 7%N 2 (Toy.buffers 0 2) (Toy.buffers 2 2) 3;
           DoProcessEnd; DoGet]
       ++ [DoFinalize])
      (Meter.idle (Some (Toy.access (Toy.someSettings true 0))), Toy.audio)
    = Some (st', m')
    /\ mMainSettings st' = Toy.someSettings true 0.
Proof.
  destruct (perform_all Meter.defaultExtra (factory := Meter.factory)
              (instance := Toy.instance (Toy.mono 0 true))
              (outputs := Meter.noOutputs) (manager := Meter.manager)
              (registry := Meter.registry) (ending := Meter.ending) 0
              (DoInitialize 44100
               :: [DoAddTrack 5 7%N 2 44100;
                   DoSet (settings (Toy.someSettings false 0));
                   DoProcess 5 7%N 2 (Toy.buffers 0 2) (Toy.buffers 2 2) 3;
                   DoProcessEnd; DoGet]
               ++ [DoFinalize])
              (Meter.idle (Some (Toy.access (Toy.someSettings true 0))),
               Toy.audio)) as [[st' m']|] eqn:Hrun;
    [|vm_compute in Hrun; discriminate Hrun].
  exists st', m'. split; [reflexivity|].
  apply (scope_gives_main_settings_back Meter.defaultExtra
           (factory := Meter.factory)
           (instance := Toy.instance (Toy.mono 0 true))
           (outputs := Meter.noOutputs) (manager := Meter.manager)
           (registry := Meter.registry) (ending := Meter.ending) 0 44100
           [DoAddTrack 5 7%N 2 44100;
            DoSet (settings (Toy.someSettings false 0));
            DoProcess 5 7%N 2 (Toy.buffers 0 2) (Toy.buffers 2 2) 3;
            DoProcessEnd; DoGet]
           (Meter.idle (Some (Toy.access (Toy.someSettings true 0))))
           Toy.audio st' m' eq_refl eq_refl
           ltac:(repeat constructor) Hrun).
Defined.

Lemma Process_keeps_bookkeeping_witness :
  exists d st' m',
    Process (instance := Toy.instance (Toy.mono 0 true)) 0 5 7%N 2
      (Toy.buffers 0 2) (Toy.buffers 2 2) 3
      (Toy.playing (Some 1%nat) true None None) Toy.audio
    = Some (d, (st', m'))
    /\ mCurrentProcessor st' = 0
    /\ mGroups st' = <[7%N := (0, 0)]> ∅.
Proof.
  destruct (Process (instance := Toy.instance (Toy.mono 0 true)) 0 5 7%N 2
              (Toy.buffers 0 2) (Toy.buffers 2 2) 3
              (Toy.playing (Some 1%nat) true None None) Toy.audio)
    as [[d [st' m']]|] eqn:Hrun; [|vm_compute in Hrun; discriminate Hrun].
  exists d, st', m'. split; [reflexivity|].
  destruct (Process_keeps_bookkeeping
              (instance := Toy.instance (Toy.mono 0 true)) 0 5 7%N 2
              (Toy.buffers 0 2) (Toy.buffers 2 2) 3
              (Toy.playing (Some 1%nat) true None None) Toy.audio
              d st' m' Hrun)
    as [_ [Hcurrent [_ [_ Hgroup]]]].
  split; [exact Hcurrent|].
  apply Hgroup; [reflexivity|]. repeat split. simpl. eauto.
Defined.

Lemma alloc_offsets_in_bounds_witness :
  Forall (fun p : Z * Z => (0 <= fst p < 3) /\ (0 <= snd p < 3))
    [(0, 0); (2, 1); (1, 2)].
Proof.
  apply (alloc_offsets_in_bounds (St := unit) Allocator.always 4 3 2 1 tt
           [(0, 0); (2, 1); (1, 2)] tt).
  reflexivity.
Defined.

(** Three channels, a processor of two inputs and two outputs pointed at
    the last channel: its second input is the first channel again, its
    second output is null. *)
Lemma client_buffers_cycle_witness :
  (exists newIn,
      client_inputs 5 3 2 (Toy.buffers 0 3) 2 [None; None] = Some newIn
      /\ newIn !! 0%nat = Toy.buffers 0 3 !! 2%nat
      /\ newIn !! 1%nat = Toy.buffers 0 3 !! 0%nat)
  /\ client_outputs 3 2 (Toy.buffers 3 3) 2 [None; None] !! 1%nat
     = Some None.
Proof.
  destruct (client_buffers_cycle 5 3 2 2 (Toy.buffers 0 3) (Toy.buffers 3 3)
              2 2 [None; None] [None; None])
    as [[newIn [Hin [_ Hcycle]]] [_ Hout]];
    try lia; try reflexivity; try (simpl; lia).
  split.
  - exists newIn. split; [exact Hin|]. split.
    + exact (Hcycle 0%nat ltac:(simpl; lia)).
    + exact (Hcycle 1%nat ltac:(simpl; lia)).
  - exact (Hout 1%nat ltac:(simpl; lia)).
Defined.

(** Two channels through a processor of one output, 1100 frames in blocks
    of 512: two processors, three requests each. *)
Lemma Process_requests_witness :
  exists d st' m',
    Process (instance := Toy.instance (Toy.mono 0 true)) 0 1200 7%N 2
      (Toy.buffers 0 2) (Toy.buffers 2 2) 1100
      (Toy.playing (Some 1%nat) true None None) Toy.audio
    = Some (d, (st', m'))
    /\ requests (made_since (Toy.playing (Some 1%nat) true None None) st')
       = [(0, 512); (0, 512); (0, 76); (1, 512); (1, 512); (1, 76)].
Proof.
  destruct (Process_requests 0 (instance := Toy.instance (Toy.mono 0 true))
              1200 7%N 2 (Toy.buffers 0 2) (Toy.buffers 2 2) 1100 512
              (Toy.playing (Some 1%nat) true None None) 1%nat Toy.audio)
    as [[d [st' [m' [Hrun Hrequests]]]] _].
  - intros i. simpl. lia.
  - reflexivity.
  - repeat split. simpl. eauto.
  - reflexivity.
  - lia.
  - simpl. lia.
  - lia.
  - lia.
  - lia.
  - simpl. lia.
  - exists d, st', m'. split; [exact Hrun | exact Hrequests].
Defined.

(** Three channels through the mixer: [AddTrack] adds three processors,
    and [Process] asks each of them for the one block. *)
Lemma Process_visits_processors_added_witness :
  exists st1 d st2 m2,
    AddTrack (factory := Toy.factory) (instance := Toy.instance Toy.mixer)
      5 7%N 3 44100 (Toy.playing (Some 3%nat) true None None)
    = Some (true, st1)
    /\ mCurrentProcessor st1 = 3
    /\ Process (instance := Toy.instance Toy.mixer) 0 5 7%N 3
         (Toy.buffers 0 3) (Toy.buffers 3 3) 3 st1 Toy.audio
       = Some (d, (st2, m2))
    /\ requests (made_since st1 st2) = [(0, 3); (1, 3); (2, 3)].
Proof.
  destruct (AddTrack (factory := Toy.factory)
              (instance := Toy.instance Toy.mixer)
              5 7%N 3 44100 (Toy.playing (Some 3%nat) true None None))
    as [[[|] st1]|] eqn:Hadd;
    [| vm_compute in Hadd; discriminate Hadd
     | vm_compute in Hadd; discriminate Hadd].
  destruct (Process_visits_processors_added 0
              (instance := Toy.instance Toy.mixer) (factory := Toy.factory)
              5 7%N 3 44100 (Toy.buffers 0 3) (Toy.buffers 3 3) 3 2 1 512
              (Toy.playing (Some 3%nat) true None None) st1 Toy.audio)
    as [Hadded [d [st2 [m2 [Hrun Hrequests]]]]];
    try lia; try exact Hadd.
  - intros i. repeat split.
  - vm_compute in Hadd. injection Hadd as <-. reflexivity.
  - vm_compute in Hadd. injection Hadd as <-. reflexivity.
  - change (mCurrentProcessor st1 - 0 = 3) in Hadded.
    assert (Hthree : mCurrentProcessor st1 = 3) by lia.
    exists st1, d, st2, m2. split; [reflexivity|].
    split; [exact Hthree|]. split; [exact Hrun|].
    rewrite Hrequests, Hthree. reflexivity.
Defined.

Lemma Process_hangs_on_zero_block_size_witness :
  Process (instance := Toy.instance Meter.stuck) 0 1000 7%N 2
    (Toy.buffers 0 2) (Toy.buffers 2 2) 3
    (Toy.playing (Some 1%nat) true None None) Toy.audio
  = None.
Proof.
  apply (Process_hangs_on_zero_block_size 0
           (instance := Toy.instance Meter.stuck) 1000 7%N 2
           (Toy.buffers 0 2) (Toy.buffers 2 2) 3
           (Toy.playing (Some 1%nat) true None None) Toy.audio).
  - repeat split. simpl. eauto.
  - reflexivity.
  - lia.
  - lia.
Defined.

(** What is written for a state bound to the toy plugin is read back by a
    state that was bound to nothing. *)
Lemma WriteXML_is_read_back_witness :
  exists r',
    replay (manager := Meter.manager) (registry := Meter.registry)
      Meter.view_of_bool Meter.view_of_string
      (WriteXML (manager := Meter.manager) (registry := Meter.registry)
         {| mID := "toy"; mParameters := "";
            members := Toy.playing None true None None |} [])
      None
      {| mID := ""; mParameters := ""; members := Meter.idle None |}
    = Some r'
    /\ mID r' = "toy"
    /\ mPlugin (members r') = true.
Proof.
  destruct (WriteXML_is_read_back (manager := Meter.manager)
              (registry := Meter.registry)
              Meter.view_of_bool Meter.view_of_string
              ltac:(reflexivity) ltac:(reflexivity)
              {| mID := "toy"; mParameters := "";
                 members := Toy.playing None true None None |}
              {| mID := ""; mParameters := ""; members := Meter.idle None |}
              eq_refl eq_refl eq_refl)
    as [r' [Hread [Hid [_ [Hplugin _]]]]].
  exists r'. split; [exact Hread|]. split; [exact Hid | exact Hplugin].
Defined.

(** The worker metered the level 5; after the end of the block the main
    thread reads it. *)
Lemma outputs_reach_the_main_thread_witness :
  exists a1 b st2,
    mpAccessState (snd (ProcessEnd (outputs := Meter.levels)
                          (ending := Meter.ending) (Meter.metered 5 1)))
    = Some a1
    /\ FlushAttempt (outputs := Meter.levels) a1
         (snd (ProcessEnd (outputs := Meter.levels)
                 (ending := Meter.ending) (Meter.metered 5 1)))
       = Some (b, st2)
    /\ mMovedOutputs st2 = Some 5.
Proof.
  destruct (outputs_reach_the_main_thread (outputs := Meter.levels)
              (ending := Meter.ending) (Meter.metered 5 1) Meter.metering
              5 1 eq_refl eq_refl eq_refl eq_refl)
    as [a1 [b [st2 [a2 [Ha1 [Hflush [Hmoved _]]]]]]].
  - split; simpl; eauto.
  - reflexivity.
  - exists a1, b, st2. split; [exact Ha1|].
    split; [exact Hflush | exact Hmoved].
Defined.

Lemma expired_instance_is_not_replaced_witness :
  AddTrack (factory := Meter.factory)
    (instance := Toy.instance (Toy.mono 0 true)) 5 7%N 2 44100
    (Toy.playing None true None None)
  = Some (false, Toy.playing None true None None)
  /\ fst (ProcessStart (factory := Meter.factory)
            (instance := Toy.instance (Toy.mono 0 true)) true
            (Toy.playing None true None None)) = false.
Proof.
  destruct (expired_instance_is_not_replaced (factory := Meter.factory)
              (instance := Toy.instance (Toy.mono 0 true))
              (Toy.playing None true None None))
    as [_ [Hadd [Hstart _]]].
  - split; reflexivity.
  - split; [exact (Hadd 5%nat 7%N 2 44100) | exact (proj1 (Hstart true))].
Defined.
